(** * project_khun_q: the data grid and the Gantt timeline of [src/App.tsx]

    A shallow embedding of the interactive data grid shared by
    [TaskListView] and [IssueLogView] (column order, column widths,
    filters, selection, persisted layout) and of the geometry computed by
    [GanttView], followed by the properties the specification states
    about them.

    Conventions.
    - A React component's state is a record; an event handler is a
      function from state to state.
    - JavaScript arrays are lists, [Set<string>] is [gset string],
      [Record<string, number>] is [gmap string Z], [localStorage] is
      [gmap string string].
    - Pixel widths and pointer coordinates are integers ([Z]), as the
      type [number] of [columnWidths] and of the resize state is used;
      the Gantt arithmetic, which divides and multiplies by a zoom factor
      that the zoom buttons make fractional, is exact rational
      arithmetic ([Q]).
    - A value that JavaScript reports as [NaN] / [Invalid Date], and a
      thrown exception, are [None]. *)

From stdpp Require Import gmap strings list fin_maps.
From Stdlib Require Import ZArith QArith Qminmax Lia Lqa.
From Stdlib Require Import DecimalString DecimalZ DecimalPos.

Close Scope Q_scope.
Local Open Scope string_scope.
Local Open Scope list_scope.
Local Open Scope nat_scope.

(* ===================================================================== *)
(** * Platform primitives used by the views *)
(* ===================================================================== *)

Module JS.

(** Truthiness of a string: only the empty string is falsy. *)
Definition truthy (s : string) : bool := negb (String.eqb s "").

(** [Array.prototype.indexOf]: first index holding [k], or [-1]. *)
Fixpoint indexOf_from (l : list string) (k : string) (i : Z) : Z :=
  match l with
  | [] => (-1)%Z
  | x :: l' => if String.eqb x k then i else indexOf_from l' k (i + 1)%Z
  end.

Definition indexOf (l : list string) (k : string) : Z := indexOf_from l k 0%Z.

(** [Array.prototype.includes] on an array of strings. *)
Definition array_includes (l : list string) (k : string) : bool :=
  existsb (String.eqb k) l.

(** The start index of [splice], made relative to the array: a negative
    [start] counts from the end and is clamped at [0], a [start] past
    the end is clamped at the length. *)
Definition relative_start (len : nat) (start : Z) : nat :=
  if (start <? 0)%Z
  then Z.to_nat (Z.max (Z.of_nat len + start) 0)
  else Z.to_nat (Z.min start (Z.of_nat len)).

(** [Array.prototype.splice(start, deleteCount, ...items)]: the array as
    it is after the call (the call's return value, the removed elements,
    is not used by the views). *)
Definition splice {A : Type} (l : list A) (start deleteCount : Z)
    (items : list A) : list A :=
  let s := relative_start (length l) start in
  let d := Z.to_nat (Z.min (Z.max deleteCount 0) (Z.of_nat (length l - s))) in
  take s l ++ items ++ drop (s + d) l.

(** [String.prototype.toLowerCase] folds case by the Unicode tables of
    the platform. The views are embedded over any such function, a
    variable [toLowerCase] of their sections. [toLowerCase_ascii] is an
    instance for the examples: it is what [toLowerCase] does on text
    made of ASCII characters only (a string is a sequence of bytes
    here; the letters [A-Z] are lowered, every other byte is kept). *)
Definition lower_ascii (c : Ascii.ascii) : Ascii.ascii :=
  let n := Ascii.nat_of_ascii c in
  if (65 <=? n) && (n <=? 90) then Ascii.ascii_of_nat (n + 32) else c.

Fixpoint toLowerCase_ascii (s : string) : string :=
  match s with
  | EmptyString => EmptyString
  | String c s' => String (lower_ascii c) (toLowerCase_ascii s')
  end.

(** [String.prototype.includes]: [sub] occurs in [s] at some position. *)
Fixpoint includes (s sub : string) : bool :=
  String.prefix sub s
  || match s with
     | EmptyString => false
     | String _ s' => includes s' sub
     end.

(** [String(v || '')] for a property that holds a string or is missing:
    a missing and an empty value both give the empty string. *)
Definition String_or_empty (v : option string) : string :=
  match v with
  | Some s => if truthy s then s else ""
  | None => ""
  end.

(** [Object.entries] of a string-valued object. *)
Definition Object_entries (o : gmap string string) : list (string * string) :=
  map_to_list o.

(** [Array.prototype.every]. *)
Definition every {A : Type} (p : A → bool) (l : list A) : bool := forallb p l.

(** [s.split(' ')[0]]: the text before the first space. *)
Fixpoint split_space_0 (s : string) : string :=
  match s with
  | EmptyString => EmptyString
  | String c s' =>
      if Ascii.nat_of_ascii c =? 32 then EmptyString
      else String c (split_space_0 s')
  end.

(** A [Date] for the examples: [new Date(s).getTime()] for a calendar
    date written [YYYY-MM-DD], the form [src/types.ts] documents for
    [startDate] and [dueDate] (midnight UTC of that day, in
    milliseconds); any other text is an [Invalid Date]. *)
Definition digit (c : Ascii.ascii) : option Z :=
  let n := Z.of_nat (Ascii.nat_of_ascii c) in
  if (48 <=? n)%Z && (n <=? 57)%Z then Some (n - 48)%Z else None.

Definition is_leap (y : Z) : bool :=
  (y mod 4 =? 0)%Z && (negb (y mod 100 =? 0)%Z || (y mod 400 =? 0)%Z).

Definition days_in_month (y m : Z) : Z :=
  if (m =? 2)%Z then (if is_leap y then 29 else 28)%Z
  else if (m =? 4)%Z || (m =? 6)%Z || (m =? 9)%Z || (m =? 11)%Z then 30%Z
  else 31%Z.

(** Days from 1970-01-01 to the civil date [y-m-d]. *)
Definition days_from_civil (y m d : Z) : Z :=
  let y' := (if (m <=? 2)%Z then y - 1 else y)%Z in
  let era := (y' / 400)%Z in
  let yoe := (y' - era * 400)%Z in
  let mp := ((m + 9) mod 12)%Z in
  let doy := ((153 * mp + 2) / 5 + d - 1)%Z in
  let doe := (yoe * 365 + yoe / 4 - yoe / 100 + doy)%Z in
  (era * 146097 + doe - 719468)%Z.

Definition Date_getTime_iso (s : string) : option Z :=
  match s with
  | String y1 (String y2 (String y3 (String y4 (String sep1
      (String m1 (String m2 (String sep2 (String d1 (String d2
         EmptyString))))))))) =>
      if (Ascii.nat_of_ascii sep1 =? 45) && (Ascii.nat_of_ascii sep2 =? 45) then
        a ← digit y1; b ← digit y2; c ← digit y3; d ← digit y4;
        e ← digit m1; f ← digit m2; g ← digit d1; h ← digit d2;
        let y := (a * 1000 + b * 100 + c * 10 + d)%Z in
        let m := (e * 10 + f)%Z in
        let dd := (g * 10 + h)%Z in
        if (1 <=? m)%Z && (m <=? 12)%Z && (1 <=? dd)%Z
           && (dd <=? days_in_month y m)%Z
        then Some (days_from_civil y m dd * 86400000)%Z
        else None
      else None
  | _ => None
  end.

(** ** [JSON.stringify] and [JSON.parse] on the two persisted shapes

    The grid persists an array of strings (the column order) and an
    object of integers (the column widths). [JSON_stringify_*] writes
    the text [JSON.stringify] writes for such a value (the members of an
    object in the order [map_to_list] gives them); [JSON_parse_*] reads
    such a text back and answers [None], the thrown [SyntaxError], for
    anything else it is given. Number texts are decimal integers, and an
    escape [\uXXXX] is read for the code points below 128. *)

Definition chr (n : nat) : Ascii.ascii := Ascii.ascii_of_nat n.
Definition code (c : Ascii.ascii) : nat := Ascii.nat_of_ascii c.

Definition hex_digit (n : nat) : Ascii.ascii :=
  chr (if n <? 10 then 48 + n else 87 + n).

Definition hex_value (c : Ascii.ascii) : option nat :=
  let n := code c in
  if (48 <=? n) && (n <=? 57) then Some (n - 48)
  else if (97 <=? n) && (n <=? 102) then Some (n - 87)
  else if (65 <=? n) && (n <=? 70) then Some (n - 55)
  else None.

(** A two-character escape: a backslash and the character [e]. *)
Definition escape2 (e : nat) (rest : string) : string :=
  String (chr 92) (String (chr e) rest).

(** The text of one character inside a JSON string, before [rest]. *)
Definition quote_char (c : Ascii.ascii) (rest : string) : string :=
  let n := code c in
  if n =? 34 then escape2 34 rest
  else if n =? 92 then escape2 92 rest
  else if n =? 8 then escape2 98 rest
  else if n =? 12 then escape2 102 rest
  else if n =? 10 then escape2 110 rest
  else if n =? 13 then escape2 114 rest
  else if n =? 9 then escape2 116 rest
  else if n <? 32 then
    escape2 117 (String (chr 48) (String (chr 48)
      (String (hex_digit (n / 16)) (String (hex_digit (n mod 16)) rest))))
  else String c rest.

Fixpoint quote_chars (s rest : string) : string :=
  match s with
  | EmptyString => rest
  | String c s' => quote_char c (quote_chars s' rest)
  end.

Definition cons_char (c : Ascii.ascii) (r : option (string * string))
    : option (string * string) :=
  match r with
  | Some (s, rest) => Some (String c s, rest)
  | None => None
  end.

(** Reads the characters of a JSON string up to its closing quote:
    the string read and the text after the quote. *)
Fixpoint parse_chars (s : string) : option (string * string) :=
  match s with
  | EmptyString => None
  | String c s1 =>
      let n := code c in
      if n =? 34 then Some (EmptyString, s1)
      else if n =? 92 then
        match s1 with
        | EmptyString => None
        | String e s2 =>
            let m := code e in
            if m =? 34 then cons_char (chr 34) (parse_chars s2)
            else if m =? 92 then cons_char (chr 92) (parse_chars s2)
            else if m =? 47 then cons_char (chr 47) (parse_chars s2)
            else if m =? 98 then cons_char (chr 8) (parse_chars s2)
            else if m =? 102 then cons_char (chr 12) (parse_chars s2)
            else if m =? 110 then cons_char (chr 10) (parse_chars s2)
            else if m =? 114 then cons_char (chr 13) (parse_chars s2)
            else if m =? 116 then cons_char (chr 9) (parse_chars s2)
            else if m =? 117 then
              match s2 with
              | String h1 (String h2 (String h3 (String h4 s3))) =>
                  match hex_value h1, hex_value h2, hex_value h3, hex_value h4 with
                  | Some a, Some b, Some c', Some d =>
                      let v := ((a * 16 + b) * 16 + c') * 16 + d in
                      if v <? 128 then cons_char (chr v) (parse_chars s3) else None
                  | _, _, _, _ => None
                  end
              | _ => None
              end
            else None
        end
      else if n <? 32 then None
      else cons_char c (parse_chars s1)
  end.

(** ["..."], before [rest]. *)
Definition stringify_string (s rest : string) : string :=
  String (chr 34) (quote_chars s (String (chr 34) rest)).

(** The elements of an array, separated by commas, before [rest]. *)
Fixpoint stringify_elements (l : list string) (rest : string) : string :=
  match l with
  | [] => rest
  | x :: l' =>
      stringify_string x
        match l' with
        | [] => rest
        | _ :: _ => String (chr 44) (stringify_elements l' rest)
        end
  end.

Definition JSON_stringify_array (l : list string) : string :=
  String (chr 91) (stringify_elements l (String (chr 93) EmptyString)).

(** Reads the elements of a non-empty array and the closing bracket,
    which must end the text. The fuel bounds the number of elements. *)
Fixpoint parse_elements (fuel : nat) (s : string) : option (list string) :=
  match fuel with
  | 0 => None
  | S fuel' =>
      match s with
      | String q s1 =>
          if code q =? 34 then
            match parse_chars s1 with
            | Some (item, String sep s2) =>
                if code sep =? 44 then
                  match parse_elements fuel' s2 with
                  | Some items => Some (item :: items)
                  | None => None
                  end
                else if code sep =? 93 then
                  match s2 with
                  | EmptyString => Some [item]
                  | String _ _ => None
                  end
                else None
            | _ => None
            end
          else None
      | EmptyString => None
      end
  end.

Definition JSON_parse_array (text : string) : option (list string) :=
  match text with
  | String o rest =>
      if code o =? 91 then
        match rest with
        | String c rest' =>
            if code c =? 93 then
              match rest' with
              | EmptyString => Some []
              | String _ _ => None
              end
            else parse_elements (String.length rest) rest
        | EmptyString => None
        end
      else None
  | EmptyString => None
  end.

(** What a cell of a widths object can hold: a number, which is an
    integer or [NaN], or [null] (which [JSON.parse] reads where
    [JSON.stringify] wrote a [NaN]). A missing property, [undefined], is
    the [None] of [option Value]. *)
Inductive Value : Type :=
  | Num (z : Z)
  | NaN
  | Null.

(** [v + d] for an integer [d]: [undefined] becomes [NaN], [null]
    becomes [0]. *)
Definition plus (v : option Value) (d : Z) : Value :=
  match v with
  | Some (Num z) => Num (z + d)
  | Some NaN => NaN
  | Some Null => Num d
  | None => NaN
  end.

(** [Math.max(a, v)] for an integer [a]: [NaN] if [v] is [NaN]. *)
Definition Math_max (a : Z) (v : Value) : Value :=
  match v with
  | Num z => Num (Z.max a z)
  | NaN => NaN
  | Null => Num (Z.max a 0)
  end.

(** The decimal text of an integer, before [rest]. *)
Definition stringify_number (z : Z) (rest : string) : string :=
  (NilZero.string_of_int (Z.to_int z) ++ rest)%string.

Definition is_number_char (c : Ascii.ascii) : bool :=
  (code c =? 45) || ((48 <=? code c) && (code c <=? 57)).

(** Splits the text at the first character that is neither a digit nor
    a minus sign. *)
Fixpoint span_number (s : string) : string * string :=
  match s with
  | EmptyString => (EmptyString, EmptyString)
  | String c s' =>
      if is_number_char c then
        let '(digits, rest) := span_number s' in (String c digits, rest)
      else (EmptyString, s)
  end.

Definition parse_number (s : string) : option (Z * string) :=
  let '(digits, rest) := span_number s in
  match NilZero.int_of_string digits with
  | Some d => Some (Z.of_int d, rest)
  | None => None
  end.

(** The text of a cell, before [rest]: [JSON.stringify] writes [null]
    for [NaN] as for [null]. *)
Definition stringify_value (v : Value) (rest : string) : string :=
  match v with
  | Num z => stringify_number z rest
  | NaN | Null => String (chr 110) (String (chr 117) (String (chr 108)
                    (String (chr 108) rest)))
  end.

(** Reads an integer or [null]. *)
Definition parse_value (s : string) : option (Value * string) :=
  match parse_number s with
  | Some (z, rest) => Some (Num z, rest)
  | None =>
      match s with
      | String n (String u (String l1 (String l2 rest))) =>
          if (code n =? 110) && (code u =? 117) && (code l1 =? 108)
             && (code l2 =? 108)
          then Some (Null, rest) else None
      | _ => None
      end
  end.

(** The members ["key":value] of an object, separated by commas,
    before [rest]. *)
Fixpoint stringify_members (l : list (string * Value)) (rest : string) : string :=
  match l with
  | [] => rest
  | (k, v) :: l' =>
      stringify_string k
        (String (chr 58)
           (stringify_value v
              match l' with
              | [] => rest
              | _ :: _ => String (chr 44) (stringify_members l' rest)
              end))
  end.

Definition JSON_stringify_object (o : gmap string Value) : string :=
  String (chr 123) (stringify_members (map_to_list o) (String (chr 125) EmptyString)).

Fixpoint parse_members (fuel : nat) (s : string) : option (list (string * Value)) :=
  match fuel with
  | 0 => None
  | S fuel' =>
      match s with
      | String q s1 =>
          if code q =? 34 then
            match parse_chars s1 with
            | Some (k, String colon s2) =>
                if code colon =? 58 then
                  match parse_value s2 with
                  | Some (v, String sep s3) =>
                      if code sep =? 44 then
                        match parse_members fuel' s3 with
                        | Some members => Some ((k, v) :: members)
                        | None => None
                        end
                      else if code sep =? 125 then
                        match s3 with
                        | EmptyString => Some [(k, v)]
                        | String _ _ => None
                        end
                      else None
                  | _ => None
                  end
                else None
            | _ => None
            end
          else None
      | EmptyString => None
      end
  end.

(** The object a list of members denotes: a later member replaces an
    earlier one with the same key. *)
Definition object_of_members (members : list (string * Value))
    : gmap string Value :=
  foldl (λ o kv, <[kv.1 := kv.2]> o) ∅ members.

Definition JSON_parse_object (text : string) : option (gmap string Value) :=
  match text with
  | String o rest =>
      if code o =? 123 then
        match rest with
        | String c rest' =>
            if code c =? 125 then
              match rest' with
              | EmptyString => Some ∅
              | String _ _ => None
              end
            else object_of_members <$> parse_members (String.length rest) rest
        | EmptyString => None
        end
      else None
  | EmptyString => None
  end.

End JS.

(* ===================================================================== *)
(** * [src/types.ts] *)
(* ===================================================================== *)

Inductive TaskType : Type := TypeTask | TypeMilestone.

Definition TaskType_to_string (t : TaskType) : string :=
  match t with
  | TypeTask => "Task"
  | TypeMilestone => "Milestone"
  end.

(** [interface Task]. Status and priority are kept as the strings they
    are at run time; [closedDate] is optional. *)
Record Task : Type := mkTask {
  task_id : string;
  task_title : string;
  task_description : string;
  task_status : string;
  task_priority : string;
  task_startDate : string;
  task_dueDate : string;
  task_closedDate : option string;
  task_assignee : string;
  task_type : TaskType
}.

(** [interface Issue]. *)
Record Issue : Type := mkIssue {
  issue_id : string;
  issue_title : string;
  issue_description : string;
  issue_status : string;
  issue_priority : string;
  issue_dueDate : string;
  issue_closedDate : option string;
  issue_dateOpened : string;
  issue_reportedBy : string;
  issue_assignedTo : string
}.

(** [(task as any)[key]]: the own property [key] of a task, [None] when
    the task has no such property ([undefined]). The keys the grid asks
    for are its column keys; what an object inherits from its prototype
    is not part of the record. *)
Definition task_field (t : Task) (key : string) : option string :=
  if String.eqb key "id" then Some (task_id t)
  else if String.eqb key "title" then Some (task_title t)
  else if String.eqb key "description" then Some (task_description t)
  else if String.eqb key "status" then Some (task_status t)
  else if String.eqb key "priority" then Some (task_priority t)
  else if String.eqb key "startDate" then Some (task_startDate t)
  else if String.eqb key "dueDate" then Some (task_dueDate t)
  else if String.eqb key "closedDate" then task_closedDate t
  else if String.eqb key "assignee" then Some (task_assignee t)
  else if String.eqb key "type" then Some (TaskType_to_string (task_type t))
  else None.

(** [(issue as any)[key]]. *)
Definition issue_field (i : Issue) (key : string) : option string :=
  if String.eqb key "id" then Some (issue_id i)
  else if String.eqb key "title" then Some (issue_title i)
  else if String.eqb key "description" then Some (issue_description i)
  else if String.eqb key "status" then Some (issue_status i)
  else if String.eqb key "priority" then Some (issue_priority i)
  else if String.eqb key "dueDate" then Some (issue_dueDate i)
  else if String.eqb key "closedDate" then issue_closedDate i
  else if String.eqb key "dateOpened" then Some (issue_dateOpened i)
  else if String.eqb key "reportedBy" then Some (issue_reportedBy i)
  else if String.eqb key "assignedTo" then Some (issue_assignedTo i)
  else None.

(* ===================================================================== *)
(** * [src/types.ts], the workspace types *)
(* ===================================================================== *)

(** [interface User]; the role is kept as the string it is at run time. *)
Record User : Type := mkUser {
  user_id : string;
  user_name : string;
  user_role : string;
  user_avatarColor : string;
  user_email : option string
}.

(** [interface Project]. *)
Record Project : Type := mkProject {
  project_id : string;
  project_name : string;
  project_tasks : list Task;
  project_issues : list Issue;
  project_members : list string
}.

(** [Partial<Task>]: the fields an update carries. *)
Record TaskUpdates : Type := mkTaskUpdates {
  upd_id : option string;
  upd_title : option string;
  upd_description : option string;
  upd_status : option string;
  upd_priority : option string;
  upd_startDate : option string;
  upd_dueDate : option string;
  upd_closedDate : option (option string);
  upd_assignee : option string;
  upd_type : option TaskType
}.

(** [{ ...t, ...updates }]. *)
Definition applyUpdates (t : Task) (updates : TaskUpdates) : Task :=
  mkTask (default (task_id t) (upd_id updates))
         (default (task_title t) (upd_title updates))
         (default (task_description t) (upd_description updates))
         (default (task_status t) (upd_status updates))
         (default (task_priority t) (upd_priority updates))
         (default (task_startDate t) (upd_startDate updates))
         (default (task_dueDate t) (upd_dueDate updates))
         (default (task_closedDate t) (upd_closedDate updates))
         (default (task_assignee t) (upd_assignee updates))
         (default (task_type t) (upd_type updates)).

(** [{ status }] and [{ priority }], the two updates the task list sends. *)
Definition statusUpdate (status : string) : TaskUpdates :=
  mkTaskUpdates None None None (Some status) None None None None None None.

Definition priorityUpdate (priority : string) : TaskUpdates :=
  mkTaskUpdates None None None None (Some priority) None None None None None.

(** [src/constants.ts]. *)
Definition TASK_STATUSES : list string :=
  [ "To Do"; "Doing"; "Done"; "At Risk"; "On Hold" ].

(** [STATUS_COLORS]; a status that is not one of its keys reads as
    [None] ([undefined], or a property inherited from [Object] that has
    no [split]). *)
Definition STATUS_COLORS : gmap string string :=
  list_to_map
    [ ("To Do", "bg-slate-100 text-slate-700 border-slate-200");
      ("Doing", "bg-amber-100 text-amber-800 border-amber-200");
      ("Done", "bg-emerald-100 text-emerald-800 border-emerald-200");
      ("At Risk", "bg-red-100 text-red-800 border-red-200");
      ("On Hold", "bg-purple-100 text-purple-800 border-purple-200") ].

(* ===================================================================== *)
(** * The grid handlers, as both views write them *)
(* ===================================================================== *)

(** [TaskListView] and [IssueLogView] carry the same handler bodies word
    for word. [Grid] holds each body once, as a function of the pieces
    of component state the body reads. *)
Module Grid.

(** Body of [handleColumnDrop]: [None] is the early [return] (no state
    is set), [Some newOrder] is the array passed to [setColumnOrder]. *)
Definition handleColumnDrop (draggedColumn : option string)
    (targetKey : string) (columnOrder : list string) : option (list string) :=
  match draggedColumn with
  | None => None
  | Some dragged =>
      if negb (JS.truthy dragged) || String.eqb dragged targetKey then None
      else
        let newOrder := columnOrder in
        let draggedIdx := JS.indexOf newOrder dragged in
        let targetIdx := JS.indexOf newOrder targetKey in
        let newOrder := JS.splice newOrder draggedIdx 1 [] in
        let newOrder := JS.splice newOrder targetIdx 0 [dragged] in
        Some newOrder
  end.

(** The drag state captured by [startResize]. [startWidth] is
    [columnWidths[key]] as it was read: [None] ([undefined]) when the
    widths object has no property for the column. *)
Record Resizing : Type := mkResizing {
  key : string;
  startX : Z;
  startWidth : option JS.Value
}.

(** Body of [startResize]: the drag state it sets. *)
Definition startResize (k : string) (clientX : Z)
    (columnWidths : gmap string JS.Value) : Resizing :=
  mkResizing k clientX (columnWidths !! k).

(** Body of [handleMouseMove]: the widths after a pointer move at
    [clientX]. *)
Definition handleMouseMove (resizing : option Resizing) (clientX : Z)
    (columnWidths : gmap string JS.Value) : gmap string JS.Value :=
  match resizing with
  | None => columnWidths
  | Some r =>
      let diff := (clientX - startX r)%Z in
      let newWidth := JS.Math_max 80 (JS.plus (startWidth r) diff) in
      <[key r := newWidth]> columnWidths
  end.

End Grid.

(* ===================================================================== *)
(** * [TaskListView] *)
(* ===================================================================== *)

Module TaskListView.

(** The component's [useState] cells. *)
Record State : Type := mkState {
  selectedIds : gset string;
  columnWidths : gmap string JS.Value;
  columnOrder : list string;
  resizing : option Grid.Resizing;
  draggedColumn : option string;
  activeFilters : gmap string string;
  filterOpen : option string
}.

Definition handleColumnDragStart (k : string) (st : State) : State :=
  mkState (selectedIds st) (columnWidths st) (columnOrder st) (resizing st)
          (Some k) (activeFilters st) (filterOpen st).

Definition handleColumnDrop (targetKey : string) (st : State) : State :=
  match Grid.handleColumnDrop (draggedColumn st) targetKey (columnOrder st) with
  | None => st
  | Some newOrder =>
      mkState (selectedIds st) (columnWidths st) newOrder (resizing st)
              None (activeFilters st) (filterOpen st)
  end.

Definition handleMouseMove (clientX : Z) (st : State) : State :=
  mkState (selectedIds st)
          (Grid.handleMouseMove (resizing st) clientX (columnWidths st))
          (columnOrder st) (resizing st) (draggedColumn st)
          (activeFilters st) (filterOpen st).

Definition handleMouseUp (st : State) : State :=
  mkState (selectedIds st) (columnWidths st) (columnOrder st) None
          (draggedColumn st) (activeFilters st) (filterOpen st).

(** [startResize]:
    [setResizing({ key, startX: e.clientX, startWidth: columnWidths[key] })]. *)
Definition startResize (k : string) (clientX : Z) (st : State) : State :=
  mkState (selectedIds st) (columnWidths st) (columnOrder st)
          (Some (Grid.startResize k clientX (columnWidths st)))
          (draggedColumn st) (activeFilters st) (filterOpen st).

Section Filtering.

(** [String.prototype.toLowerCase], the platform's. *)
Variable toLowerCase : string → string.

(** The callback given to [every] in [filteredTasks], for one entry
    [[key, value]] of the filter map. *)
Definition filter_entry (task : Task) (entry : string * string) : bool :=
  let '(key, value) := entry in
  if negb (JS.truthy value) then true
  else if String.eqb key "status" then String.eqb (task_status task) value
  else if String.eqb key "priority" then String.eqb (task_priority task) value
  else
    let itemVal := toLowerCase (JS.String_or_empty (task_field task key)) in
    JS.includes itemVal (toLowerCase value).

Definition filteredTasks (tasks : list Task) (activeFilters : gmap string string)
    : list Task :=
  List.filter
    (λ task, JS.every (filter_entry task) (JS.Object_entries activeFilters))
    tasks.

End Filtering.

(** The [onChange] of every filter input:
    [setActiveFilters({...activeFilters, [key]: e.target.value})]. *)
Definition changeFilter (k value : string) (st : State) : State :=
  mkState (selectedIds st) (columnWidths st) (columnOrder st) (resizing st)
          (draggedColumn st) (<[k := value]> (activeFilters st)) (filterOpen st).

Definition clearFilter (k : string) (st : State) : State :=
  let next := delete k (activeFilters st) in
  mkState (selectedIds st) (columnWidths st) (columnOrder st) (resizing st)
          (draggedColumn st) next None.

(** [toggleSelection]: copy the set, then delete the id if the copy has
    it and add it otherwise. *)
Definition toggleSelection (id : string) (st : State) : State :=
  let newSet := selectedIds st in
  let newSet := if bool_decide (id ∈ newSet) then newSet ∖ {[id]}
                else newSet ∪ {[id]} in
  mkState newSet (columnWidths st) (columnOrder st) (resizing st)
          (draggedColumn st) (activeFilters st) (filterOpen st).

(** The condition of the [if] in [toggleAllSelection]. *)
Definition toggleAllSelection_clears (filteredTasks : list Task) (st : State) : bool :=
  (size (selectedIds st) =? length filteredTasks)
  && (0 <? length filteredTasks).

(** [toggleAllSelection], given the rows currently shown. *)
Definition toggleAllSelection (filteredTasks : list Task) (st : State) : State :=
  let newSet : gset string :=
    if toggleAllSelection_clears filteredTasks st
    then ∅
    else list_to_set (map task_id filteredTasks) in
  mkState newSet (columnWidths st) (columnOrder st) (resizing st)
          (draggedColumn st) (activeFilters st) (filterOpen st).

Definition isAllSelected (filteredTasks : list Task) (st : State) : bool :=
  (0 <? length filteredTasks)%nat
  && (size (selectedIds st) =? length filteredTasks)%nat.

Definition isIndeterminate (filteredTasks : list Task) (st : State) : bool :=
  (0 <? size (selectedIds st))%nat
  && (size (selectedIds st) <? length filteredTasks)%nat.

(** The widths of a fresh layout. *)
Definition defaultColumnWidths : gmap string JS.Value :=
  list_to_map
    [ ("title", JS.Num 250); ("description", JS.Num 350);
      ("status", JS.Num 120); ("priority", JS.Num 120);
      ("assignee", JS.Num 160); ("startDate", JS.Num 120);
      ("dueDate", JS.Num 120); ("closedDate", JS.Num 120) ].

(** The lazy initialiser of the [columnWidths] cell: what
    [localStorage] holds under [taskflow_ui_v1], or the default widths
    when there is nothing, or nothing that parses. *)
Definition initialColumnWidths (localStorage : gmap string string)
    : gmap string JS.Value :=
  match localStorage !! "taskflow_ui_v1" with
  | Some saved =>
      if JS.truthy saved then
        match JS.JSON_parse_object saved with
        | Some parsed => parsed
        | None => defaultColumnWidths
        end
      else defaultColumnWidths
  | None => defaultColumnWidths
  end.

(** The effect that runs when [columnWidths] changes. *)
Definition persistColumnWidths (columnWidths : gmap string JS.Value)
    (localStorage : gmap string string) : gmap string string :=
  <["taskflow_ui_v1" := JS.JSON_stringify_object columnWidths]> localStorage.

Definition defaultColumnOrder : list string :=
  [ "title"; "description"; "status"; "priority"; "assignee"; "startDate";
    "dueDate"; "closedDate" ].

(** The lazy initialiser of the [columnOrder] cell: a saved order that
    lacks [closedDate] gets it appended. *)
Definition initialColumnOrder (localStorage : gmap string string) : list string :=
  match localStorage !! "taskflow_ui_order_v1" with
  | Some saved =>
      if JS.truthy saved then
        match JS.JSON_parse_array saved with
        | Some parsed =>
            if negb (JS.array_includes parsed "closedDate")
            then parsed ++ ["closedDate"]
            else parsed
        | None => defaultColumnOrder
        end
      else defaultColumnOrder
  | None => defaultColumnOrder
  end.

(** The effect that runs when [columnOrder] changes. *)
Definition persistColumnOrder (columnOrder : list string)
    (localStorage : gmap string string) : gmap string string :=
  <["taskflow_ui_order_v1" := JS.JSON_stringify_array columnOrder]> localStorage.

(** The state at mount. *)
Definition initialState (localStorage : gmap string string) : State :=
  mkState ∅ (initialColumnWidths localStorage) (initialColumnOrder localStorage)
          None None ∅ None.

(** Both effects, as they run after a render. *)
Definition persist (st : State) (localStorage : gmap string string)
    : gmap string string :=
  persistColumnOrder (columnOrder st)
    (persistColumnWidths (columnWidths st) localStorage).

(** The [onChange] of the two selects of the bulk action bar: the call
    [onBulkUpdate(Array.from(selectedIds), updates)] it makes, and the
    state with the selection cleared. The ids are listed in the order
    [elements] gives them. *)
Definition bulkUpdate (updates : TaskUpdates) (st : State)
    : (list string * TaskUpdates) * State :=
  ((elements (selectedIds st), updates),
   mkState ∅ (columnWidths st) (columnOrder st) (resizing st)
           (draggedColumn st) (activeFilters st) (filterOpen st)).

(** The events the rendered grid handles. *)
Inductive Event : Type :=
  | ColumnDragStart (k : string)
  | ColumnDrop (targetKey : string)
  | MouseDown (k : string) (clientX : Z)
  | MouseMove (clientX : Z)
  | MouseUp
  | ToggleSelection (id : string)
  | ToggleAllSelection
  | ChangeFilter (k value : string)
  | ClearFilter (k : string).

(** The header cells are rendered from [columnOrder], each with its
    resize handle: a drag starts on, a drop lands on, and a resize
    starts on, a column of the current order. *)
Definition deliverable (ev : Event) (st : State) : Prop :=
  match ev with
  | ColumnDragStart k => k ∈ columnOrder st
  | ColumnDrop targetKey => targetKey ∈ columnOrder st
  | MouseDown k _ => k ∈ columnOrder st
  | _ => True
  end.

Section Events.

Variable toLowerCase : string → string.

(** The handler of an event, over the [tasks] the view was given. *)
Definition handle (tasks : list Task) (ev : Event) (st : State) : State :=
  match ev with
  | ColumnDragStart k => handleColumnDragStart k st
  | ColumnDrop targetKey => handleColumnDrop targetKey st
  | MouseDown k clientX => startResize k clientX st
  | MouseMove clientX => handleMouseMove clientX st
  | MouseUp => handleMouseUp st
  | ToggleSelection id => toggleSelection id st
  | ToggleAllSelection =>
      toggleAllSelection (filteredTasks toLowerCase tasks (activeFilters st)) st
  | ChangeFilter k value => changeFilter k value st
  | ClearFilter k => clearFilter k st
  end.

(** The states the view goes through after mounting over [localStorage]. *)
Inductive reachable (localStorage : gmap string string) (tasks : list Task)
    : State → Prop :=
  | reachable_mount : reachable localStorage tasks (initialState localStorage)
  | reachable_handle (ev : Event) (st : State) :
      reachable localStorage tasks st → deliverable ev st →
      reachable localStorage tasks (handle tasks ev st).

End Events.

End TaskListView.

(* ===================================================================== *)
(** * [IssueLogView] *)
(* ===================================================================== *)

Module IssueLogView.

(** The component's [useState] cells (the issue log has no selection). *)
Record State : Type := mkState {
  columnWidths : gmap string JS.Value;
  columnOrder : list string;
  resizing : option Grid.Resizing;
  draggedColumn : option string;
  activeFilters : gmap string string;
  filterOpen : option string
}.

Definition handleColumnDragStart (k : string) (st : State) : State :=
  mkState (columnWidths st) (columnOrder st) (resizing st)
          (Some k) (activeFilters st) (filterOpen st).

Definition handleColumnDrop (targetKey : string) (st : State) : State :=
  match Grid.handleColumnDrop (draggedColumn st) targetKey (columnOrder st) with
  | None => st
  | Some newOrder =>
      mkState (columnWidths st) newOrder (resizing st)
              None (activeFilters st) (filterOpen st)
  end.

Definition handleMouseMove (clientX : Z) (st : State) : State :=
  mkState (Grid.handleMouseMove (resizing st) clientX (columnWidths st))
          (columnOrder st) (resizing st) (draggedColumn st)
          (activeFilters st) (filterOpen st).

Section Filtering.

Variable toLowerCase : string → string.

Definition filter_entry (issue : Issue) (entry : string * string) : bool :=
  let '(key, value) := entry in
  if negb (JS.truthy value) then true
  else if String.eqb key "status" then String.eqb (issue_status issue) value
  else if String.eqb key "priority" then String.eqb (issue_priority issue) value
  else
    let itemVal := toLowerCase (JS.String_or_empty (issue_field issue key)) in
    JS.includes itemVal (toLowerCase value).


End Filtering.

Definition defaultColumnWidths : gmap string JS.Value :=
  list_to_map
    [ ("title", JS.Num 250); ("description", JS.Num 300);
      ("status", JS.Num 120); ("priority", JS.Num 120);
      ("dateOpened", JS.Num 120); ("dueDate", JS.Num 120);
      ("closedDate", JS.Num 120); ("reportedBy", JS.Num 150);
      ("assignedTo", JS.Num 150) ].

Definition initialColumnWidths (localStorage : gmap string string)
    : gmap string JS.Value :=
  match localStorage !! "taskflow_issue_ui_v1" with
  | Some saved =>
      if JS.truthy saved then
        match JS.JSON_parse_object saved with
        | Some parsed => parsed
        | None => defaultColumnWidths
        end
      else defaultColumnWidths
  | None => defaultColumnWidths
  end.

Definition persistColumnWidths (columnWidths : gmap string JS.Value)
    (localStorage : gmap string string) : gmap string string :=
  <["taskflow_issue_ui_v1" := JS.JSON_stringify_object columnWidths]> localStorage.

Definition defaultColumnOrder : list string :=
  [ "title"; "description"; "status"; "priority"; "dateOpened"; "dueDate";
    "closedDate"; "reportedBy"; "assignedTo" ].

Definition initialColumnOrder (localStorage : gmap string string) : list string :=
  match localStorage !! "taskflow_issue_order_v1" with
  | Some saved =>
      if JS.truthy saved then
        match JS.JSON_parse_array saved with
        | Some parsed => parsed
        | None => defaultColumnOrder
        end
      else defaultColumnOrder
  | None => defaultColumnOrder
  end.

Definition persistColumnOrder (columnOrder : list string)
    (localStorage : gmap string string) : gmap string string :=
  <["taskflow_issue_order_v1" := JS.JSON_stringify_array columnOrder]> localStorage.

Definition initialState (localStorage : gmap string string) : State :=
  mkState (initialColumnWidths localStorage) (initialColumnOrder localStorage)
          None None ∅ None.

Definition persist (st : State) (localStorage : gmap string string)
    : gmap string string :=
  persistColumnOrder (columnOrder st)
    (persistColumnWidths (columnWidths st) localStorage).

End IssueLogView.

(* ===================================================================== *)
(** * [GanttView] *)
(* ===================================================================== *)

Module GanttView.

Inductive ViewMode : Type := Daily | Monthly.

(** [const viewMode = pixelsPerDay >= 18 ? 'Daily' : 'Monthly']. *)
Definition viewMode (pixelsPerDay : Q) : ViewMode :=
  if Qle_bool 18 pixelsPerDay then Daily else Monthly.

(** The zoom toolbar: the two buttons, the range input (whose [min] and
    [max] attributes are 2 and 100) and the two presets. *)
Inductive ZoomEvent : Type :=
  | ZoomOut
  | ZoomIn
  | Slider (value : Z)
  | PresetDaily
  | PresetMonthly.

Definition initialPixelsPerDay : Q := 40.

Definition setPixelsPerDay (ev : ZoomEvent) (prev : Q) : Q :=
  match ev with
  | ZoomOut => Qmax (prev * (8 # 10)) 2
  | ZoomIn => Qmin (prev * (125 # 100)) 100
  | Slider value => inject_Z value
  | PresetDaily => 40
  | PresetMonthly => 5
  end.

(** A zoom event the toolbar can deliver: the range input only reports
    values between its [min] and its [max]. *)
Definition deliverable (ev : ZoomEvent) : Prop :=
  match ev with
  | Slider value => (2 ≤ value ≤ 100)%Z
  | _ => True
  end.

(** The zoom factors the view can reach from its initial state. *)
Inductive reachable : Q → Prop :=
  | reachable_initial : reachable initialPixelsPerDay
  | reachable_step (ev : ZoomEvent) (prev : Q) :
      reachable prev → deliverable ev → reachable (setPixelsPerDay ev prev).

Definition ROW_HEIGHT : Z := 48.

(** [1000 * 60 * 60 * 24]. *)
Definition msPerDay : Z := 1000 * 60 * 60 * 24.

(** A JavaScript number of the geometry: a rational, or [NaN]. *)
Definition number : Type := option Q.

Definition num_of_time (t : option Z) : number := inject_Z <$> t.

Definition num_sub (a b : number) : number :=
  a ≫= λ qa, b ≫= λ qb, Some (qa - qb)%Q.

Definition num_add (a b : number) : number :=
  a ≫= λ qa, b ≫= λ qb, Some (qa + qb)%Q.

Definition num_mul (a b : number) : number :=
  a ≫= λ qa, b ≫= λ qb, Some (qa * qb)%Q.

(** Division by a non-zero constant. *)
Definition num_div (a : number) (d : Z) : number :=
  a ≫= λ qa, Some (qa / inject_Z d)%Q.

(** [a > 0]; a comparison with [NaN] is false. *)
Definition num_positive (a : number) : bool :=
  match a with
  | Some q => negb (Qle_bool q 0)
  | None => false
  end.

(** The entries of the [taskPositions] map. *)
Record Position : Type := mkPosition {
  x : number;
  width : number;
  y : Z
}.

(** What a row of the chart shows for its task. [Diamond] is the
    milestone marker: a square of the classes [w-7 h-7] (1.75rem, 28
    pixels), turned by 45 degrees about its centre. [Bar] carries the
    colour class of the task's status. *)
Inductive Element : Type :=
  | Diamond (left : number) (size : Q)
  | Bar (left : number) (barWidth : number) (colorClass : string)
  | NoElement.

(** What the callback of [sortedTasks.map] does for one task: it
    throws a [TypeError], returns [null], or returns a row. *)
Inductive Rendered : Type :=
  | Throws
  | Skipped
  | Row (e : Element).

(** [STATUS_COLORS[task.status].split(' ')[0]]; [None]: the call of
    [split] throws, the status not being a key of [STATUS_COLORS]. *)
Definition colorClass (status : string) : option string :=
  JS.split_space_0 <$> STATUS_COLORS !! status.

(** The side of the [w-7 h-7] square. *)
Definition MILESTONE_SIZE : Q := 28.

Section WithDate.

(** [new Date(s).getTime()]: milliseconds since the epoch, [None] for an
    [Invalid Date]. Which strings a [Date] accepts is the platform's
    matter; the view is embedded over any such function. *)
Variable Date_getTime : string → option Z.

(** The comparator of [sortedTasks]; a [NaN] result counts as [0]. *)
Definition compareStart (a b : Task) : Z :=
  match Date_getTime (task_startDate a), Date_getTime (task_startDate b) with
  | Some ta, Some tb => (ta - tb)%Z
  | _, _ => 0%Z
  end.

(** [[...tasks].sort(...)]: the stable sort by the comparator, written
    as an insertion sort. *)
Fixpoint insertSorted (t : Task) (sorted : list Task) : list Task :=
  match sorted with
  | [] => [t]
  | u :: rest =>
      if (compareStart t u <=? 0)%Z then t :: u :: rest
      else u :: insertSorted t rest
  end.

Definition sortedTasks (tasks : list Task) : list Task :=
  foldr insertSorted [] tasks.

(** The body of the [forEach] callback in [taskPositions]. [startDate]
    is the start of the visible range the view computed, in
    milliseconds. *)
Definition position (startDate : option Z) (PIXELS_PER_DAY : Q)
    (task : Task) (index : nat) : Position :=
  let tStart := num_of_time (Date_getTime (task_startDate task)) in
  let tEnd := num_of_time (Date_getTime (task_dueDate task)) in
  let startOffset := num_div (num_sub tStart (num_of_time startDate)) msPerDay in
  let duration := num_add (num_div (num_sub tEnd tStart) msPerDay) (Some 1%Q) in
  let left := num_mul startOffset (Some PIXELS_PER_DAY) in
  let width := num_mul duration (Some PIXELS_PER_DAY) in
  let y := (Z.of_nat index * ROW_HEIGHT + 24)%Z in
  mkPosition left width y.

(** [sortedTasks.forEach((task, index) => positions.set(task.id, ...))],
    from index [index] on. *)
Fixpoint setPositions (startDate : option Z) (PIXELS_PER_DAY : Q)
    (sorted : list Task) (index : nat) (positions : gmap string Position)
    : gmap string Position :=
  match sorted with
  | [] => positions
  | task :: rest =>
      setPositions startDate PIXELS_PER_DAY rest (S index)
        (<[task_id task := position startDate PIXELS_PER_DAY task index]> positions)
  end.

Definition taskPositions (tasks : list Task) (startDate : option Z)
    (PIXELS_PER_DAY : Q) : gmap string Position :=
  setPositions startDate PIXELS_PER_DAY (sortedTasks tasks) 0 ∅.

(** The callback of [sortedTasks.map]: the row is skipped when the
    task has no position ([if (!pos) return null]); then the colour
    class is read, which throws for a status [STATUS_COLORS] does not
    have; then the diamond or the bar is drawn. *)
Definition renderTask (positions : gmap string Position) (task : Task)
    : Rendered :=
  match positions !! task_id task with
  | None => Skipped
  | Some pos =>
      match colorClass (task_status task) with
      | None => Throws
      | Some color =>
          Row match task_type task with
              | TypeMilestone =>
                  Diamond (num_sub (x pos) (Some 14%Q)) MILESTONE_SIZE
              | TypeTask =>
                  if num_positive (width pos)
                  then Bar (x pos) (width pos) color
                  else NoElement
              end
      end
  end.

(** The rows collected by [map]: [None] when a callback throws, and
    with it the render of the chart; a skipped row is the [None] of the
    list. *)
Fixpoint collectRows (positions : gmap string Position) (sorted : list Task)
    : option (list (option Element)) :=
  match sorted with
  | [] => Some []
  | task :: rest =>
      match renderTask positions task with
      | Throws => None
      | Skipped => cons None <$> collectRows positions rest
      | Row e => cons (Some e) <$> collectRows positions rest
      end
  end.

Definition renderRows (tasks : list Task) (startDate : option Z)
    (PIXELS_PER_DAY : Q) : option (list (option Element)) :=
  collectRows (taskPositions tasks startDate PIXELS_PER_DAY) (sortedTasks tasks).

End WithDate.

End GanttView.

(* ===================================================================== *)
(** * [App] *)
(* ===================================================================== *)

Module App.

(** The [useState] cells of [App] that its project, task and issue
    handlers read or set. *)
Record State : Type := mkState {
  workspaceMembers : list User;
  currentUserId : string;
  projects : list Project;
  activeProjectId : string;
  isProjectModalOpen : bool;
  projectToEdit : option Project;
  isTaskModalOpen : bool;
  editingTask : option Task;
  isIssueModalOpen : bool;
  editingIssue : option Issue
}.

Definition setProjects (ps : list Project) (st : State) : State :=
  mkState (workspaceMembers st) (currentUserId st) ps (activeProjectId st)
          (isProjectModalOpen st) (projectToEdit st) (isTaskModalOpen st)
          (editingTask st) (isIssueModalOpen st) (editingIssue st).

Definition setActiveProjectId (id : string) (st : State) : State :=
  mkState (workspaceMembers st) (currentUserId st) (projects st) id
          (isProjectModalOpen st) (projectToEdit st) (isTaskModalOpen st)
          (editingTask st) (isIssueModalOpen st) (editingIssue st).

Definition setCurrentUserId (id : string) (st : State) : State :=
  mkState (workspaceMembers st) id (projects st) (activeProjectId st)
          (isProjectModalOpen st) (projectToEdit st) (isTaskModalOpen st)
          (editingTask st) (isIssueModalOpen st) (editingIssue st).

Definition closeProjectModal (st : State) : State :=
  mkState (workspaceMembers st) (currentUserId st) (projects st)
          (activeProjectId st) false None (isTaskModalOpen st)
          (editingTask st) (isIssueModalOpen st) (editingIssue st).

Definition closeTaskModal (st : State) : State :=
  mkState (workspaceMembers st) (currentUserId st) (projects st)
          (activeProjectId st) (isProjectModalOpen st) (projectToEdit st)
          false None (isIssueModalOpen st) (editingIssue st).

Definition closeIssueModal (st : State) : State :=
  mkState (workspaceMembers st) (currentUserId st) (projects st)
          (activeProjectId st) (isProjectModalOpen st) (projectToEdit st)
          (isTaskModalOpen st) (editingTask st) false None.

(** [workspace.members.find(m => m.id === currentUserId) ||
    workspace.members[0]]; [None] is [undefined]. *)
Definition currentUser (st : State) : option User :=
  match List.find (λ m, String.eqb (user_id m) (currentUserId st))
                  (workspaceMembers st) with
  | Some m => Some m
  | None => head (workspaceMembers st)
  end.

Definition isPrivileged (u : User) : bool :=
  String.eqb (user_role u) "Admin" || String.eqb (user_role u) "Owner".

(** [visibleProjects]. *)
Definition visibleProjects (st : State) : list Project :=
  match currentUser st with
  | None => projects st
  | Some u =>
      if isPrivileged u then projects st
      else List.filter (λ p, JS.array_includes (project_members p) (user_id u))
                       (projects st)
  end.

(** [activeProject]: the project the page shows; [None] is [null]. *)
Definition activeProject (st : State) : option Project :=
  match List.find (λ p, String.eqb (project_id p) (activeProjectId st))
                  (visibleProjects st) with
  | Some p => Some p
  | None => head (visibleProjects st)
  end.

(** The lazy initialiser of [activeProjectId], given what
    [localStorage] holds under [taskflow_active_project_v1]. *)
Definition initialActiveProjectId (savedId : option string)
    (ps : list Project) : string :=
  let projectExists :=
    match savedId with
    | Some id => List.find (λ p, String.eqb (project_id p) id) ps
    | None => None
    end in
  match projectExists, savedId with
  | Some _, Some id => id
  | _, _ =>
      match ps with
      | p :: _ => if JS.truthy (project_id p) then project_id p else ""
      | [] => ""
      end
  end.

(** [generateId()] is a random draw; the handlers that call it take the
    value drawn as [newId]. *)
Definition handleCreateProject (newId name : string) (members : list string)
    (st : State) : State :=
  let newProject := mkProject newId name [] [] members in
  let st := setProjects (projects st ++ [newProject]) st in
  let st := setActiveProjectId (project_id newProject) st in
  mkState (workspaceMembers st) (currentUserId st) (projects st)
          (activeProjectId st) false (projectToEdit st) (isTaskModalOpen st)
          (editingTask st) (isIssueModalOpen st) (editingIssue st).

Definition handleUpdateProject (id name : string) (members : list string)
    (st : State) : State :=
  let updated :=
    map (λ p, if String.eqb (project_id p) id
              then mkProject (project_id p) name (project_tasks p)
                             (project_issues p) members
              else p)
        (projects st) in
  closeProjectModal (setProjects updated st).

(** [handleDeleteProject]. With at most one project the handler alerts
    and returns. [None]: no project is left after the filter, and reading
    [remaining[0].id] throws. *)
Definition handleDeleteProject (id : string) (st : State) : option State :=
  if length (projects st) <=? 1 then Some st
  else
    let remaining :=
      List.filter (λ p, negb (String.eqb (project_id p) id)) (projects st) in
    match remaining with
    | [] => None
    | first :: _ =>
        Some (closeProjectModal
                (setActiveProjectId (project_id first) (setProjects remaining st)))
    end.

(** [projects.map(p => p.id === activeProjectId ? change(p) : p)], the
    shape of every task and issue handler. *)
Definition inActiveProject (change : Project → Project) (st : State)
    : list Project :=
  map (λ p, if String.eqb (project_id p) (activeProjectId st) then change p else p)
      (projects st).

Definition withTasks (tasks : list Task) (p : Project) : Project :=
  mkProject (project_id p) (project_name p) tasks (project_issues p)
            (project_members p).

Definition withIssues (issues : list Issue) (p : Project) : Project :=
  mkProject (project_id p) (project_name p) (project_tasks p) issues
            (project_members p).

Definition withId (id : string) (t : Task) : Task :=
  mkTask id (task_title t) (task_description t) (task_status t)
         (task_priority t) (task_startDate t) (task_dueDate t)
         (task_closedDate t) (task_assignee t) (task_type t).

Definition withStatus (status : string) (t : Task) : Task :=
  mkTask (task_id t) (task_title t) (task_description t) status
         (task_priority t) (task_startDate t) (task_dueDate t)
         (task_closedDate t) (task_assignee t) (task_type t).

(** [editingTask && editingTask.id !== 'new'], and the same for issues. *)
Definition isEditing (editingId : option string) : bool :=
  match editingId with
  | Some id => negb (String.eqb id "new")
  | None => false
  end.

Definition handleSaveTask (newId : string) (task : Task) (st : State) : State :=
  let updatedProjects :=
    if isEditing (task_id <$> editingTask st) then
      inActiveProject
        (λ p, withTasks
                (map (λ t, if String.eqb (task_id t) (task_id task) then task else t)
                     (project_tasks p)) p)
        st
    else
      let newTask := withId newId task in
      inActiveProject (λ p, withTasks (project_tasks p ++ [newTask]) p) st in
  closeTaskModal (setProjects updatedProjects st).

Definition handleTaskStatusChange (taskId newStatus : string) (st : State)
    : State :=
  let updatedProjects :=
    inActiveProject
      (λ p, withTasks
              (map (λ t, if String.eqb (task_id t) taskId
                         then withStatus newStatus t else t)
                   (project_tasks p)) p)
      st in
  setProjects updatedProjects st.

Definition handleBulkUpdateTasks (taskIds : list string) (updates : TaskUpdates)
    (st : State) : State :=
  setProjects
    (inActiveProject
       (λ p, withTasks
               (map (λ t, if JS.array_includes taskIds (task_id t)
                          then applyUpdates t updates else t)
                    (project_tasks p)) p)
       st)
    st.

Definition withClosedDate (closedDate : option string) (i : Issue) : Issue :=
  mkIssue (issue_id i) (issue_title i) (issue_description i) (issue_status i)
          (issue_priority i) (issue_dueDate i) closedDate (issue_dateOpened i)
          (issue_reportedBy i) (issue_assignedTo i).

Definition withIssueId (id : string) (i : Issue) : Issue :=
  mkIssue id (issue_title i) (issue_description i) (issue_status i)
          (issue_priority i) (issue_dueDate i) (issue_closedDate i)
          (issue_dateOpened i) (issue_reportedBy i) (issue_assignedTo i).

(** The first lines of [handleSaveIssue]: the closed date the saved
    issue gets. [today] is [new Date().toISOString().split('T')[0]]. *)
Definition processIssue (today : string) (issue : Issue) : Issue :=
  if (String.eqb (issue_status issue) "Resolved"
      || String.eqb (issue_status issue) "Closed")
     && negb (JS.truthy (JS.String_or_empty (issue_closedDate issue)))
  then withClosedDate (Some today) issue
  else if String.eqb (issue_status issue) "Open"
          || String.eqb (issue_status issue) "In Progress"
  then withClosedDate None issue
  else issue.

Definition handleSaveIssue (newId today : string) (issue : Issue) (st : State)
    : State :=
  let processedIssue := processIssue today issue in
  let updatedProjects :=
    if isEditing (issue_id <$> editingIssue st) then
      inActiveProject
        (λ p, withIssues
                (map (λ i, if String.eqb (issue_id i) (issue_id issue)
                           then processedIssue else i)
                     (project_issues p)) p)
        st
    else
      let newIssue := withIssueId newId processedIssue in
      inActiveProject (λ p, withIssues (project_issues p ++ [newIssue]) p) st in
  closeIssueModal (setProjects updatedProjects st).

(** The [onClick] of the new-project button. The sidebar renders the
    button for an Admin or Owner only; [None]: there is no button (with
    no workspace member at all, reading [currentUser.role] throws). *)
Definition newProjectClick (st : State) : option State :=
  match currentUser st with
  | Some u =>
      if isPrivileged u then
        Some (mkState (workspaceMembers st) (currentUserId st) (projects st)
                (activeProjectId st) true None (isTaskModalOpen st)
                (editingTask st) (isIssueModalOpen st) (editingIssue st))
      else None
  | None => None
  end.

(** [onEditTask], as [App] passes it to the three views:
    [setEditingTask(t); setIsTaskModalOpen(true)]. *)
Definition onEditTask (t : Task) (st : State) : State :=
  mkState (workspaceMembers st) (currentUserId st) (projects st)
          (activeProjectId st) (isProjectModalOpen st) (projectToEdit st)
          true (Some t) (isIssueModalOpen st) (editingIssue st).

(** [onSubmit] as [App] passes it to [ProjectForm]. *)
Definition onSubmitProject (newId name : string) (members : list string)
    (st : State) : State :=
  match projectToEdit st with
  | Some p => handleUpdateProject (project_id p) name members st
  | None => handleCreateProject newId name members st
  end.

(** What the user does to the projects through the sidebar, the forms
    and the views. *)
Inductive Event : Type :=
  | SelectProject (p : Project)
  | SwitchUser (id : string)
  | CreateProject (newId name : string) (members : list string)
  | UpdateProject (id name : string) (members : list string)
  | DeleteProject (id : string)
  | EditTask (t : Task)
  | SaveTask (newId : string) (task : Task)
  | TaskStatusChange (taskId newStatus : string)
  | BulkUpdateTasks (taskIds : list string) (updates : TaskUpdates)
  | SaveIssue (newId today : string) (issue : Issue).

(** The handler of an event; [None] when the handler throws. *)
Definition handle (ev : Event) (st : State) : option State :=
  match ev with
  | SelectProject p => Some (setActiveProjectId (project_id p) st)
  | SwitchUser id => Some (setCurrentUserId id st)
  | CreateProject newId name members =>
      Some (handleCreateProject newId name members st)
  | UpdateProject id name members =>
      Some (handleUpdateProject id name members st)
  | DeleteProject id => handleDeleteProject id st
  | EditTask t => Some (onEditTask t st)
  | SaveTask newId task => Some (handleSaveTask newId task st)
  | TaskStatusChange taskId newStatus =>
      Some (handleTaskStatusChange taskId newStatus st)
  | BulkUpdateTasks taskIds updates =>
      Some (handleBulkUpdateTasks taskIds updates st)
  | SaveIssue newId today issue => Some (handleSaveIssue newId today issue st)
  end.

(** The sidebar lists the visible projects and the user select lists
    the workspace members; a generated project id is one no project
    carries. *)
Definition deliverable (ev : Event) (st : State) : Prop :=
  match ev with
  | SelectProject p => p ∈ visibleProjects st
  | SwitchUser id => id ∈ map user_id (workspaceMembers st)
  | CreateProject newId _ _ => newId ∉ map project_id (projects st)
  | _ => True
  end.

(** The states the application goes through from [init] by these
    events. *)
Inductive reachable (init : State) : State → Prop :=
  | reachable_init : reachable init init
  | reachable_handle (ev : Event) (st st' : State) :
      reachable init st → deliverable ev st → handle ev st = Some st' →
      reachable init st'.

End App.

(* ===================================================================== *)
(** * [KanbanView] *)
(* ===================================================================== *)

Module KanbanView.

(** [tasks.filter(t => t.status === status)], the cards of one column. *)
Definition columnTasks (tasks : list Task) (status : string) : list Task :=
  List.filter (λ t, String.eqb (task_status t) status) tasks.

(** The columns of the board, one per entry of [TASK_STATUSES]. *)
Definition board (tasks : list Task) : list (string * list Task) :=
  map (λ status, (status, columnTasks tasks status)) TASK_STATUSES.

(** [handleDragStart]: the new content of [draggedItemRef]. *)
Definition handleDragStart (taskId : string) : option string := Some taskId.

(** [handleDrop]: the call of [onUpdateStatus] it makes, if any, and
    the new content of [draggedItemRef]. *)
Definition handleDrop (draggedItemRef : option string) (status : string)
    : option (string * string) * option string :=
  match draggedItemRef with
  | Some taskId =>
      if JS.truthy taskId then (Some (taskId, status), None) else (None, None)
  | None => (None, None)
  end.

(** A drop on a column, with [App.handleTaskStatusChange] as
    [onUpdateStatus]. *)
Definition drop (draggedItemRef : option string) (status : string)
    (st : App.State) : App.State * option string :=
  match handleDrop draggedItemRef status with
  | (Some (taskId, newStatus), ref) =>
      (App.handleTaskStatusChange taskId newStatus st, ref)
  | (None, ref) => (st, ref)
  end.

End KanbanView.

(* ===================================================================== *)
(** * [ProjectForm] *)
(* ===================================================================== *)

Module ProjectForm.

(** The component's [useState] cells. *)
Record State : Type := mkState {
  name : string;
  selectedMembers : gset string
}.

(** The two initialisers: the edited project's name and members, or an
    empty name and every workspace member. *)
Definition initialState (initialData : option Project)
    (workspaceMembers : list User) : State :=
  match initialData with
  | Some p =>
      mkState (if JS.truthy (project_name p) then project_name p else "")
              (list_to_set (project_members p))
  | None => mkState "" (list_to_set (map user_id workspaceMembers))
  end.

Definition setName (value : string) (st : State) : State :=
  mkState value (selectedMembers st).

Definition toggleMember (id : string) (st : State) : State :=
  let newSet := selectedMembers st in
  let newSet := if bool_decide (id ∈ newSet) then newSet ∖ {[id]}
                else newSet ∪ {[id]} in
  mkState (name st) newSet.

Definition toggleAll (workspaceMembers : list User) (st : State) : State :=
  if size (selectedMembers st) =? length workspaceMembers
  then mkState (name st) ∅
  else mkState (name st) (list_to_set (map user_id workspaceMembers)).

(** The submit button: the call [onSubmit(name, Array.from(selectedMembers))]
    it makes, if any. [trim] is [String.prototype.trim]; the ids are
    listed in the order [elements] gives them. *)
Definition submit (trim : string → string) (st : State)
    : option (string * list string) :=
  if JS.truthy (trim (name st))
  then Some (name st, elements (selectedMembers st))
  else None.

Inductive Event : Type :=
  | SetName (value : string)
  | ToggleMember (id : string)
  | ToggleAll.

Definition handle (workspaceMembers : list User) (ev : Event) (st : State)
    : State :=
  match ev with
  | SetName value => setName value st
  | ToggleMember id => toggleMember id st
  | ToggleAll => toggleAll workspaceMembers st
  end.

(** The form shows one row to click per workspace member. *)
Definition deliverable (workspaceMembers : list User) (ev : Event) : Prop :=
  match ev with
  | ToggleMember id => id ∈ map user_id workspaceMembers
  | _ => True
  end.

Inductive reachable (initialData : option Project) (workspaceMembers : list User)
    : State → Prop :=
  | reachable_mount :
      reachable initialData workspaceMembers
        (initialState initialData workspaceMembers)
  | reachable_handle (ev : Event) (st : State) :
      reachable initialData workspaceMembers st →
      deliverable workspaceMembers ev →
      reachable initialData workspaceMembers (handle workspaceMembers ev st).

End ProjectForm.

(* ===================================================================== *)
(** * [WorkspaceForm] *)
(* ===================================================================== *)

Module WorkspaceForm.

Record FormData : Type := mkFormData {
  name : string;
  icon : string;
  members : list User
}.

Record NewMember : Type := mkNewMember {
  newName : string;
  newRole : string
}.

(** The component's [useState] cells. *)
Record State : Type := mkState {
  formData : FormData;
  newMember : NewMember
}.

Definition initialState (initialData : FormData) : State :=
  mkState initialData (mkNewMember "" "Member").

Definition setMembers (ms : list User) (st : State) : State :=
  mkState (mkFormData (name (formData st)) (icon (formData st)) ms)
          (newMember st).

Definition withRole (role : string) (m : User) : User :=
  mkUser (user_id m) (user_name m) role (user_avatarColor m) (user_email m).

(** [handleAddMember]. [trim] is [String.prototype.trim]; [newId] and
    [avatarColor] are the two random draws. *)
Definition handleAddMember (trim : string → string) (newId avatarColor : string)
    (st : State) : State :=
  if JS.truthy (trim (newName (newMember st))) then
    let member :=
      mkUser newId (trim (newName (newMember st))) (newRole (newMember st))
             avatarColor None in
    mkState (mkFormData (name (formData st)) (icon (formData st))
               (members (formData st) ++ [member]))
            (mkNewMember "" "Member")
  else st.

Definition handleRemoveMember (id : string) (st : State) : State :=
  setMembers
    (List.filter (λ m, negb (String.eqb (user_id m) id)) (members (formData st)))
    st.

Definition handleRoleChange (id newRole : string) (st : State) : State :=
  setMembers
    (map (λ m, if String.eqb (user_id m) id then withRole newRole m else m)
         (members (formData st)))
    st.

Inductive Event : Type :=
  | SetName (value : string)
  | SetIcon (value : string)
  | SetNewMemberName (value : string)
  | SetNewMemberRole (role : string)
  | AddMember (newId avatarColor : string)
  | RemoveMember (id : string)
  | RoleChange (id newRole : string).

Definition handle (trim : string → string) (ev : Event) (st : State) : State :=
  match ev with
  | SetName value =>
      mkState (mkFormData value (icon (formData st)) (members (formData st)))
              (newMember st)
  | SetIcon value =>
      mkState (mkFormData (name (formData st)) value (members (formData st)))
              (newMember st)
  | SetNewMemberName value =>
      mkState (formData st) (mkNewMember value (newRole (newMember st)))
  | SetNewMemberRole role =>
      mkState (formData st) (mkNewMember (newName (newMember st)) role)
  | AddMember newId avatarColor => handleAddMember trim newId avatarColor st
  | RemoveMember id => handleRemoveMember id st
  | RoleChange id newRole => handleRoleChange id newRole st
  end.

(** The three options of both role selects. *)
Definition ROLE_OPTIONS : list string := [ "Admin"; "Member"; "Viewer" ].

(** What the rendered form can deliver: the role selects offer
    [ROLE_OPTIONS]; the role select and the remove button of a row are
    rendered when the row's member is not the Owner; a generated id is
    one no member carries. *)
Definition deliverable (ev : Event) (st : State) : Prop :=
  match ev with
  | SetNewMemberRole role => role ∈ ROLE_OPTIONS
  | AddMember newId _ => newId ∉ map user_id (members (formData st))
  | RemoveMember id =>
      ∃ m : User, m ∈ members (formData st) ∧ user_id m = id
                  ∧ user_role m ≠ "Owner"
  | RoleChange id newRole =>
      newRole ∈ ROLE_OPTIONS
      ∧ ∃ m : User, m ∈ members (formData st) ∧ user_id m = id
                    ∧ user_role m ≠ "Owner"
  | _ => True
  end.

Inductive reachable (trim : string → string) (initialData : FormData)
    : State → Prop :=
  | reachable_mount : reachable trim initialData (initialState initialData)
  | reachable_handle (ev : Event) (st : State) :
      reachable trim initialData st → deliverable ev st →
      reachable trim initialData (handle trim ev st).

End WorkspaceForm.

(* ===================================================================== *)
(** * [TaskForm] *)
(* ===================================================================== *)

Module TaskForm.

(** [handleChange(field, value)], per field the form has an input for. *)
Definition withTitle (v : string) (t : Task) : Task :=
  mkTask (task_id t) v (task_description t) (task_status t) (task_priority t)
         (task_startDate t) (task_dueDate t) (task_closedDate t)
         (task_assignee t) (task_type t).

Definition withDescription (v : string) (t : Task) : Task :=
  mkTask (task_id t) (task_title t) v (task_status t) (task_priority t)
         (task_startDate t) (task_dueDate t) (task_closedDate t)
         (task_assignee t) (task_type t).

Definition withPriority (v : string) (t : Task) : Task :=
  mkTask (task_id t) (task_title t) (task_description t) (task_status t) v
         (task_startDate t) (task_dueDate t) (task_closedDate t)
         (task_assignee t) (task_type t).

Definition withAssignee (v : string) (t : Task) : Task :=
  mkTask (task_id t) (task_title t) (task_description t) (task_status t)
         (task_priority t) (task_startDate t) (task_dueDate t)
         (task_closedDate t) v (task_type t).

Definition withStartDate (v : string) (t : Task) : Task :=
  mkTask (task_id t) (task_title t) (task_description t) (task_status t)
         (task_priority t) v (task_dueDate t) (task_closedDate t)
         (task_assignee t) (task_type t).

Definition withClosedDate (v : string) (t : Task) : Task :=
  mkTask (task_id t) (task_title t) (task_description t) (task_status t)
         (task_priority t) (task_startDate t) (task_dueDate t) (Some v)
         (task_assignee t) (task_type t).

(** The [onChange] of the type select: switching to a milestone copies
    the due date into the start date. *)
Definition changeType (newType : TaskType) (formData : Task) : Task :=
  mkTask (task_id formData) (task_title formData) (task_description formData)
         (task_status formData) (task_priority formData)
         (match newType with
          | TypeMilestone => task_dueDate formData
          | TypeTask => task_startDate formData
          end)
         (task_dueDate formData) (task_closedDate formData)
         (task_assignee formData) newType.

(** The [onChange] of the due date input. *)
Definition changeDueDate (val : string) (prev : Task) : Task :=
  mkTask (task_id prev) (task_title prev) (task_description prev)
         (task_status prev) (task_priority prev)
         (match task_type prev with
          | TypeMilestone => val
          | TypeTask => task_startDate prev
          end)
         val (task_closedDate prev) (task_assignee prev) (task_type prev).

Inductive Event : Type :=
  | ChangeTitle (v : string)
  | ChangeType (newType : TaskType)
  | ChangeDescription (v : string)
  | ChangeStatus (v : string)
  | ChangePriority (v : string)
  | ChangeAssignee (v : string)
  | ChangeDueDate (v : string)
  | ChangeStartDate (v : string)
  | ChangeClosedDate (v : string).

Definition handle (ev : Event) (formData : Task) : Task :=
  match ev with
  | ChangeTitle v => withTitle v formData
  | ChangeType newType => changeType newType formData
  | ChangeDescription v => withDescription v formData
  | ChangeStatus v => App.withStatus v formData
  | ChangePriority v => withPriority v formData
  | ChangeAssignee v => withAssignee v formData
  | ChangeDueDate v => changeDueDate v formData
  | ChangeStartDate v => withStartDate v formData
  | ChangeClosedDate v => withClosedDate v formData
  end.

(** The start date input is rendered for a task only, the closed date
    input for a task that is Done. *)
Definition deliverable (ev : Event) (formData : Task) : Prop :=
  match ev with
  | ChangeStartDate _ => task_type formData = TypeTask
  | ChangeClosedDate _ =>
      task_type formData = TypeTask ∧ task_status formData = "Done"
  | _ => True
  end.

(** The form data the form can hold after mounting over [initialData]. *)
Inductive reachable (initialData : Task) : Task → Prop :=
  | reachable_mount : reachable initialData initialData
  | reachable_handle (ev : Event) (formData : Task) :
      reachable initialData formData → deliverable ev formData →
      reachable initialData (handle ev formData).

End TaskForm.

(* ===================================================================== *)
(** * Vocabulary of the specification *)
(* ===================================================================== *)

(** The array after the two [splice] calls, when both keys are in the
    order: the element at the dragged index is deleted and the dragged
    key is put at the index the target had before the deletion. *)
Definition moved (order : list string) (i j : nat) (dragged : string) : list string :=
  take j (delete i order) ++ dragged :: drop j (delete i order).

(** [dragged] stands immediately before [target] in [l]. *)
Definition immediately_before (dragged target : string) (l : list string) : Prop :=
  ∃ l1 l2 : list string, l = l1 ++ dragged :: target :: l2.







(** The distance from one instant to another, in days of 86,400,000
    milliseconds. *)
Definition days_between (from to : Z) : Q :=
  ((inject_Z to - inject_Z from) / 86400000)%Q.

(** What a cell of a widths object holds after it was saved and loaded:
    [JSON] has no [NaN], which comes back as [null]. *)
Definition reloaded (v : JS.Value) : JS.Value :=
  match v with
  | JS.NaN => JS.Null
  | _ => v
  end.

(** A cell holds a width of at least 80 pixels. *)
Definition at_least_80 (v : JS.Value) : Prop :=
  match v with
  | JS.Num z => (80 ≤ z)%Z
  | _ => False
  end.

(** A grid state for the examples: default task-list layout, nothing
    selected, no drag in progress. *)
Definition sample_widths : gmap string JS.Value :=
  <["title" := JS.Num 250]>
    (<["status" := JS.Num 120]> (<["priority" := JS.Num 120]> ∅)).

Definition sample_state (order : list string) (dragged : option string)
    (sel : gset string) : TaskListView.State :=
  TaskListView.mkState sel sample_widths order None dragged ∅ None.

Definition sample_task (id title status priority startDate dueDate : string)
    (ty : TaskType) : Task :=
  mkTask id title "" status priority startDate dueDate None "" ty.

Definition three_tasks : list Task :=
  [ sample_task "t1" "Design Mockups" "Done" "High" "2024-01-01" "2024-01-04" TypeTask;
    sample_task "t2" "Develop API" "Doing" "Critical" "2024-01-05" "2024-01-09" TypeTask;
    sample_task "t3" "Launch" "To Do" "High" "2024-01-10" "2024-01-10" TypeMilestone ].

(** [three_tasks] and a task with the dates of its milestone. *)
Definition gantt_tasks : list Task :=
  three_tasks
  ++ [ sample_task "t4" "Release notes" "To Do" "Low" "2024-01-10" "2024-01-10" TypeTask ].

(** A handler's result has the projects of the state it started from,
    under the same ids and in the same order, and every project whose id
    is not [activeProjectId] is as it was. *)
Definition touches_only_active (st st' : App.State) : Prop :=
  map project_id (App.projects st') = map project_id (App.projects st)
  ∧ ∀ (i : nat) (p : Project),
      App.projects st !! i = Some p → project_id p ≠ App.activeProjectId st →
      App.projects st' !! i = Some p.

(** A workspace for the examples: an owner, an admin and a member; the
    member is assigned to the first project only. *)
Definition sample_users : list User :=
  [ mkUser "u1" "John Doe" "Owner" "bg-blue-500" None;
    mkUser "u2" "Alice Smith" "Admin" "bg-purple-500" None;
    mkUser "u3" "Bob Johnson" "Member" "bg-emerald-500" None ].

Definition sample_projects : list Project :=
  [ mkProject "p1" "Website Redesign" three_tasks [] ["u1"; "u2"; "u3"];
    mkProject "p2" "Mobile App Launch" [] [] ["u1"; "u2"] ].

Definition sample_app (currentUserId activeProjectId : string)
    (editingTask : option Task) : App.State :=
  App.mkState sample_users currentUserId sample_projects activeProjectId
              false None false editingTask false None.

Definition new_task : Task :=
  sample_task "new" "Write tests" "To Do" "Medium" "2024-02-01" "2024-02-03" TypeTask.

(** The second of [three_tasks], as the form holds it while it is
    edited. *)
Definition edited_task : Task :=
  sample_task "t2" "Develop API" "Doing" "Critical" "2024-01-05" "2024-01-09" TypeTask.

(** The rule [handleSaveIssue] states in its comment: an issue that is
    Open or In Progress carries no closed date, one that is Resolved or
    Closed carries a closed date that is not empty. *)
Definition closedDate_consistent (i : Issue) : Prop :=
  (issue_status i = "Open" ∨ issue_status i = "In Progress" →
   issue_closedDate i = None)
  ∧ (issue_status i = "Resolved" ∨ issue_status i = "Closed" →
     JS.truthy (JS.String_or_empty (issue_closedDate i)) = true).

Definition sample_issue (id status : string) (closedDate : option string) : Issue :=
  mkIssue id "Crash on save" "" status "High" "2024-03-02" closedDate
          "2024-03-01" "Bob Johnson" "".

(** A task list whose title filter shows the second of [three_tasks]
    only, with the first and the third selected. *)
Definition filtered_view : TaskListView.State :=
  TaskListView.changeFilter "title" "api"
    (sample_state TaskListView.defaultColumnOrder None {[ "t1"; "t3" ]}).

(** The shape of the project list the handlers rely on: there is a
    project, no two projects share an id, and [activeProjectId] is the
    id of a project. *)
Definition well_formed (st : App.State) : Prop :=
  App.projects st ≠ []
  ∧ NoDup (map project_id (App.projects st))
  ∧ App.activeProjectId st ∈ map project_id (App.projects st).

(** [String.prototype.trim] for the examples, over names that carry no
    white space at either end. *)
Definition trim_trimmed (s : string) : string := s.

Definition is_owner (m : User) : bool := String.eqb (user_role m) "Owner".

(** A milestone's start date is its due date. *)
Definition milestone_synced (t : Task) : Prop :=
  task_type t = TypeMilestone → task_startDate t = task_dueDate t.

(** [a] starts no later than [b], both start dates being valid. *)
Definition starts_no_later (Date_getTime : string → option Z) (a b : Task) : Prop :=
  match Date_getTime (task_startDate a), Date_getTime (task_startDate b) with
  | Some ta, Some tb => (ta ≤ tb)%Z
  | _, _ => False
  end.

(** The rows of a chart are in start order: a row further up starts no
    later than a row further down. *)
Definition in_start_order (Date_getTime : string → option Z) (rows : list Task)
    : Prop :=
  ∀ (i j : nat) (a b : Task),
    i < j → rows !! i = Some a → rows !! j = Some b →
    starts_no_later Date_getTime a b.

(** A task without a start date, beside [gantt_tasks]. *)
Definition undated_tasks : list Task :=
  gantt_tasks
  ++ [ sample_task "t5" "Retrospective" "To Do" "Low" "" "2024-01-12" TypeTask ].

(** The layout the task list saved before it had a [closedDate]
    column: seven keys, and their seven widths. *)
Definition legacy_order : list string :=
  [ "title"; "description"; "status"; "priority"; "assignee"; "startDate";
    "dueDate" ].

Definition legacy_widths : gmap string JS.Value :=
  list_to_map
    [ ("title", JS.Num 250); ("description", JS.Num 350);
      ("status", JS.Num 120); ("priority", JS.Num 120);
      ("assignee", JS.Num 160); ("startDate", JS.Num 120);
      ("dueDate", JS.Num 120) ].

Definition legacy_storage : gmap string string :=
  <["taskflow_ui_v1" := JS.JSON_stringify_object legacy_widths]>
    (<["taskflow_ui_order_v1" := JS.JSON_stringify_array legacy_order]> ∅).

(* ===================================================================== *)
(** * Properties *)
(* ===================================================================== *)

(** ** Arrays: [indexOf] and [splice] *)

Lemma indexOf_from_spec (l : list string) (k : string) (i : Z) :
  ((k ∉ l) ∧ JS.indexOf_from l k i = (-1)%Z)
  ∨ (∃ n : nat, JS.indexOf_from l k i = (i + Z.of_nat n)%Z
        ∧ l !! n = Some k ∧ ∀ m : nat, m < n → l !! m ≠ Some k).
Proof.
  revert i. induction l as [|x l IH]; intros i; simpl.
  - left. split; [apply not_elem_of_nil | reflexivity].
  - destruct (String.eqb_spec x k) as [->|Hne].
    + right. exists 0. split; [lia|]. split; [reflexivity|]. intros m Hm. lia.
    + destruct (IH (i + 1)%Z) as [[Hnot Heq]|(n & Heq & Hn & Hfirst)].
      * left. split; [|exact Heq].
        rewrite not_elem_of_cons. split; [congruence | exact Hnot].
      * right. exists (S n). split; [lia|]. split; [exact Hn|].
        intros [|m] Hm; simpl; [congruence | apply Hfirst; lia].
Qed.

Lemma indexOf_present (l : list string) (k : string) :
  k ∈ l →
  ∃ n : nat, JS.indexOf l k = Z.of_nat n ∧ l !! n = Some k
             ∧ ∀ m : nat, m < n → l !! m ≠ Some k.
Proof.
  intros Hin. unfold JS.indexOf.
  destruct (indexOf_from_spec l k 0) as [[Hnot _]|(n & Heq & Hn & Hfirst)].
  - contradiction.
  - exists n. split; [lia | split; assumption].
Qed.

Lemma indexOf_absent (l : list string) (k : string) :
  k ∉ l → JS.indexOf l k = (-1)%Z.
Proof.
  intros Hnot. unfold JS.indexOf.
  destruct (indexOf_from_spec l k 0) as [[_ Heq]|(n & _ & Hn & _)].
  - exact Heq.
  - exfalso. apply Hnot. eapply list_elem_of_lookup_2. exact Hn.
Qed.

Lemma relative_start_in_range (len i : nat) :
  i ≤ len → JS.relative_start len (Z.of_nat i) = i.
Proof.
  intros Hi. unfold JS.relative_start.
  destruct (Z.ltb_spec (Z.of_nat i) 0); lia.
Qed.

(** Removing one element at a valid index. *)
Lemma splice_delete_one {A : Type} (l : list A) (i : nat) :
  i < length l → JS.splice l (Z.of_nat i) 1 [] = delete i l.
Proof.
  intros Hi. unfold JS.splice.
  rewrite relative_start_in_range by lia.
  replace (Z.to_nat (Z.min (Z.max 1 0) (Z.of_nat (length l - i)))) with 1 by lia.
  simpl. rewrite delete_take_drop. f_equal. f_equal. lia.
Qed.

(** Inserting one element at a valid index. *)
Lemma splice_insert_one {A : Type} (l : list A) (j : nat) (x : A) :
  j ≤ length l →
  JS.splice l (Z.of_nat j) 0 [x] = take j l ++ x :: drop j l.
Proof.
  intros Hj. unfold JS.splice.
  rewrite relative_start_in_range by lia.
  replace (Z.to_nat (Z.min (Z.max 0 0) (Z.of_nat (length l - j)))) with 0 by lia.
  simpl. do 3 f_equal. lia.
Qed.

(** ** Column reorder *)

Example reorder_D_B :
  Grid.handleColumnDrop (Some "D") "B" ["A"; "B"; "C"; "D"]
  = Some ["A"; "D"; "B"; "C"].
Proof. reflexivity. Qed.

Example reorder_A_C :
  Grid.handleColumnDrop (Some "A") "C" ["A"; "B"; "C"; "D"]
  = Some ["B"; "C"; "A"; "D"].
Proof. reflexivity. Qed.

Example reorder_unknown :
  Grid.handleColumnDrop (Some "X") "B" ["A"; "B"; "C"]
  = Some ["A"; "X"; "B"].
Proof. reflexivity. Qed.

Lemma handleColumnDrop_closed_form (order : list string) (dragged target : string)
    (i j : nat) :
  dragged ≠ "" → dragged ≠ target →
  JS.indexOf order dragged = Z.of_nat i → order !! i = Some dragged →
  JS.indexOf order target = Z.of_nat j → order !! j = Some target →
  Grid.handleColumnDrop (Some dragged) target order = Some (moved order i j dragged).
Proof.
  intros Hne Hdt Hi Hli Hj Hlj. unfold Grid.handleColumnDrop, JS.truthy.
  destruct (String.eqb_spec dragged "") as [->|_]; [congruence|].
  destruct (String.eqb_spec dragged target) as [->|_]; [congruence|].
  simpl. rewrite Hi, Hj.
  apply lookup_lt_Some in Hli as Hlen_i. apply lookup_lt_Some in Hlj as Hlen_j.
  rewrite splice_delete_one by exact Hlen_i.
  rewrite splice_insert_one; [reflexivity|].
  rewrite length_delete by eauto. lia.
Qed.

Lemma moved_Permutation (order : list string) (i j : nat) (dragged : string) :
  order !! i = Some dragged → moved order i j dragged ≡ₚ order.
Proof.
  intros Hi. unfold moved.
  rewrite <- Permutation_middle, take_drop.
  symmetry. apply delete_Permutation, Hi.
Qed.

Lemma moved_lookup_target_index (order : list string) (i j : nat) (dragged : string) :
  i < length order → j < length order → moved order i j dragged !! j = Some dragged.
Proof.
  intros Hi Hj. unfold moved. apply list_lookup_middle.
  rewrite length_take, length_delete by (by apply lookup_lt_is_Some). lia.
Qed.

Lemma filter_delete_rejected {A : Type} (P : A → Prop) `{∀ x, Decision (P x)}
    (l : list A) (i : nat) (x : A) :
  l !! i = Some x → ¬ P x → filter P (delete i l) = filter P l.
Proof.
  revert i. induction l as [|y l IH]; intros [|i] Hi HP; simpl in *; try discriminate.
  - injection Hi as ->. by rewrite filter_cons_False.
  - rewrite !filter_cons. by rewrite (IH i).
Qed.

Lemma moved_others_keep_order (order : list string) (i j : nat) (dragged : string) :
  order !! i = Some dragged →
  filter (λ k, k ≠ dragged) (moved order i j dragged)
  = filter (λ k, k ≠ dragged) order.
Proof.
  intros Hi. unfold moved.
  rewrite filter_app, filter_cons_False by (intros H; by apply H).
  rewrite <- filter_app, take_drop.
  apply (filter_delete_rejected _ _ _ _ Hi). intros H; by apply H.
Qed.

Lemma moved_from_the_right (order : list string) (i j : nat) (dragged target : string) :
  i < length order → order !! j = Some target → j < i →
  immediately_before dragged target (moved order i j dragged).
Proof.
  intros Hi Hj Hlt. unfold moved.
  exists (take j (delete i order)), (drop (S j) (delete i order)).
  do 2 f_equal. apply drop_S. by rewrite list_lookup_delete_lt.
Qed.

Lemma moved_from_the_left (order : list string) (i j : nat) (dragged target : string) :
  i < length order → order !! j = Some target → i < j →
  immediately_before target dragged (moved order i j dragged).
Proof.
  intros Hi Hj Hlt. unfold moved.
  exists (take (j - 1) (delete i order)), (drop j (delete i order)).
  assert (Hprev : delete i order !! (j - 1) = Some target).
  { rewrite list_lookup_delete_ge by lia. by replace (S (j - 1)) with j by lia. }
  replace j with (S (j - 1)) at 1 by lia.
  rewrite (take_S_r _ _ _ Hprev), <- app_assoc. reflexivity.
Qed.

(** C1 (as amended). For every column order and every pair of distinct
    keys both present in it, with a non-empty dragged key, the drop
    handler deletes the dragged key from its position and puts it at the
    index the target key had before the deletion (a splice, not a swap):
    the result is a permutation of the order, every other key keeps its
    relative place, and the dragged key ends immediately before the
    target when it came from the right of it and immediately after the
    target when it came from the left. Dropping a key on itself sets no
    state. *)
Theorem handleColumnDrop_moves_to_target_index
    (order : list string) (dragged target : string) :
  dragged ≠ "" → dragged ≠ target → dragged ∈ order → target ∈ order →
  ∃ newOrder : list string,
    Grid.handleColumnDrop (Some dragged) target order = Some newOrder
    ∧ newOrder ≡ₚ order
    ∧ newOrder !! Z.to_nat (JS.indexOf order target) = Some dragged
    ∧ filter (λ k, k ≠ dragged) newOrder = filter (λ k, k ≠ dragged) order
    ∧ ((JS.indexOf order target < JS.indexOf order dragged)%Z →
         immediately_before dragged target newOrder)
    ∧ ((JS.indexOf order dragged < JS.indexOf order target)%Z →
         immediately_before target dragged newOrder)
    ∧ Grid.handleColumnDrop (Some dragged) dragged order = None.
Proof.
  intros Hne Hdt Hd Ht.
  destruct (indexOf_present order dragged Hd) as (i & Hi & Hli & _).
  destruct (indexOf_present order target Ht) as (j & Hj & Hlj & _).
  apply lookup_lt_Some in Hli as Hlen_i. apply lookup_lt_Some in Hlj as Hlen_j.
  exists (moved order i j dragged).
  rewrite Hi, Hj, Nat2Z.id.
  split; [by apply handleColumnDrop_closed_form|].
  split; [by apply moved_Permutation|].
  split; [by apply moved_lookup_target_index|].
  split; [by apply moved_others_keep_order|].
  split; [intros Hlt; apply moved_from_the_right; [done..|lia]|].
  split; [intros Hlt; apply moved_from_the_left; [done..|lia]|].
  unfold Grid.handleColumnDrop. rewrite String.eqb_refl.
  by rewrite orb_true_r.
Qed.

Lemma handleColumnDrop_moves_to_target_index_witness :
  ∃ newOrder : list string,
    Grid.handleColumnDrop (Some "D") "B" ["A"; "B"; "C"; "D"] = Some newOrder
    ∧ newOrder ≡ₚ ["A"; "B"; "C"; "D"]
    ∧ newOrder !! Z.to_nat (JS.indexOf ["A"; "B"; "C"; "D"] "B") = Some "D"
    ∧ filter (λ k, k ≠ "D") newOrder = filter (λ k, k ≠ "D") ["A"; "B"; "C"; "D"]
    ∧ ((JS.indexOf ["A"; "B"; "C"; "D"] "B" < JS.indexOf ["A"; "B"; "C"; "D"] "D")%Z →
         immediately_before "D" "B" newOrder)
    ∧ ((JS.indexOf ["A"; "B"; "C"; "D"] "D" < JS.indexOf ["A"; "B"; "C"; "D"] "B")%Z →
         immediately_before "B" "D" newOrder)
    ∧ Grid.handleColumnDrop (Some "D") "D" ["A"; "B"; "C"; "D"] = None.
Proof.
  apply (handleColumnDrop_moves_to_target_index ["A"; "B"; "C"; "D"] "D" "B").
  - discriminate.
  - discriminate.
  - repeat constructor.
  - repeat constructor.
Defined.

(** C1 (as stated) fails: dragging [A] onto [C] in [[A,B,C,D]] leaves
    [A] immediately after [C], not immediately before it. *)
Lemma handleColumnDrop_not_always_before_target :
  Grid.handleColumnDrop (Some "A") "C" ["A"; "B"; "C"; "D"]
    = Some ["B"; "C"; "A"; "D"]
  ∧ ¬ immediately_before "A" "C" ["B"; "C"; "A"; "D"].
Proof.
  split; [reflexivity|].
  intros (l1 & l2 & H).
  destruct l1 as [|? [|? [|? [|? l1]]]]; simpl in H; try discriminate.
  destruct l1; discriminate.
Qed.

(** Both views store the new order and clear the drag state. *)
Lemma TaskListView_handleColumnDrop_sets_order (targetKey : string)
    (st : TaskListView.State) (newOrder : list string) :
  Grid.handleColumnDrop (TaskListView.draggedColumn st) targetKey
    (TaskListView.columnOrder st) = Some newOrder →
  TaskListView.handleColumnDrop targetKey st
  = TaskListView.mkState (TaskListView.selectedIds st)
      (TaskListView.columnWidths st) newOrder (TaskListView.resizing st) None
      (TaskListView.activeFilters st) (TaskListView.filterOpen st).
Proof. intros H. unfold TaskListView.handleColumnDrop. by rewrite H. Qed.

Lemma IssueLogView_handleColumnDrop_sets_order (targetKey : string)
    (st : IssueLogView.State) (newOrder : list string) :
  Grid.handleColumnDrop (IssueLogView.draggedColumn st) targetKey
    (IssueLogView.columnOrder st) = Some newOrder →
  IssueLogView.handleColumnDrop targetKey st
  = IssueLogView.mkState (IssueLogView.columnWidths st) newOrder
      (IssueLogView.resizing st) None
      (IssueLogView.activeFilters st) (IssueLogView.filterOpen st).
Proof. intros H. unfold IssueLogView.handleColumnDrop. by rewrite H. Qed.

(** The guard [!draggedColumn] also stops a drag of the column whose key
    is the empty string. *)
Lemma handleColumnDrop_empty_key (target : string) (order : list string) :
  Grid.handleColumnDrop (Some "") target order = None.
Proof. reflexivity. Qed.

(** ** Stale references *)

(** C3 (as amended). The drop handler leaves the state as it is when no
    column is being dragged (the drag state is [null] or the empty
    string) or when the dragged key is the target key. [toggleSelection]
    never consults the record collection: it flips the membership of the
    id it is given, whether or not a record carries that id, and leaves
    every other id and every other state cell alone. *)
Theorem stale_reference_guards (target id : string) (st : TaskListView.State) :
  (TaskListView.draggedColumn st = None
   ∨ TaskListView.draggedColumn st = Some ""
   ∨ TaskListView.draggedColumn st = Some target →
   TaskListView.handleColumnDrop target st = st)
  ∧ (id ∈ TaskListView.selectedIds (TaskListView.toggleSelection id st)
     ↔ id ∉ TaskListView.selectedIds st)
  ∧ (∀ other : string, other ≠ id →
       other ∈ TaskListView.selectedIds (TaskListView.toggleSelection id st)
       ↔ other ∈ TaskListView.selectedIds st)
  ∧ TaskListView.columnOrder (TaskListView.toggleSelection id st)
    = TaskListView.columnOrder st
  ∧ TaskListView.columnWidths (TaskListView.toggleSelection id st)
    = TaskListView.columnWidths st.
Proof.
  split.
  { intros H. unfold TaskListView.handleColumnDrop, Grid.handleColumnDrop.
    destruct H as [-> | [-> | ->]]; [reflexivity | reflexivity |].
    by rewrite String.eqb_refl, orb_true_r. }
  unfold TaskListView.toggleSelection; simpl.
  split; [|split; [|split; reflexivity]].
  - case_bool_decide as Hin.
    + rewrite elem_of_difference, elem_of_singleton. tauto.
    + rewrite elem_of_union, elem_of_singleton. tauto.
  - intros other Hne. case_bool_decide as Hin.
    + rewrite elem_of_difference, elem_of_singleton. tauto.
    + rewrite elem_of_union, elem_of_singleton. tauto.
Qed.

Lemma stale_reference_guards_witness :
  TaskListView.handleColumnDrop "B" (sample_state ["A"; "B"; "C"] None ∅)
  = sample_state ["A"; "B"; "C"] None ∅.
Proof.
  apply (stale_reference_guards "B" "t1" (sample_state ["A"; "B"; "C"] None ∅)).
  left. reflexivity.
Defined.

(** C3 (as stated) fails on both halves. A dragged key that is not in
    the order is not ignored: [indexOf] answers [-1], the first [splice]
    then removes the last column and the second inserts the unknown key.
    An id that no record carries is not ignored either: it is added to
    the selection. *)
Lemma stale_reference_mutates_state :
  ("X" ∉ ["A"; "B"; "C"])
  ∧ TaskListView.columnOrder
      (TaskListView.handleColumnDrop "B" (sample_state ["A"; "B"; "C"] (Some "X") ∅))
    = ["A"; "X"; "B"]
  ∧ ("ghost" ∉ map task_id three_tasks)
  ∧ TaskListView.selectedIds
      (TaskListView.toggleSelection "ghost" (sample_state ["A"; "B"; "C"] None ∅))
    = {["ghost"]}
  ∧ ({["ghost"]} : gset string) ≠ ∅.
Proof.
  split; [by apply (bool_decide_unpack _)|]. split; [reflexivity|].
  split; [by apply (bool_decide_unpack _)|].
  split.
  - unfold TaskListView.toggleSelection; simpl.
    rewrite bool_decide_false by apply not_elem_of_empty.
    apply (left_id_L ∅ (∪)).
  - intros H. apply (not_elem_of_empty (C:=gset string) "ghost").
    rewrite <- H. by apply elem_of_singleton.
Qed.

(** ** Selection *)

Lemma size_list_to_set_NoDup (ids : list string) :
  NoDup ids → size (list_to_set ids : gset string) = length ids.
Proof. apply size_list_to_set. Qed.

(** Under the data model's invariants (distinct record ids, selection
    inside the visible rows) the size test of [toggleAllSelection] is the
    test "every visible row is selected". *)
Lemma size_test_is_all_selected (ids : list string) (sel : gset string) :
  NoDup ids → sel ⊆ list_to_set ids →
  size sel = length ids ↔ sel = list_to_set ids.
Proof.
  intros Hnd Hsub. split.
  - intros Hsize. apply set_eq. intros x. split; [set_solver|]. intros Hx.
    destruct (decide (x ∈ sel)) as [|Hnot]; [done|]. exfalso.
    assert (Hlt : size sel < size (list_to_set ids : gset string)).
    { apply subset_size. split; [done|]. intros Hsup. apply Hnot. set_solver. }
    rewrite size_list_to_set_NoDup in Hlt by done. lia.
  - intros ->. by apply size_list_to_set_NoDup.
Qed.

(** C2 (as amended). [toggleAllSelection] clears the selection when the
    number of selected ids equals the number of visible rows and at least
    one row is visible, and otherwise sets the selection to exactly the
    visible ids, discarding every other id. When the visible ids are
    distinct and the selection holds visible ids only, the count test
    holds exactly when the selection is the visible set. Starting from an
    empty selection over three rows with distinct ids, one call selects
    exactly those ids and a second call empties the selection. *)
Theorem toggleAllSelection_by_count (filteredTasks : list Task)
    (st : TaskListView.State) :
  let sel := TaskListView.selectedIds st in
  let visibleIds : gset string := list_to_set (map task_id filteredTasks) in
  let after := TaskListView.toggleAllSelection filteredTasks in
  (size sel = length filteredTasks → filteredTasks ≠ [] →
     TaskListView.selectedIds (after st) = ∅)
  ∧ (size sel ≠ length filteredTasks ∨ filteredTasks = [] →
     TaskListView.selectedIds (after st) = visibleIds)
  ∧ (NoDup (map task_id filteredTasks) → sel ⊆ visibleIds →
     size sel = length filteredTasks ↔ sel = visibleIds)
  ∧ (NoDup (map task_id filteredTasks) → length filteredTasks = 3 → sel = ∅ →
     TaskListView.selectedIds (after st) = visibleIds
     ∧ TaskListView.selectedIds (after (after st)) = ∅).
Proof.
  intros sel visibleIds after. subst sel visibleIds after.
  assert (Hclear : ∀ s : TaskListView.State,
    size (TaskListView.selectedIds s) = length filteredTasks → filteredTasks ≠ [] →
    TaskListView.selectedIds (TaskListView.toggleAllSelection filteredTasks s) = ∅).
  { intros s Hsize Hne.
    unfold TaskListView.toggleAllSelection, TaskListView.toggleAllSelection_clears; simpl.
    rewrite Hsize, Nat.eqb_refl. destruct filteredTasks; [done|reflexivity]. }
  assert (Hset : ∀ s : TaskListView.State,
    size (TaskListView.selectedIds s) ≠ length filteredTasks ∨ filteredTasks = [] →
    TaskListView.selectedIds (TaskListView.toggleAllSelection filteredTasks s)
    = list_to_set (map task_id filteredTasks)).
  { intros s H.
    unfold TaskListView.toggleAllSelection, TaskListView.toggleAllSelection_clears; simpl.
    destruct H as [Hsize | ->]; [|by rewrite andb_false_r].
    apply Nat.eqb_neq in Hsize. by rewrite Hsize. }
  split; [apply Hclear|]. split; [apply Hset|]. split.
  - intros Hnd Hsub. rewrite <- (length_map task_id).
    by apply size_test_is_all_selected.
  - intros Hnd Hlen Hempty.
    assert (Hfirst : TaskListView.selectedIds
              (TaskListView.toggleAllSelection filteredTasks st)
            = list_to_set (map task_id filteredTasks)).
    { apply Hset. left. rewrite Hempty, size_empty. lia. }
    split; [exact Hfirst|]. apply Hclear.
    + rewrite Hfirst, size_list_to_set_NoDup, length_map by done. reflexivity.
    + intros ->. discriminate.
Qed.

Lemma toggleAllSelection_by_count_witness :
  TaskListView.selectedIds
    (TaskListView.toggleAllSelection three_tasks (sample_state [] None {["t1"; "t2"; "t3"]}))
  = ∅
  ∧ TaskListView.selectedIds
      (TaskListView.toggleAllSelection three_tasks (sample_state [] None {["t1"]}))
    = list_to_set (map task_id three_tasks)
  ∧ (TaskListView.selectedIds
       (TaskListView.toggleAllSelection three_tasks (sample_state [] None ∅))
     = list_to_set (map task_id three_tasks)
     ∧ TaskListView.selectedIds
         (TaskListView.toggleAllSelection three_tasks
            (TaskListView.toggleAllSelection three_tasks (sample_state [] None ∅)))
       = ∅).
Proof.
  split; [|split].
  - destruct (toggleAllSelection_by_count three_tasks
                (sample_state [] None {["t1"; "t2"; "t3"]})) as (Hclear & _).
    apply Hclear; [vm_compute; reflexivity | discriminate].
  - destruct (toggleAllSelection_by_count three_tasks
                (sample_state [] None {["t1"]})) as (_ & Hset & _).
    apply Hset. left. vm_compute. discriminate.
  - destruct (toggleAllSelection_by_count three_tasks
                (sample_state [] None ∅)) as (_ & _ & _ & Htwice).
    apply Htwice; [|reflexivity|reflexivity].
    apply (bool_decide_unpack (NoDup (map task_id three_tasks))).
    vm_compute. exact I.
Defined.

(** C2 (as stated) fails, in a state the view reaches: select [t2],
    then filter the titles by [mock], which leaves [t1] as the only
    visible row. The selection is not the visible set, yet
    [toggleAllSelection] clears it instead of selecting [t1], because
    only the two counts are compared. *)
Lemma toggleAllSelection_clears_stale_selection :
  let st :=
    TaskListView.handle JS.toLowerCase_ascii three_tasks (TaskListView.ChangeFilter "title" "mock")
      (TaskListView.handle JS.toLowerCase_ascii three_tasks (TaskListView.ToggleSelection "t2")
         (TaskListView.initialState ∅)) in
  let visible :=
    TaskListView.filteredTasks JS.toLowerCase_ascii three_tasks (TaskListView.activeFilters st) in
  map task_id visible = ["t1"]
  ∧ TaskListView.selectedIds st = {["t2"]}
  ∧ TaskListView.selectedIds st ≠ list_to_set (map task_id visible)
  ∧ TaskListView.selectedIds (TaskListView.toggleAllSelection visible st) = ∅
  ∧ TaskListView.selectedIds (TaskListView.toggleAllSelection visible st)
    ≠ list_to_set (map task_id visible).
Proof.
  intros st visible.
  assert (Hvisible : map task_id visible = ["t1"]) by (vm_compute; reflexivity).
  assert (Hsel : TaskListView.selectedIds st = {["t2"]}) by (vm_compute; reflexivity).
  assert (Hafter : TaskListView.selectedIds
                     (TaskListView.toggleAllSelection visible st) = ∅)
    by (vm_compute; reflexivity).
  clearbody st visible.
  assert (Ht1 : "t1" ∈ (list_to_set (map task_id visible) : gset string)).
  { rewrite Hvisible. apply elem_of_list_to_set. left. }
  split; [exact Hvisible|]. split; [exact Hsel|]. split; [|split].
  - intros H. rewrite <- H, Hsel in Ht1.
    apply elem_of_singleton in Ht1. discriminate.
  - exact Hafter.
  - rewrite Hafter. intros H. rewrite <- H in Ht1.
    by apply not_elem_of_empty in Ht1.
Qed.

(** C10. With no visible row [toggleAllSelection] does not take the
    clearing branch, and the selection it sets is empty whatever was
    selected before. *)
Theorem toggleAllSelection_empty_view (st : TaskListView.State) :
  TaskListView.toggleAllSelection_clears [] st = false
  ∧ TaskListView.selectedIds (TaskListView.toggleAllSelection [] st) = ∅
  ∧ ∀ id : string,
      id ∉ TaskListView.selectedIds (TaskListView.toggleAllSelection [] st).
Proof.
  assert (Hguard : TaskListView.toggleAllSelection_clears [] st = false).
  { unfold TaskListView.toggleAllSelection_clears. apply andb_false_r. }
  assert (Hsel : TaskListView.selectedIds (TaskListView.toggleAllSelection [] st) = ∅).
  { unfold TaskListView.toggleAllSelection. rewrite Hguard. reflexivity. }
  split; [exact Hguard|]. split; [exact Hsel|].
  intros id. rewrite Hsel. apply not_elem_of_empty.
Qed.

(** ** Column resize *)

Lemma handleMouseMove_idle (clientX : Z) (widths : gmap string JS.Value) :
  Grid.handleMouseMove None clientX widths = widths.
Proof. reflexivity. Qed.

(** A layout saved before the [closedDate] column existed: the order
    is loaded with [closedDate] appended, the widths as they were saved,
    without one for [closedDate]. Pressing the resize handle of that
    column and moving the pointer is something the view allows, and it
    stores [NaN] as the width of the column. *)
Lemma legacy_resize (clientX0 clientX : Z) :
  let mounted := TaskListView.initialState legacy_storage in
  let st :=
    TaskListView.handleMouseMove clientX
      (TaskListView.startResize "closedDate" clientX0 mounted) in
  TaskListView.columnOrder mounted = legacy_order ++ ["closedDate"]
  ∧ TaskListView.columnWidths mounted = legacy_widths
  ∧ TaskListView.reachable JS.toLowerCase_ascii legacy_storage [] st
  ∧ TaskListView.columnWidths st = <["closedDate" := JS.NaN]> legacy_widths
  ∧ TaskListView.columnOrder st = legacy_order ++ ["closedDate"].
Proof.
  intros mounted st.
  assert (Horder : TaskListView.columnOrder mounted
                   = legacy_order ++ ["closedDate"])
    by (vm_compute; reflexivity).
  assert (Hwidths : TaskListView.columnWidths mounted = legacy_widths).
  { subst mounted. unfold TaskListView.initialState. simpl.
    unfold TaskListView.initialColumnWidths, legacy_storage.
    rewrite lookup_insert_eq.
    change (JS.truthy (JS.JSON_stringify_object legacy_widths)) with true.
    cbv iota. vm_compute. reflexivity. }
  split; [exact Horder|]. split; [exact Hwidths|].
  split; [|split; [|exact Horder]].
  - subst st.
    apply (TaskListView.reachable_handle JS.toLowerCase_ascii legacy_storage []
             (TaskListView.MouseMove clientX)); [|exact I].
    apply (TaskListView.reachable_handle JS.toLowerCase_ascii legacy_storage []
             (TaskListView.MouseDown "closedDate" clientX0));
      [apply TaskListView.reachable_mount|].
    change ("closedDate" ∈ TaskListView.columnOrder mounted). rewrite Horder.
    apply elem_of_app. right. apply list_elem_of_here.
  - subst st.
    change (<["closedDate" :=
               JS.Math_max 80
                 (JS.plus (TaskListView.columnWidths mounted !! "closedDate")
                    (clientX - clientX0))]> (TaskListView.columnWidths mounted)
            = <["closedDate" := JS.NaN]> legacy_widths).
    by rewrite Hwidths.
Qed.

(** C9. A pointer move of a resize drag can store a width that is
    not at least 80. A layout saved before the [closedDate] column
    existed is loaded with that column in the order
    and no width for it; the column still has its resize handle, and a
    resize drag on it stores [Math.max(80, undefined + 100)], which is
    [NaN], as its width: a stored width that is not a number of at
    least 80 pixels, in a state the view reaches. *)
Theorem resize_without_stored_width_stores_NaN :
  let mounted := TaskListView.initialState legacy_storage in
  let st :=
    TaskListView.handleMouseMove 700
      (TaskListView.startResize "closedDate" 600 mounted) in
  "closedDate" ∈ TaskListView.columnOrder mounted
  ∧ TaskListView.columnWidths mounted !! "closedDate" = None
  ∧ TaskListView.resizing (TaskListView.startResize "closedDate" 600 mounted)
    = Some (Grid.mkResizing "closedDate" 600 None)
  ∧ TaskListView.reachable JS.toLowerCase_ascii legacy_storage [] st
  ∧ TaskListView.columnWidths st !! "closedDate" = Some JS.NaN
  ∧ ¬ at_least_80 JS.NaN.
Proof.
  intros mounted st.
  destruct (legacy_resize 600 700) as (Horder & Hwidths & Hreach & Hst & _).
  change (TaskListView.columnOrder mounted = legacy_order ++ ["closedDate"])
    in Horder.
  change (TaskListView.columnWidths mounted = legacy_widths) in Hwidths.
  change (TaskListView.columnWidths st = <["closedDate" := JS.NaN]> legacy_widths)
    in Hst.
  change (TaskListView.reachable JS.toLowerCase_ascii legacy_storage [] st)
    in Hreach.
  assert (Hpress : TaskListView.resizing
                     (TaskListView.startResize "closedDate" 600 mounted)
                   = Some (Grid.mkResizing "closedDate" 600
                             (TaskListView.columnWidths mounted !! "closedDate")))
    by reflexivity.
  clearbody st mounted.
  split; [rewrite Horder; apply elem_of_app; right; apply list_elem_of_here|].
  split; [by rewrite Hwidths|].
  split.
  { by rewrite Hpress, Hwidths. }
  split; [exact Hreach|]. split; [|by intros []].
  rewrite Hst. apply lookup_insert_eq.
Qed.

(** While a resize of a column with a stored numeric width is in
    progress, a pointer move stores
    [max(80, startWidth + (clientX - startX))] as the width of the
    dragged column: a requested width of 10 is stored as 80, the stored
    width is never below 80, a layout whose widths are all at least 80
    stays so, and the width of every other column, like every other
    state cell, is what it was. *)
Lemma handleMouseMove_clamps (clientX w : Z) (st : TaskListView.State)
    (r : Grid.Resizing) :
  TaskListView.resizing st = Some r → Grid.startWidth r = Some (JS.Num w) →
  let st' := TaskListView.handleMouseMove clientX st in
  let requested := (w + (clientX - Grid.startX r))%Z in
  TaskListView.columnWidths st' !! Grid.key r
  = Some (JS.Num (Z.max 80 requested))
  ∧ (∀ k : string, k ≠ Grid.key r →
       TaskListView.columnWidths st' !! k = TaskListView.columnWidths st !! k)
  ∧ ((∀ (k : string) (v : JS.Value),
        TaskListView.columnWidths st !! k = Some v → at_least_80 v) →
     ∀ (k : string) (v : JS.Value),
       TaskListView.columnWidths st' !! k = Some v → at_least_80 v).
Proof.
  intros Hr Hw st' requested. subst st' requested.
  unfold TaskListView.handleMouseMove, Grid.handleMouseMove; simpl.
  rewrite Hr, Hw. simpl.
  split; [apply lookup_insert_eq|].
  split; [intros k Hk; by apply lookup_insert_ne|].
  intros Hall k v. destruct (decide (Grid.key r = k)) as [<-|Hne].
  - rewrite lookup_insert_eq. intros [= <-]. simpl. lia.
  - rewrite lookup_insert_ne by done. apply Hall.
Qed.

(** ** Filter engine *)

Lemma append_cons (c : Ascii.ascii) (s t : string) :
  (String c s ++ t)%string = String c (s ++ t)%string.
Proof. reflexivity. Qed.

Lemma append_empty (t : string) : ("" ++ t)%string = t.
Proof. reflexivity. Qed.




Lemma String_or_empty_default (v : option string) :
  JS.String_or_empty v = default "" v.
Proof.
  destruct v as [s|]; simpl; [|done].
  unfold JS.truthy. by destruct (String.eqb_spec s "") as [->|].
Qed.

Lemma truthy_nonempty (s : string) : JS.truthy s = true ↔ s ≠ "".
Proof.
  unfold JS.truthy. destruct (String.eqb_spec s ""); simpl; split; congruence.
Qed.

Lemma every_entries (p : string * string → bool) (m : gmap string string) :
  JS.every p (JS.Object_entries m) = true
  ↔ ∀ key value : string, m !! key = Some value → p (key, value) = true.
Proof.
  unfold JS.every, JS.Object_entries. rewrite forallb_forall. split.
  - intros H key value Hkv. apply H, list_elem_of_In.
    by apply elem_of_map_to_list.
  - intros H [key value] Hin. apply H.
    by apply elem_of_map_to_list, list_elem_of_In.
Qed.




Section FilterFacts.

Variable toLowerCase : string → string.







(** The empty filter map keeps every record, in order. *)
Lemma filteredTasks_no_filter (tasks : list Task) :
  TaskListView.filteredTasks toLowerCase tasks ∅ = tasks.
Proof.
  unfold TaskListView.filteredTasks, JS.Object_entries.
  rewrite map_to_list_empty. simpl.
  induction tasks as [|t tasks IH]; simpl; congruence.
Qed.

End FilterFacts.





Example filter_and_semantics :
  TaskListView.filteredTasks JS.toLowerCase_ascii three_tasks
    (<["status" := "Done"]> (<["priority" := "High"]> ∅))
  = take 1 three_tasks.
Proof. vm_compute. reflexivity. Qed.

Example filter_substring_case_insensitive :
  TaskListView.filteredTasks JS.toLowerCase_ascii three_tasks (<["title" := "mock"]> ∅)
  = take 1 three_tasks.
Proof. vm_compute. reflexivity. Qed.

(** ** Gantt timeline *)

Example Date_getTime_iso_epoch : JS.Date_getTime_iso "1970-01-01" = Some 0%Z.
Proof. reflexivity. Qed.

Example Date_getTime_iso_2024 :
  JS.Date_getTime_iso "2024-01-01" = Some 1704067200000%Z.
Proof. reflexivity. Qed.

Example Date_getTime_iso_invalid : JS.Date_getTime_iso "next week" = None.
Proof. reflexivity. Qed.

Section GanttFacts.

Variable Date_getTime : string → option Z.

Lemma insertSorted_Permutation (t : Task) (sorted : list Task) :
  GanttView.insertSorted Date_getTime t sorted ≡ₚ t :: sorted.
Proof.
  induction sorted as [|u rest IH]; simpl; [done|].
  destruct (GanttView.compareStart Date_getTime t u <=? 0)%Z; [done|].
  rewrite IH. apply Permutation_swap.
Qed.

Lemma sortedTasks_Permutation (tasks : list Task) :
  GanttView.sortedTasks Date_getTime tasks ≡ₚ tasks.
Proof.
  induction tasks as [|t tasks IH]; simpl; [done|].
  unfold GanttView.sortedTasks in *. simpl.
  by rewrite insertSorted_Permutation, IH.
Qed.

(** A task that is not among the remaining rows keeps the entry it has. *)
Lemma setPositions_other (startDate : option Z) (ppd : Q) (sorted : list Task)
    (index : nat) (positions : gmap string GanttView.Position) (id : string) :
  id ∉ map task_id sorted →
  GanttView.setPositions Date_getTime startDate ppd sorted index positions !! id
  = positions !! id.
Proof.
  revert index positions.
  induction sorted as [|t rest IH]; intros index positions Hnot; simpl; [done|].
  simpl in Hnot. apply not_elem_of_cons in Hnot as [Hne Hrest].
  rewrite IH by done. by apply lookup_insert_ne.
Qed.

(** With distinct ids, the entry of the task in row [i] is the position
    computed for that task and that row. *)
Lemma setPositions_lookup (startDate : option Z) (ppd : Q) (sorted : list Task)
    (index : nat) (positions : gmap string GanttView.Position)
    (i : nat) (task : Task) :
  NoDup (map task_id sorted) → sorted !! i = Some task →
  GanttView.setPositions Date_getTime startDate ppd sorted index positions
    !! task_id task
  = Some (GanttView.position Date_getTime startDate ppd task (index + i)).
Proof.
  revert index positions i.
  induction sorted as [|t rest IH]; intros index positions i Hnd Hi; [done|].
  simpl in Hnd. apply NoDup_cons in Hnd as [Hfresh Hnd].
  destruct i as [|i]; simpl in *.
  - injection Hi as ->. rewrite setPositions_other by done.
    by rewrite lookup_insert_eq, Nat.add_0_r.
  - rewrite (IH _ _ i) by done. do 2 f_equal. lia.
Qed.

Lemma taskPositions_lookup (tasks : list Task) (startDate : option Z) (ppd : Q)
    (task : Task) :
  NoDup (map task_id tasks) → task ∈ tasks →
  ∃ row : nat,
    GanttView.sortedTasks Date_getTime tasks !! row = Some task
    ∧ GanttView.taskPositions Date_getTime tasks startDate ppd !! task_id task
      = Some (GanttView.position Date_getTime startDate ppd task row).
Proof.
  intros Hnd Hin.
  assert (Hsorted : task ∈ GanttView.sortedTasks Date_getTime tasks)
    by by rewrite sortedTasks_Permutation.
  apply list_elem_of_lookup in Hsorted as [row Hrow].
  exists row. split; [exact Hrow|].
  unfold GanttView.taskPositions.
  rewrite (setPositions_lookup _ _ _ _ _ row task); [done| |done].
  by rewrite sortedTasks_Permutation.
Qed.

Lemma position_valid_dates (start tStart tEnd : Z) (ppd : Q) (task : Task)
    (row : nat) :
  Date_getTime (task_startDate task) = Some tStart →
  Date_getTime (task_dueDate task) = Some tEnd →
  GanttView.position Date_getTime (Some start) ppd task row
  = GanttView.mkPosition
      (Some (days_between start tStart * ppd)%Q)
      (Some ((days_between tStart tEnd + 1) * ppd)%Q)
      (Z.of_nat row * GanttView.ROW_HEIGHT + 24)%Z.
Proof.
  intros Hs He. unfold GanttView.position. rewrite Hs, He. reflexivity.
Qed.

End GanttFacts.

Lemma days_between_same (t : Z) : (days_between t t == 0)%Q.
Proof. unfold days_between. field. Qed.

Lemma days_between_next_day (t : Z) :
  (days_between t (t + 86400000) == 1)%Q.
Proof. unfold days_between. rewrite inject_Z_plus. field. Qed.

Lemma days_between_nonneg (from to : Z) :
  (from ≤ to)%Z → (0 <= days_between from to)%Q.
Proof.
  intros Hle. unfold days_between. rewrite Zle_Qle in Hle.
  apply Qle_shift_div_l; [reflexivity|]. lra.
Qed.

(** C6. For a collection of tasks with distinct ids and a task of it
    whose dates are valid, the entry of [taskPositions] for the task has
    width [(dueDate - startDate in days + 1) * pixelsPerDay] and x-offset
    [(startDate - rangeStart in days) * pixelsPerDay]; a task that starts
    and ends on the same day has width 40 at 40 pixels per day, one that
    ends a day (86,400,000 milliseconds) after it starts has width 80,
    and with a positive zoom factor no task whose due date is not before
    its start has width zero. *)
Theorem taskPositions_geometry (Date_getTime : string → option Z)
    (tasks : list Task) (task : Task) (rangeStart tStart tEnd : Z)
    (pixelsPerDay : Q) :
  NoDup (map task_id tasks) → task ∈ tasks →
  Date_getTime (task_startDate task) = Some tStart →
  Date_getTime (task_dueDate task) = Some tEnd →
  ∃ (xOffset width : Q) (y : Z),
    GanttView.taskPositions Date_getTime tasks (Some rangeStart) pixelsPerDay
      !! task_id task
    = Some (GanttView.mkPosition (Some xOffset) (Some width) y)
    ∧ width = ((days_between tStart tEnd + 1) * pixelsPerDay)%Q
    ∧ xOffset = (days_between rangeStart tStart * pixelsPerDay)%Q
    ∧ (tStart = tEnd → pixelsPerDay == 40 → width == 40)%Q
    ∧ (tEnd = (tStart + 86400000)%Z → pixelsPerDay == 40 → width == 80)%Q
    ∧ ((tStart ≤ tEnd)%Z → (0 < pixelsPerDay)%Q → (0 < width)%Q ∧ ¬ (width == 0)%Q).
Proof.
  intros Hnd Hin Hs He.
  destruct (taskPositions_lookup Date_getTime tasks (Some rangeStart)
              pixelsPerDay task Hnd Hin) as (row & _ & Hpos).
  rewrite (position_valid_dates _ _ _ _ _ _ _ Hs He) in Hpos.
  eexists _, _, _. split; [exact Hpos|].
  split; [reflexivity|]. split; [reflexivity|]. split; [|split].
  - intros -> Hppd. rewrite days_between_same, Hppd. reflexivity.
  - intros -> Hppd. rewrite days_between_next_day, Hppd. reflexivity.
  - intros Hle Hppd. pose proof (days_between_nonneg _ _ Hle) as Hd.
    assert (Hpos' : (0 < (days_between tStart tEnd + 1) * pixelsPerDay)%Q) by nra.
    split; [exact Hpos'|]. intros Hz. rewrite Hz in Hpos'. lra.
Qed.

Lemma taskPositions_geometry_witness :
  ∃ (xOffset width : Q) (y : Z),
    GanttView.taskPositions JS.Date_getTime_iso gantt_tasks
      (Some 1703635200000%Z) 40 !! "t4"
    = Some (GanttView.mkPosition (Some xOffset) (Some width) y)
    ∧ (width == 40)%Q.
Proof.
  destruct (taskPositions_geometry JS.Date_getTime_iso gantt_tasks
              (sample_task "t4" "Release notes" "To Do" "Low" "2024-01-10"
                 "2024-01-10" TypeTask)
              1703635200000 1704844800000 1704844800000 40)
    as (xOffset & width & y & Hpos & _ & _ & Hsingle & _).
  - apply (bool_decide_unpack (NoDup (map task_id gantt_tasks))).
    vm_compute. exact I.
  - unfold gantt_tasks, three_tasks. simpl.
    do 3 apply list_elem_of_further. apply list_elem_of_here.
  - reflexivity.
  - reflexivity.
  - exists xOffset, width, y. split; [exact Hpos|].
    apply Hsingle; reflexivity.
Defined.

Lemma colorClass_TASK_STATUSES (status : string) :
  is_Some (GanttView.colorClass status) ↔ status ∈ TASK_STATUSES.
Proof.
  unfold GanttView.colorClass. rewrite fmap_is_Some. split.
  - intros [classes Hclasses]. unfold STATUS_COLORS in Hclasses.
    apply elem_of_list_to_map_2 in Hclasses. unfold TASK_STATUSES.
    repeat (apply elem_of_cons in Hclasses as [[= <- _]|Hclasses];
            [by repeat first [apply list_elem_of_here | apply list_elem_of_further]|]).
    by apply not_elem_of_nil in Hclasses.
  - unfold TASK_STATUSES. intros Hin.
    repeat (apply elem_of_cons in Hin as [->|Hin]; [by eexists|]).
    by apply not_elem_of_nil in Hin.
Qed.

(** C7. In a collection with distinct ids, a milestone whose status is
    one of the task statuses is drawn as the diamond of constant side
    28, whatever the zoom factor, whatever its dates and whatever width
    [taskPositions] computed for it; the diamond is placed 14 pixels
    left of the milestone's x-offset, so that its centre is the
    x-offset. A task with valid dates (due date not before start) is
    drawn, at a positive zoom factor, as a bar that starts at its
    x-offset and whose width is the zoom factor times the inclusive
    number of days, a number that does not depend on the zoom factor. *)
Theorem milestone_marker_and_task_bar (Date_getTime : string → option Z)
    (tasks : list Task) (rangeStart : option Z) (pixelsPerDay : Q) :
  NoDup (map task_id tasks) →
  let positions :=
    GanttView.taskPositions Date_getTime tasks rangeStart pixelsPerDay in
  (∀ milestone : Task,
     milestone ∈ tasks → task_type milestone = TypeMilestone →
     task_status milestone ∈ TASK_STATUSES →
     ∃ pos : GanttView.Position,
       positions !! task_id milestone = Some pos
       ∧ GanttView.renderTask positions milestone
         = GanttView.Row
             (GanttView.Diamond (GanttView.num_sub (GanttView.x pos) (Some 14%Q))
                GanttView.MILESTONE_SIZE)
       ∧ ∀ start tStart : Z,
           rangeStart = Some start →
           Date_getTime (task_startDate milestone) = Some tStart →
           let xOffset := (days_between start tStart * pixelsPerDay)%Q in
           GanttView.x pos = Some xOffset
           ∧ GanttView.renderTask positions milestone
             = GanttView.Row
                 (GanttView.Diamond (Some (xOffset - 14)%Q)
                    GanttView.MILESTONE_SIZE)
           ∧ ((xOffset - 14) + GanttView.MILESTONE_SIZE / 2 == xOffset)%Q)
  ∧ (GanttView.MILESTONE_SIZE == 28)%Q
  ∧ (∀ (task : Task) (start tStart tEnd : Z),
       task ∈ tasks → task_type task = TypeTask →
       task_status task ∈ TASK_STATUSES →
       rangeStart = Some start →
       Date_getTime (task_startDate task) = Some tStart →
       Date_getTime (task_dueDate task) = Some tEnd →
       (tStart ≤ tEnd)%Z → (0 < pixelsPerDay)%Q →
       ∃ color : string,
         GanttView.colorClass (task_status task) = Some color
         ∧ GanttView.renderTask positions task
           = GanttView.Row
               (GanttView.Bar (Some (days_between start tStart * pixelsPerDay)%Q)
                  (Some ((days_between tStart tEnd + 1) * pixelsPerDay)%Q)
                  color)).
Proof.
  intros Hnd positions. split; [|split; [reflexivity|]].
  - intros milestone Hin Htype Hstatus.
    destruct (taskPositions_lookup Date_getTime tasks rangeStart pixelsPerDay
                milestone Hnd Hin) as (row & _ & Hpos).
    apply colorClass_TASK_STATUSES in Hstatus as [color Hcolor].
    assert (Hdrawn : GanttView.renderTask positions milestone
                     = GanttView.Row
                         (GanttView.Diamond
                            (GanttView.num_sub
                               (GanttView.x
                                  (GanttView.position Date_getTime rangeStart
                                     pixelsPerDay milestone row))
                               (Some 14%Q))
                            GanttView.MILESTONE_SIZE)).
    { unfold GanttView.renderTask. fold positions in Hpos.
      by rewrite Hpos, Hcolor, Htype. }
    eexists. split; [exact Hpos|]. split; [exact Hdrawn|].
    intros start tStart -> Hs xOffset. subst xOffset.
    assert (Hx : GanttView.x
                   (GanttView.position Date_getTime (Some start) pixelsPerDay
                      milestone row)
                 = Some (days_between start tStart * pixelsPerDay)%Q).
    { unfold GanttView.position. simpl. rewrite Hs. reflexivity. }
    split; [exact Hx|]. split.
    + rewrite Hdrawn, Hx. reflexivity.
    + unfold GanttView.MILESTONE_SIZE. field.
  - intros task start tStart tEnd Hin Htype Hstatus -> Hs He Hle Hppd.
    destruct (taskPositions_lookup Date_getTime tasks (Some start) pixelsPerDay
                task Hnd Hin) as (row & _ & Hpos).
    rewrite (position_valid_dates _ _ _ _ _ _ _ Hs He) in Hpos.
    apply colorClass_TASK_STATUSES in Hstatus as [color Hcolor].
    exists color. split; [exact Hcolor|].
    unfold GanttView.renderTask. fold positions in Hpos.
    rewrite Hpos, Hcolor, Htype. simpl.
    pose proof (days_between_nonneg _ _ Hle) as Hd.
    assert (Hwide : (0 < (days_between tStart tEnd + 1) * pixelsPerDay)%Q) by nra.
    destruct (Qle_bool _ 0) eqn:Hb; [|reflexivity].
    apply Qle_bool_iff in Hb. lra.
Qed.

Lemma milestone_marker_and_task_bar_witness :
  let positions :=
    GanttView.taskPositions JS.Date_getTime_iso gantt_tasks
      (Some 1703635200000%Z) 40 in
  let xOffset := (days_between 1703635200000 1704844800000 * 40)%Q in
  GanttView.renderTask positions
    (sample_task "t3" "Launch" "To Do" "High" "2024-01-10" "2024-01-10" TypeMilestone)
    = GanttView.Row
        (GanttView.Diamond (Some (xOffset - 14)%Q) GanttView.MILESTONE_SIZE)
  ∧ ∃ color : string,
      GanttView.renderTask positions
        (sample_task "t4" "Release notes" "To Do" "Low" "2024-01-10" "2024-01-10"
           TypeTask)
      = GanttView.Row
          (GanttView.Bar (Some xOffset)
             (Some ((days_between 1704844800000 1704844800000 + 1) * 40)%Q)
             color).
Proof.
  intros positions xOffset.
  assert (Hnd : NoDup (map task_id gantt_tasks)).
  { apply (bool_decide_unpack (NoDup (map task_id gantt_tasks))).
    vm_compute. exact I. }
  assert (Htodo : "To Do" ∈ TASK_STATUSES) by apply list_elem_of_here.
  destruct (milestone_marker_and_task_bar JS.Date_getTime_iso gantt_tasks
              (Some 1703635200000%Z) 40 Hnd) as (Hmilestone & _ & Htask).
  split.
  - destruct (Hmilestone
                (sample_task "t3" "Launch" "To Do" "High" "2024-01-10"
                   "2024-01-10" TypeMilestone)) as (pos & _ & _ & Hplaced).
    + unfold gantt_tasks, three_tasks. simpl.
      do 2 apply list_elem_of_further. apply list_elem_of_here.
    + reflexivity.
    + exact Htodo.
    + destruct (Hplaced 1703635200000%Z 1704844800000%Z eq_refl eq_refl)
        as (_ & Hdrawn & _).
      exact Hdrawn.
  - destruct (Htask
                (sample_task "t4" "Release notes" "To Do" "Low" "2024-01-10"
                   "2024-01-10" TypeTask)
                1703635200000%Z 1704844800000%Z 1704844800000%Z)
      as (color & _ & Hbar).
    + unfold gantt_tasks, three_tasks. simpl.
      do 3 apply list_elem_of_further. apply list_elem_of_here.
    + reflexivity.
    + exact Htodo.
    + reflexivity.
    + reflexivity.
    + reflexivity.
    + lia.
    + reflexivity.
    + by exists color.
Defined.

(** The zoom factor stays within [2, 100]. *)
Lemma zoom_factor_bounds (pixelsPerDay : Q) :
  GanttView.reachable pixelsPerDay → (2 <= pixelsPerDay <= 100)%Q.
Proof.
  induction 1 as [|ev prev Hprev IH Hev].
  - unfold GanttView.initialPixelsPerDay. split; discriminate.
  - destruct ev; simpl in *.
    + split; [apply Q.le_max_r|]. apply Q.max_lub; [lra | discriminate].
    + split; [|apply Q.le_min_r]. apply Q.min_glb; [lra | discriminate].
    + destruct Hev as [Hlo Hhi]. rewrite Zle_Qle in Hlo, Hhi. split; assumption.
    + split; discriminate.
    + split; discriminate.
Qed.

(** C8. The timeline is Daily exactly when the zoom factor is at least
    18 and Monthly otherwise, for every zoom factor and so for every one
    in [2, 100]: 17 pixels per day give Monthly, 18 give Daily. *)
Theorem viewMode_threshold (pixelsPerDay : Q) :
  (GanttView.viewMode pixelsPerDay = GanttView.Daily ↔ (18 <= pixelsPerDay)%Q)
  ∧ (GanttView.viewMode pixelsPerDay = GanttView.Monthly ↔ (pixelsPerDay < 18)%Q)
  ∧ GanttView.viewMode 17 = GanttView.Monthly
  ∧ GanttView.viewMode 18 = GanttView.Daily.
Proof.
  unfold GanttView.viewMode.
  split; [|split; [|split; reflexivity]].
  - destruct (Qle_bool 18 pixelsPerDay) eqn:Hb.
    + apply Qle_bool_iff in Hb. by split.
    + split; [discriminate|]. intros Hle. apply Qle_bool_iff in Hle. congruence.
  - destruct (Qle_bool 18 pixelsPerDay) eqn:Hb.
    + apply Qle_bool_iff in Hb. split; [discriminate|]. intros Hlt. lra.
    + split; [|done]. intros _. apply Qnot_le_lt. intros Hle.
      apply Qle_bool_iff in Hle. congruence.
Qed.

(** ** Persisted layout *)

Example stringify_default_order :
  JS.JSON_parse_array (JS.JSON_stringify_array TaskListView.defaultColumnOrder)
  = Some TaskListView.defaultColumnOrder.
Proof. vm_compute. reflexivity. Qed.

Example stringify_default_widths :
  JS.JSON_parse_object (JS.JSON_stringify_object TaskListView.defaultColumnWidths)
  = Some TaskListView.defaultColumnWidths.
Proof. vm_compute. reflexivity. Qed.

(** *** Strings *)

(** Case analysis on the 256 values of a character. *)
Ltac each_character c := destruct c as [[] [] [] [] [] [] [] []].

(** What [quote_char] writes for a character, [parse_chars] reads as
    that character. *)
Lemma parse_quote_char (c : Ascii.ascii) (rest : string) :
  JS.parse_chars (JS.quote_char c rest) = JS.cons_char c (JS.parse_chars rest).
Proof. each_character c; reflexivity. Qed.

Lemma parse_quote_chars (s rest : string) :
  JS.parse_chars (JS.quote_chars s (String (JS.chr 34) rest)) = Some (s, rest).
Proof.
  induction s as [|c s IH]; [reflexivity|].
  change (JS.quote_chars (String c s) ?r) with (JS.quote_char c (JS.quote_chars s r)).
  by rewrite parse_quote_char, IH.
Qed.

Lemma length_quote_char (c : Ascii.ascii) (rest : string) :
  String.length rest < String.length (JS.quote_char c rest).
Proof. each_character c; simpl; lia. Qed.

Lemma length_quote_chars (s rest : string) :
  String.length rest ≤ String.length (JS.quote_chars s rest).
Proof.
  induction s as [|c s IH]; [done|].
  change (JS.quote_chars (String c s) rest)
    with (JS.quote_char c (JS.quote_chars s rest)).
  pose proof (length_quote_char c (JS.quote_chars s rest)). lia.
Qed.

Lemma length_stringify_string (s rest : string) :
  String.length rest + 2 ≤ String.length (JS.stringify_string s rest).
Proof.
  unfold JS.stringify_string.
  pose proof (length_quote_chars s (String (JS.chr 34) rest)) as H.
  simpl in *. lia.
Qed.

(** *** Arrays of strings *)

(** One element and what follows it: a comma and the other elements,
    or the closing bracket at the end of the text. *)
Lemma parse_elements_string (fuel : nat) (x tail : string) :
  JS.parse_elements (S fuel) (JS.stringify_string x tail)
  = match tail with
    | String sep s2 =>
        if JS.code sep =? 44 then
          match JS.parse_elements fuel s2 with
          | Some items => Some (x :: items)
          | None => None
          end
        else if JS.code sep =? 93 then
          match s2 with
          | EmptyString => Some [x]
          | String _ _ => None
          end
        else None
    | EmptyString => None
    end.
Proof.
  unfold JS.stringify_string.
  change (JS.parse_elements (S fuel) (String (JS.chr 34) ?s1))
    with (match JS.parse_chars s1 with
          | Some (item, String sep s2) =>
              if JS.code sep =? 44 then
                match JS.parse_elements fuel s2 with
                | Some items => Some (item :: items)
                | None => None
                end
              else if JS.code sep =? 93 then
                match s2 with
                | EmptyString => Some [item]
                | String _ _ => None
                end
              else None
          | _ => None
          end).
  rewrite parse_quote_chars. by destruct tail.
Qed.

Lemma parse_stringify_elements (l : list string) (x : string) (fuel : nat) :
  length (x :: l) ≤ fuel →
  JS.parse_elements fuel
    (JS.stringify_elements (x :: l) (String (JS.chr 93) EmptyString))
  = Some (x :: l).
Proof.
  revert x fuel. induction l as [|y l IH]; intros x fuel Hfuel.
  all: destruct fuel as [|fuel]; [simpl in Hfuel; lia|].
  - apply parse_elements_string.
  - change (JS.stringify_elements (x :: y :: l) ?r)
      with (JS.stringify_string x (String (JS.chr 44) (JS.stringify_elements (y :: l) r))).
    rewrite parse_elements_string.
    change (JS.code (JS.chr 44) =? 44) with true. cbv iota.
    rewrite IH; [done|]. simpl in *. lia.
Qed.

Lemma length_stringify_elements (l : list string) (rest : string) :
  length l ≤ String.length (JS.stringify_elements l rest).
Proof.
  induction l as [|x l IH]; [simpl; lia|].
  destruct l as [|y l].
  - pose proof (length_stringify_string x rest). simpl in *. lia.
  - change (JS.stringify_elements (x :: y :: l) rest)
      with (JS.stringify_string x
              (String (JS.chr 44) (JS.stringify_elements (y :: l) rest))).
    pose proof (length_stringify_string x
                  (String (JS.chr 44) (JS.stringify_elements (y :: l) rest))) as H.
    simpl in *. lia.
Qed.

(** [JSON.parse] reads back every array of strings that
    [JSON.stringify] wrote. *)
Lemma JSON_parse_stringify_array (l : list string) :
  JS.JSON_parse_array (JS.JSON_stringify_array l) = Some l.
Proof.
  destruct l as [|x l]; [reflexivity|].
  unfold JS.JSON_stringify_array.
  pose proof (length_stringify_elements (x :: l) (String (JS.chr 93) EmptyString)) as Hlen.
  pose proof (parse_stringify_elements l x
                (String.length (JS.stringify_elements (x :: l)
                                  (String (JS.chr 93) EmptyString))) Hlen) as Hparse.
  revert Hparse.
  change (JS.stringify_elements (x :: l) ?r)
    with (String (JS.chr 34)
            (JS.quote_chars x (String (JS.chr 34)
               match l with
               | [] => r
               | _ :: _ => String (JS.chr 44) (JS.stringify_elements l r)
               end))).
  intros Hparse. exact Hparse.
Qed.

Lemma truthy_stringify_array (l : list string) :
  JS.truthy (JS.JSON_stringify_array l) = true.
Proof. reflexivity. Qed.

(** *** Integers *)

Lemma span_number_uint (d : Decimal.uint) (c : Ascii.ascii) (rest : string) :
  JS.is_number_char c = false →
  JS.span_number (NilEmpty.string_of_uint d ++ String c rest)%string
  = (NilEmpty.string_of_uint d, String c rest).
Proof.
  intros Hc. induction d as [|d IH|d IH|d IH|d IH|d IH|d IH|d IH|d IH|d IH|d IH].
  1: { rewrite append_empty. simpl. by rewrite Hc. }
  all: simpl NilEmpty.string_of_uint; rewrite append_cons.
  all: change (JS.span_number (String ?a ?s))
         with (if JS.is_number_char a
               then let '(digits, r) := JS.span_number s in (String a digits, r)
               else (EmptyString, String a s)).
  all: by rewrite IH.
Qed.

Lemma span_number_int (d : Decimal.signed_int) (c : Ascii.ascii) (rest : string) :
  JS.is_number_char c = false →
  JS.span_number (NilZero.string_of_int d ++ String c rest)%string
  = (NilZero.string_of_int d, String c rest).
Proof.
  intros Hc.
  assert (Huint : ∀ u : Decimal.uint,
    JS.span_number (NilZero.string_of_uint u ++ String c rest)%string
    = (NilZero.string_of_uint u, String c rest)).
  { intros u. destruct u; try by apply span_number_uint.
    simpl NilZero.string_of_uint. rewrite append_cons, append_empty.
    simpl. by rewrite Hc. }
  destruct d as [u|u]; simpl NilZero.string_of_int; [apply Huint|].
  rewrite append_cons.
  change (JS.span_number (String ?a ?s))
    with (if JS.is_number_char a
          then let '(digits, r) := JS.span_number s in (String a digits, r)
          else (EmptyString, String a s)).
  by rewrite Huint.
Qed.

Lemma Z_to_int_not_nil (z : Z) :
  Z.to_int z ≠ Decimal.Pos Decimal.Nil ∧ Z.to_int z ≠ Decimal.Neg Decimal.Nil.
Proof.
  destruct z as [|p|p]; simpl; split; try discriminate.
  - intros [= H]. by apply DecimalPos.Unsigned.to_uint_nonnil in H.
  - intros [= H]. by apply DecimalPos.Unsigned.to_uint_nonnil in H.
Qed.

Lemma parse_stringify_number (z : Z) (c : Ascii.ascii) (rest : string) :
  JS.is_number_char c = false →
  JS.parse_number (JS.stringify_number z (String c rest))
  = Some (z, String c rest).
Proof.
  intros Hc. unfold JS.parse_number, JS.stringify_number.
  rewrite span_number_int by done.
  destruct (Z_to_int_not_nil z) as [Hpos Hneg].
  rewrite NilZero.isi by done. by rewrite DecimalZ.of_to.
Qed.

Lemma length_append_r (s rest : string) :
  String.length rest ≤ String.length (s ++ rest)%string.
Proof.
  induction s as [|c s IH]; [by rewrite append_empty|].
  rewrite append_cons. simpl. lia.
Qed.

Lemma length_stringify_number (z : Z) (rest : string) :
  String.length rest ≤ String.length (JS.stringify_number z rest).
Proof. apply length_append_r. Qed.

(** *** Objects of widths *)

Lemma parse_stringify_value (v : JS.Value) (c : Ascii.ascii) (rest : string) :
  JS.is_number_char c = false →
  JS.parse_value (JS.stringify_value v (String c rest))
  = Some (reloaded v, String c rest).
Proof.
  intros Hc. destruct v as [z| |]; [|reflexivity|reflexivity].
  unfold JS.parse_value, JS.stringify_value.
  by rewrite parse_stringify_number.
Qed.

Lemma length_stringify_value (v : JS.Value) (rest : string) :
  String.length rest ≤ String.length (JS.stringify_value v rest).
Proof.
  destruct v as [z| |]; [apply length_stringify_number| |]; simpl; lia.
Qed.

(** One member and what follows it. *)
Lemma parse_members_string (fuel : nat) (k : string) (v : JS.Value)
    (sep : Ascii.ascii) (tail : string) :
  JS.is_number_char sep = false →
  JS.parse_members (S fuel)
    (JS.stringify_string k
       (String (JS.chr 58) (JS.stringify_value v (String sep tail))))
  = if JS.code sep =? 44 then
      match JS.parse_members fuel tail with
      | Some members => Some ((k, reloaded v) :: members)
      | None => None
      end
    else if JS.code sep =? 125 then
      match tail with
      | EmptyString => Some [(k, reloaded v)]
      | String _ _ => None
      end
    else None.
Proof.
  intros Hsep. unfold JS.stringify_string.
  change (JS.parse_members (S fuel) (String (JS.chr 34) ?s1))
    with (match JS.parse_chars s1 with
          | Some (k, String colon s2) =>
              if JS.code colon =? 58 then
                match JS.parse_value s2 with
                | Some (v, String sep s3) =>
                    if JS.code sep =? 44 then
                      match JS.parse_members fuel s3 with
                      | Some members => Some ((k, v) :: members)
                      | None => None
                      end
                    else if JS.code sep =? 125 then
                      match s3 with
                      | EmptyString => Some [(k, v)]
                      | String _ _ => None
                      end
                    else None
                | _ => None
                end
              else None
          | _ => None
          end).
  rewrite parse_quote_chars.
  change (JS.code (JS.chr 58) =? 58) with true. cbv iota.
  by rewrite parse_stringify_value.
Qed.

Lemma parse_stringify_members (l : list (string * JS.Value))
    (kv : string * JS.Value) (fuel : nat) :
  length (kv :: l) ≤ fuel →
  JS.parse_members fuel
    (JS.stringify_members (kv :: l) (String (JS.chr 125) EmptyString))
  = Some (prod_map id reloaded <$> kv :: l).
Proof.
  revert kv fuel. induction l as [|kv' l IH]; intros [k v] fuel Hfuel.
  all: destruct fuel as [|fuel]; [simpl in Hfuel; lia|].
  - by apply parse_members_string.
  - change (JS.stringify_members ((k, v) :: kv' :: l) ?r)
      with (JS.stringify_string k
              (String (JS.chr 58)
                 (JS.stringify_value v
                    (String (JS.chr 44) (JS.stringify_members (kv' :: l) r))))).
    rewrite parse_members_string by done.
    change (JS.code (JS.chr 44) =? 44) with true. cbv iota.
    rewrite IH; [done|]. simpl in *. lia.
Qed.

Lemma length_stringify_members (l : list (string * JS.Value)) (rest : string) :
  length l ≤ String.length (JS.stringify_members l rest).
Proof.
  induction l as [|[k v] l IH]; [simpl; lia|].
  destruct l as [|kv' l].
  - pose proof (length_stringify_string k
                  (String (JS.chr 58) (JS.stringify_value v rest))).
    simpl in *. lia.
  - change (JS.stringify_members ((k, v) :: kv' :: l) rest)
      with (JS.stringify_string k
              (String (JS.chr 58)
                 (JS.stringify_value v
                    (String (JS.chr 44) (JS.stringify_members (kv' :: l) rest))))).
    pose proof (length_stringify_string k
                  (String (JS.chr 58)
                     (JS.stringify_value v
                        (String (JS.chr 44) (JS.stringify_members (kv' :: l) rest))))) as H1.
    pose proof (length_stringify_value v
                  (String (JS.chr 44) (JS.stringify_members (kv' :: l) rest))) as H2.
    simpl in *. lia.
Qed.

Lemma object_of_members_other (l : list (string * JS.Value))
    (o : gmap string JS.Value) (k : string) :
  k ∉ l.*1 → foldl (λ o kv, <[kv.1 := kv.2]> o) o l !! k = o !! k.
Proof.
  revert o. induction l as [|[k' v'] l IH]; intros o Hnot; simpl; [done|].
  simpl in Hnot. apply not_elem_of_cons in Hnot as [Hne Hrest].
  rewrite IH by done. by apply lookup_insert_ne.
Qed.

Lemma object_of_members_lookup (l : list (string * JS.Value))
    (o : gmap string JS.Value) (k : string) (v : JS.Value) :
  NoDup l.*1 → (k, v) ∈ l →
  foldl (λ o kv, <[kv.1 := kv.2]> o) o l !! k = Some v.
Proof.
  revert o. induction l as [|[k' v'] l IH]; intros o Hnd Hin; simpl.
  - by apply not_elem_of_nil in Hin.
  - simpl in Hnd. apply NoDup_cons in Hnd as [Hfresh Hnd].
    apply elem_of_cons in Hin as [[= -> ->]|Hin].
    + rewrite object_of_members_other by done. apply lookup_insert_eq.
    + by apply IH.
Qed.

(** The object read back from the members of [o] has, under each key of
    [o], what the cell holds after a reload. *)
Lemma object_of_members_reloaded (o : gmap string JS.Value) :
  JS.object_of_members (prod_map id reloaded <$> map_to_list o)
  = reloaded <$> o.
Proof.
  assert (Hkeys : (prod_map id reloaded <$> map_to_list o).*1
                  = (map_to_list o).*1).
  { rewrite <- list_fmap_compose. apply list_fmap_ext. by intros ? []. }
  apply map_eq. intros k. unfold JS.object_of_members.
  rewrite lookup_fmap. destruct (o !! k) as [v|] eqn:Hk; simpl.
  - apply object_of_members_lookup.
    + rewrite Hkeys. apply NoDup_fst_map_to_list.
    + apply list_elem_of_fmap. exists (k, v). split; [done|].
      by apply elem_of_map_to_list.
  - rewrite object_of_members_other; [apply lookup_empty|].
    rewrite Hkeys. intros Hin.
    apply list_elem_of_fmap in Hin as ([k' v] & -> & Hin).
    apply elem_of_map_to_list in Hin. simpl in Hk. congruence.
Qed.

(** [JSON.parse] reads back every object of widths that
    [JSON.stringify] wrote, with [null] where a [NaN] was. *)
Lemma JSON_parse_stringify_object (o : gmap string JS.Value) :
  JS.JSON_parse_object (JS.JSON_stringify_object o) = Some (reloaded <$> o).
Proof.
  unfold JS.JSON_stringify_object.
  destruct (map_to_list o) as [|[k v] l] eqn:Hl.
  - apply map_to_list_empty_iff in Hl as ->. by rewrite fmap_empty.
  - pose proof (length_stringify_members ((k, v) :: l)
                  (String (JS.chr 125) EmptyString)) as Hlen.
    pose proof (parse_stringify_members l (k, v)
                  (String.length (JS.stringify_members ((k, v) :: l)
                                    (String (JS.chr 125) EmptyString))) Hlen) as Hparse.
    assert (Hobj : JS.object_of_members (prod_map id reloaded <$> (k, v) :: l)
                   = reloaded <$> o)
      by (rewrite <- Hl; apply object_of_members_reloaded).
    revert Hparse.
    change (JS.stringify_members ((k, v) :: l) ?r)
      with (String (JS.chr 34)
              (JS.quote_chars k (String (JS.chr 34)
                 (String (JS.chr 58)
                    (JS.stringify_value v
                       match l with
                       | [] => r
                       | _ :: _ => String (JS.chr 44) (JS.stringify_members l r)
                       end))))).
    intros Hparse.
    change (JS.JSON_parse_object (String (JS.chr 123) (String (JS.chr 34) ?s)))
      with (JS.object_of_members
              <$> JS.parse_members (String.length (String (JS.chr 34) s))
                    (String (JS.chr 34) s)).
    rewrite Hparse. exact (f_equal Some Hobj).
Qed.

Lemma truthy_stringify_object (o : gmap string JS.Value) :
  JS.truthy (JS.JSON_stringify_object o) = true.
Proof. reflexivity. Qed.

(** A widths object without [NaN] is read back as it was written. *)
Lemma reloaded_id (o : gmap string JS.Value) :
  (∀ k : string, o !! k ≠ Some JS.NaN) → reloaded <$> o = o.
Proof.
  intros Hnum. apply map_eq. intros k. rewrite lookup_fmap.
  specialize (Hnum k). destruct (o !! k) as [[z| |]|]; simpl; congruence.
Qed.

(** *** Saving and loading the layout *)

Lemma array_includes_elem_of (l : list string) (k : string) :
  JS.array_includes l k = true ↔ k ∈ l.
Proof.
  unfold JS.array_includes. rewrite existsb_exists, list_elem_of_In. split.
  - intros (x & Hin & Heq). apply String.eqb_eq in Heq. by subst.
  - intros Hin. exists k. split; [done | apply String.eqb_refl].
Qed.

Lemma initialColumnWidths_persist (st : TaskListView.State)
    (localStorage : gmap string string) :
  TaskListView.initialColumnWidths (TaskListView.persist st localStorage)
  = reloaded <$> TaskListView.columnWidths st.
Proof.
  unfold TaskListView.initialColumnWidths, TaskListView.persist,
    TaskListView.persistColumnOrder, TaskListView.persistColumnWidths.
  rewrite lookup_insert_ne by done. rewrite lookup_insert_eq.
  by rewrite truthy_stringify_object, JSON_parse_stringify_object.
Qed.

Lemma initialColumnOrder_persist (st : TaskListView.State)
    (localStorage : gmap string string) :
  TaskListView.initialColumnOrder (TaskListView.persist st localStorage)
  = if JS.array_includes (TaskListView.columnOrder st) "closedDate"
    then TaskListView.columnOrder st
    else TaskListView.columnOrder st ++ ["closedDate"].
Proof.
  unfold TaskListView.initialColumnOrder, TaskListView.persist,
    TaskListView.persistColumnOrder.
  rewrite lookup_insert_eq.
  rewrite truthy_stringify_array, JSON_parse_stringify_array.
  by destruct (JS.array_includes _ _).
Qed.

(** The issue log has no migration step: its layout comes back as it
    was saved, but for [null] where a width was [NaN]. *)
Lemma IssueLogView_layout_round_trip (st : IssueLogView.State)
    (localStorage : gmap string string) :
  IssueLogView.initialColumnWidths (IssueLogView.persist st localStorage)
  = reloaded <$> IssueLogView.columnWidths st
  ∧ IssueLogView.initialColumnOrder (IssueLogView.persist st localStorage)
    = IssueLogView.columnOrder st.
Proof.
  unfold IssueLogView.initialColumnWidths, IssueLogView.initialColumnOrder,
    IssueLogView.persist, IssueLogView.persistColumnOrder,
    IssueLogView.persistColumnWidths.
  rewrite lookup_insert_ne by done. rewrite !lookup_insert_eq.
  rewrite truthy_stringify_object, JSON_parse_stringify_object.
  by rewrite truthy_stringify_array, JSON_parse_stringify_array.
Qed.

(** C4. Loading what was saved does not always give back the widths
    that were saved. In the state the view reaches from a layout saved
    before the [closedDate] column existed, by a
    resize drag on that column, the width of the column is [NaN];
    [JSON.stringify] saves it as [null] and [JSON.parse] loads [null]:
    the widths loaded are not the widths saved. The order is loaded as
    it was saved. *)
Theorem legacy_layout_does_not_round_trip :
  let st :=
    TaskListView.handleMouseMove 700
      (TaskListView.startResize "closedDate" 600
         (TaskListView.initialState legacy_storage)) in
  let loaded :=
    TaskListView.initialState (TaskListView.persist st legacy_storage) in
  TaskListView.reachable JS.toLowerCase_ascii legacy_storage [] st
  ∧ TaskListView.columnWidths st !! "closedDate" = Some JS.NaN
  ∧ TaskListView.columnWidths loaded !! "closedDate" = Some JS.Null
  ∧ TaskListView.columnWidths loaded ≠ TaskListView.columnWidths st
  ∧ TaskListView.columnOrder loaded = TaskListView.columnOrder st.
Proof.
  intros st loaded.
  destruct (legacy_resize 600 700) as (_ & _ & Hreach & Hst & Horder).
  change (TaskListView.columnWidths st = <["closedDate" := JS.NaN]> legacy_widths)
    in Hst.
  change (TaskListView.columnOrder st = legacy_order ++ ["closedDate"]) in Horder.
  change (TaskListView.reachable JS.toLowerCase_ascii legacy_storage [] st)
    in Hreach.
  subst loaded. clearbody st.
  assert (HNaN : TaskListView.columnWidths st !! "closedDate" = Some JS.NaN)
    by (rewrite Hst; apply lookup_insert_eq).
  assert (Hloaded : TaskListView.columnWidths
                      (TaskListView.initialState
                         (TaskListView.persist st legacy_storage))
                      !! "closedDate"
                    = Some JS.Null).
  { unfold TaskListView.initialState. simpl.
    by rewrite initialColumnWidths_persist, lookup_fmap, HNaN. }
  split; [exact Hreach|]. split; [exact HNaN|]. split; [exact Hloaded|].
  split.
  - intros Heq. rewrite Heq, HNaN in Hloaded. discriminate.
  - unfold TaskListView.initialState. simpl.
    rewrite initialColumnOrder_persist, Horder. reflexivity.
Qed.

(** *** The orders the task list reaches *)

Lemma splice_insert_Permutation {A : Type} (l : list A) (start : Z) (x : A) :
  JS.splice l start 0 [x] ≡ₚ x :: l.
Proof.
  unfold JS.splice.
  replace (Z.to_nat (Z.min (Z.max 0 0) _)) with 0 by lia.
  rewrite Nat.add_0_r. simpl.
  by rewrite <- Permutation_middle, take_drop.
Qed.

(** Whatever the target, dropping a column of the order permutes it. *)
Lemma handleColumnDrop_Permutation (order newOrder : list string)
    (dragged target : string) :
  dragged ∈ order →
  Grid.handleColumnDrop (Some dragged) target order = Some newOrder →
  newOrder ≡ₚ order.
Proof.
  intros Hin. unfold Grid.handleColumnDrop.
  destruct (negb (JS.truthy dragged) || String.eqb dragged target); [done|].
  intros [= <-].
  destruct (indexOf_present order dragged Hin) as (i & Hi & Hli & _).
  rewrite Hi, splice_delete_one by (by eapply lookup_lt_Some).
  rewrite splice_insert_Permutation. symmetry. by apply delete_Permutation.
Qed.


Section ReachableOrders.

Variable toLowerCase : string → string.



End ReachableOrders.

(* ===================================================================== *)
(** * Further properties: the application state *)
(* ===================================================================== *)

(** ** Visibility *)

Lemma find_some_elem_of {A : Type} (f : A → bool) (l : list A) (x : A) :
  List.find f l = Some x → x ∈ l ∧ f x = true.
Proof.
  intros H. apply find_some in H as [Hin Hf]. by rewrite list_elem_of_In.
Qed.

Lemma head_elem_of {A : Type} (l : list A) (x : A) : head l = Some x → x ∈ l.
Proof. destruct l; intros [= ->]. apply list_elem_of_here. Qed.

Lemma filter_elem_of {A : Type} (f : A → bool) (l : list A) (x : A) :
  x ∈ List.filter f l ↔ x ∈ l ∧ f x = true.
Proof. by rewrite !list_elem_of_In, filter_In. Qed.

Lemma visibleProjects_elem_of (st : App.State) (p : Project) :
  p ∈ App.visibleProjects st →
  p ∈ App.projects st
  ∧ ∀ u : User, App.currentUser st = Some u → App.isPrivileged u = false →
      user_id u ∈ project_members p.
Proof.
  unfold App.visibleProjects.
  destruct (App.currentUser st) as [u|]; [|by split].
  destruct (App.isPrivileged u) eqn:Hpriv.
  - intros Hin. split; [done|]. intros u' [= <-]. congruence.
  - intros Hin. apply filter_elem_of in Hin as [Hin Hmem].
    split; [done|]. intros u' [= <-] _. by apply array_includes_elem_of.
Qed.

(** X1. The project the page shows is always one of the projects the
    current user may see: it is in [visibleProjects], and when the
    current user is neither Admin nor Owner the user is among its
    members, whatever [activeProjectId] holds. The page shows no project
    only when the user may see none. *)
Theorem activeProject_is_visible (st : App.State) :
  match App.activeProject st with
  | Some p =>
      p ∈ App.visibleProjects st
      ∧ p ∈ App.projects st
      ∧ ∀ u : User, App.currentUser st = Some u → App.isPrivileged u = false →
          user_id u ∈ project_members p
  | None => App.visibleProjects st = []
  end.
Proof.
  destruct (App.activeProject st) as [p|] eqn:Hactive.
  - assert (Hvis : p ∈ App.visibleProjects st).
    { unfold App.activeProject in Hactive.
      destruct (List.find _ _) as [q|] eqn:Hfind.
      - injection Hactive as ->. by apply find_some_elem_of in Hfind as [? _].
      - by apply head_elem_of. }
    split; [exact Hvis|]. by apply visibleProjects_elem_of.
  - unfold App.activeProject in Hactive.
    destruct (List.find _ _) eqn:Hfind; [done|].
    by destruct (App.visibleProjects st).
Qed.

(** ** Projects *)

Lemma filter_not_nil_of_two_distinct (id : string) (ps : list Project) :
  NoDup (map project_id ps) → 1 < length ps →
  List.filter (λ p, negb (String.eqb (project_id p) id)) ps ≠ [].
Proof.
  intros Hnd Hlen.
  destruct ps as [|p [|q ps]]; simpl in Hlen; [lia..|].
  simpl in Hnd. apply NoDup_cons in Hnd as [Hpq _].
  apply not_elem_of_cons in Hpq as [Hpq _].
  simpl. destruct (String.eqb_spec (project_id p) id) as [Hp|_]; [|done].
  destruct (String.eqb_spec (project_id q) id) as [Hq|_]; [congruence|done].
Qed.

(** X2. [handleDeleteProject] refuses to delete when at most one project
    exists. With two or more projects of distinct ids it never throws,
    removes exactly the projects carrying the id (the others stay, in
    order), leaves at least one project, and makes the first remaining
    project the active one. *)
Theorem handleDeleteProject_keeps_a_project (id : string) (st : App.State) :
  (length (App.projects st) ≤ 1 → App.handleDeleteProject id st = Some st)
  ∧ (1 < length (App.projects st) → NoDup (map project_id (App.projects st)) →
     ∃ (st' : App.State) (first : Project),
       App.handleDeleteProject id st = Some st'
       ∧ App.projects st'
         = List.filter (λ p, negb (String.eqb (project_id p) id)) (App.projects st)
       ∧ head (App.projects st') = Some first
       ∧ App.activeProjectId st' = project_id first
       ∧ (∀ p : Project, p ∈ App.projects st' ↔
            p ∈ App.projects st ∧ project_id p ≠ id)
       ∧ App.isProjectModalOpen st' = false
       ∧ App.projectToEdit st' = None).
Proof.
  unfold App.handleDeleteProject. split.
  - intros Hlen. apply Nat.leb_le in Hlen. by rewrite Hlen.
  - intros Hlen Hnd.
    pose proof (filter_not_nil_of_two_distinct id _ Hnd Hlen) as Hne.
    apply Nat.leb_gt in Hlen. rewrite Hlen.
    destruct (List.filter _ _) as [|first remaining] eqn:Hfilter; [done|].
    eexists _, first. split; [reflexivity|]. simpl.
    split; [reflexivity|]. split; [reflexivity|]. split; [reflexivity|].
    split; [|by split].
    intros p. rewrite <- Hfilter, filter_elem_of, negb_true_iff.
    apply and_iff_compat_l.
    destruct (String.eqb_spec (project_id p) id); split; congruence.
Qed.

Lemma inActiveProject_lookup (change : Project → Project) (st : App.State)
    (i : nat) :
  App.inActiveProject change st !! i
  = (λ p, if String.eqb (project_id p) (App.activeProjectId st)
          then change p else p) <$> App.projects st !! i.
Proof. unfold App.inActiveProject. apply list_lookup_fmap. Qed.

(** A change that keeps the id of a project keeps the list of ids, and
    reaches no project whose id is not [activeProjectId]. *)
Lemma inActiveProject_frame (change : Project → Project) (st : App.State) :
  (∀ p : Project, project_id (change p) = project_id p) →
  map project_id (App.inActiveProject change st) = map project_id (App.projects st)
  ∧ ∀ (i : nat) (p : Project),
      App.projects st !! i = Some p → project_id p ≠ App.activeProjectId st →
      App.inActiveProject change st !! i = Some p.
Proof.
  intros Hid. split.
  - unfold App.inActiveProject. rewrite map_map. apply map_ext. intros p.
    by destruct (String.eqb (project_id p) (App.activeProjectId st)).
  - intros i p Hi Hne. rewrite inActiveProject_lookup, Hi. simpl.
    by destruct (String.eqb_spec (project_id p) (App.activeProjectId st)).
Qed.


Lemma handleDeleteProject_keeps_a_project_witness :
  ∃ (st' : App.State) (first : Project),
    App.handleDeleteProject "p1" (sample_app "u1" "p1" None) = Some st'
    ∧ head (App.projects st') = Some first
    ∧ App.activeProjectId st' = "p2".
Proof.
  destruct (handleDeleteProject_keeps_a_project "p1" (sample_app "u1" "p1" None))
    as [_ Hdelete].
  destruct Hdelete as (st' & first & Hst' & Hprojects & Hhead & Hactive & _).
  - simpl. lia.
  - apply (bool_decide_unpack (NoDup (map project_id sample_projects))).
    vm_compute. exact I.
  - exists st', first. split; [exact Hst'|]. split; [exact Hhead|].
    rewrite Hactive. rewrite Hprojects in Hhead. simpl in Hhead.
    by injection Hhead as <-.
Defined.

(** X3. Saving a task, changing a task's status, a bulk update and
    saving an issue all leave the list of projects with the same ids in
    the same order, and leave every project whose id is not
    [activeProjectId] exactly as it was; when no project carries
    [activeProjectId] they change no project at all. *)
Theorem task_and_issue_handlers_touch_only_active (st : App.State)
    (newId today taskId status : string) (task : Task) (issue : Issue)
    (taskIds : list string) (updates : TaskUpdates) :
  let results :=
    [ App.handleSaveTask newId task st;
      App.handleTaskStatusChange taskId status st;
      App.handleBulkUpdateTasks taskIds updates st;
      App.handleSaveIssue newId today issue st ] in
  Forall (touches_only_active st) results
  ∧ ((∀ p : Project, p ∈ App.projects st →
        project_id p ≠ App.activeProjectId st) →
     Forall (λ st', App.projects st' = App.projects st) results).
Proof.
  intros results.
  assert (Hframe : Forall (touches_only_active st) results).
  { subst results.
    assert (H1 : touches_only_active st (App.handleSaveTask newId task st)).
    { unfold App.handleSaveTask, touches_only_active. simpl.
      destruct (App.isEditing _); by apply inActiveProject_frame. }
    assert (H2 : touches_only_active st
                   (App.handleTaskStatusChange taskId status st))
      by by apply inActiveProject_frame.
    assert (H3 : touches_only_active st
                   (App.handleBulkUpdateTasks taskIds updates st))
      by by apply inActiveProject_frame.
    assert (H4 : touches_only_active st
                   (App.handleSaveIssue newId today issue st)).
    { unfold App.handleSaveIssue, touches_only_active. simpl.
      destruct (App.isEditing _); by apply inActiveProject_frame. }
    by repeat apply List.Forall_cons. }
  split; [exact Hframe|]. intros Hstale.
  eapply Forall_impl; [exact Hframe|]. intros st' [Hids Hsame].
  apply list_eq. intros i.
  destruct (App.projects st !! i) as [p|] eqn:Hi.
  - apply Hsame; [done|]. apply Hstale. by eapply list_elem_of_lookup_2.
  - apply lookup_ge_None in Hi. apply lookup_ge_None.
    rewrite <- (length_map project_id), Hids, length_map. exact Hi.
Qed.

Lemma task_and_issue_handlers_touch_only_active_witness :
  Forall (λ st', App.projects st' = sample_projects)
    [ App.handleSaveTask "n9" new_task (sample_app "u1" "gone" None);
      App.handleTaskStatusChange "t1" "Doing" (sample_app "u1" "gone" None);
      App.handleBulkUpdateTasks ["t1"; "t2"] (statusUpdate "Done")
        (sample_app "u1" "gone" None);
      App.handleSaveIssue "n9" "2024-03-01"
        (mkIssue "new" "Crash" "" "Open" "High" "2024-03-02" None "2024-03-01"
           "Bob" "")
        (sample_app "u1" "gone" None) ].
Proof.
  destruct (task_and_issue_handlers_touch_only_active
              (sample_app "u1" "gone" None) "n9" "2024-03-01" "t1" "Doing"
              new_task
              (mkIssue "new" "Crash" "" "Open" "High" "2024-03-02" None
                 "2024-03-01" "Bob" "")
              ["t1"; "t2"] (statusUpdate "Done")) as [_ Hstale].
  apply Hstale.
  intros p Hin. simpl in Hin.
  apply elem_of_cons in Hin as [->|Hin]; [discriminate|].
  apply elem_of_cons in Hin as [->|Hin]; [discriminate|].
  by apply not_elem_of_nil in Hin.
Defined.

(** ** Tasks *)

Lemma inActiveProject_active (change : Project → Project) (st : App.State)
    (i : nat) (p : Project) :
  App.projects st !! i = Some p → project_id p = App.activeProjectId st →
  App.inActiveProject change st !! i = Some (change p).
Proof.
  intros Hi Hid. rewrite inActiveProject_lookup, Hi. simpl.
  by rewrite Hid, String.eqb_refl.
Qed.

Lemma find_app_fresh (id : string) (tasks : list Task) (t : Task) :
  id ∉ map task_id tasks → task_id t = id →
  List.find (λ u, String.eqb (task_id u) id) (tasks ++ [t]) = Some t.
Proof.
  intros Hfresh Hid. induction tasks as [|u tasks IH]; simpl.
  - by rewrite Hid, String.eqb_refl.
  - simpl in Hfresh. apply not_elem_of_cons in Hfresh as [Hne Hfresh].
    destruct (String.eqb_spec (task_id u) id); [congruence|]. by apply IH.
Qed.

Lemma handleSaveTask_creates_at (newId : string) (task : Task) (st : App.State)
    (i : nat) (p : Project) :
  App.isEditing (task_id <$> App.editingTask st) = false →
  App.projects st !! i = Some p → project_id p = App.activeProjectId st →
  App.projects (App.handleSaveTask newId task st) !! i
  = Some (App.withTasks (project_tasks p ++ [App.withId newId task]) p).
Proof.
  intros Hnew Hi Hid. unfold App.handleSaveTask. rewrite Hnew. simpl.
  by apply (inActiveProject_active
              (λ q, App.withTasks (project_tasks q ++ [App.withId newId task]) q)).
Qed.

Lemma activeProject_shown_in_projects (st : App.State) (shown : Project) :
  App.activeProject st = Some shown → shown ∈ App.projects st.
Proof.
  intros Hshown. unfold App.activeProject in Hshown.
  assert (Hvis : shown ∈ App.visibleProjects st).
  { destruct (List.find _ _) as [q|] eqn:Hfind.
    - injection Hshown as ->. by apply find_some_elem_of in Hfind as [? _].
    - by apply head_elem_of. }
  by apply visibleProjects_elem_of in Hvis as [? _].
Qed.

(** X4. Saving the form of a new task (no task is being edited, or the
    edited task has the id [new]) appends the task, under the generated
    id, to the tasks of the project carrying [activeProjectId], and
    closes the form. When the generated id is not yet used in that
    project, ids that were distinct stay distinct and looking the
    generated id up finds the new task. *)
Theorem handleSaveTask_creates (newId : string) (task : Task) (st : App.State)
    (i : nat) (p : Project) :
  App.isEditing (task_id <$> App.editingTask st) = false →
  App.projects st !! i = Some p → project_id p = App.activeProjectId st →
  let st' := App.handleSaveTask newId task st in
  App.projects st' !! i
  = Some (App.withTasks (project_tasks p ++ [App.withId newId task]) p)
  ∧ App.isTaskModalOpen st' = false
  ∧ App.editingTask st' = None
  ∧ (newId ∉ map task_id (project_tasks p) →
     List.find (λ t, String.eqb (task_id t) newId)
               (project_tasks p ++ [App.withId newId task])
     = Some (App.withId newId task)
     ∧ (NoDup (map task_id (project_tasks p)) →
        NoDup (map task_id (project_tasks p ++ [App.withId newId task])))).
Proof.
  intros Hnew Hi Hid st'. subst st'. unfold App.handleSaveTask. rewrite Hnew.
  simpl. split.
  { by apply (inActiveProject_active
                (λ q, App.withTasks (project_tasks q ++ [App.withId newId task]) q)). }
  split; [done|]. split; [done|]. intros Hfresh.
  split; [by apply find_app_fresh|]. intros Hnd.
  rewrite map_app. simpl. apply NoDup_app. split; [done|].
  split; [|apply NoDup_singleton].
  intros x Hx Hx'. apply list_elem_of_singleton in Hx' as ->. contradiction.
Qed.

Lemma handleSaveTask_creates_witness :
  App.projects (App.handleSaveTask "t9" new_task (sample_app "u1" "p2" None)) !! 1
  = Some (mkProject "p2" "Mobile App Launch" [App.withId "t9" new_task] []
            ["u1"; "u2"]).
Proof.
  apply (handleSaveTask_creates "t9" new_task (sample_app "u1" "p2" None) 1
           (mkProject "p2" "Mobile App Launch" [] [] ["u1"; "u2"]));
    reflexivity.
Defined.

(** X5. Saving the form of an edited task keeps the ids of the active
    project's tasks, in order, puts the saved task at every position
    whose task carried its id and leaves the other positions alone; when
    no task of the project carries the id, the project is unchanged and
    the edit is lost without notice. *)
Theorem handleSaveTask_updates (newId : string) (task : Task) (st : App.State)
    (i : nat) (p : Project) :
  App.isEditing (task_id <$> App.editingTask st) = true →
  App.projects st !! i = Some p → project_id p = App.activeProjectId st →
  ∃ p' : Project,
    App.projects (App.handleSaveTask newId task st) !! i = Some p'
    ∧ map task_id (project_tasks p') = map task_id (project_tasks p)
    ∧ (∀ (j : nat) (t : Task), project_tasks p !! j = Some t →
         project_tasks p' !! j
         = Some (if String.eqb (task_id t) (task_id task) then task else t))
    ∧ (task_id task ∉ map task_id (project_tasks p) → p' = p).
Proof.
  intros Hedit Hi Hid. unfold App.handleSaveTask. rewrite Hedit. simpl.
  eexists. split.
  { by apply (inActiveProject_active
                (λ q, App.withTasks
                        (map (λ t, if String.eqb (task_id t) (task_id task)
                                   then task else t)
                             (project_tasks q)) q)). }
  simpl. split; [|split].
  - rewrite map_map. apply map_ext_in. intros t _.
    by destruct (String.eqb_spec (task_id t) (task_id task)) as [->|].
  - intros j t Hj. by rewrite list_lookup_fmap, Hj.
  - intros Hnot. destruct p as [pid pname tasks issues members].
    unfold App.withTasks. simpl in *. f_equal. clear Hi.
    induction tasks as [|t tasks IH]; [done|]. simpl in *.
    apply not_elem_of_cons in Hnot as [Hne Hnot].
    destruct (String.eqb_spec (task_id t) (task_id task)); [congruence|].
    f_equal. by apply IH.
Qed.

Lemma handleSaveTask_updates_witness :
  ∃ p' : Project,
    App.projects
      (App.handleSaveTask "unused" (App.withStatus "Done" edited_task)
         (sample_app "u1" "p1" (Some edited_task))) !! 0
    = Some p'
    ∧ map task_id (project_tasks p') = ["t1"; "t2"; "t3"]
    ∧ project_tasks p' !! 1 = Some (App.withStatus "Done" edited_task).
Proof.
  destruct (handleSaveTask_updates "unused" (App.withStatus "Done" edited_task)
              (sample_app "u1" "p1" (Some edited_task)) 0
              (mkProject "p1" "Website Redesign" three_tasks [] ["u1"; "u2"; "u3"]))
    as (p' & Hp' & Hids & Hpos & _); [reflexivity..|].
  exists p'. split; [exact Hp'|]. split; [by rewrite Hids|].
  by rewrite (Hpos 1 edited_task).
Defined.

(** X6. When the page shows a project whose id is not [activeProjectId]
    (the fallback to the first visible project), a new task is not added
    to the project shown: it is appended to the project that carries
    [activeProjectId], a project the current user cannot see, and the
    project shown stays as it was. *)
Theorem new_task_lands_in_activeProjectId (newId : string) (task : Task)
    (st : App.State) (shown hidden : Project) (i : nat) :
  App.activeProject st = Some shown →
  project_id shown ≠ App.activeProjectId st →
  App.isEditing (task_id <$> App.editingTask st) = false →
  App.projects st !! i = Some hidden →
  project_id hidden = App.activeProjectId st →
  (hidden ∉ App.visibleProjects st)
  ∧ App.projects (App.handleSaveTask newId task st) !! i
    = Some (App.withTasks (project_tasks hidden ++ [App.withId newId task]) hidden)
  ∧ shown ∈ App.projects (App.handleSaveTask newId task st).
Proof.
  intros Hshown Hne Hnew Hi Hid. split; [|split].
  - unfold App.activeProject in Hshown.
    destruct (List.find _ _) as [q|] eqn:Hfind.
    + injection Hshown as ->. apply find_some_elem_of in Hfind as [_ Hq].
      apply String.eqb_eq in Hq. contradiction.
    + intros Hvis. apply list_elem_of_In in Hvis.
      pose proof (find_none _ _ Hfind _ Hvis) as Hq. simpl in Hq.
      rewrite Hid, String.eqb_refl in Hq. discriminate.
  - by apply (handleSaveTask_creates_at newId task st i hidden).
  - pose proof (activeProject_shown_in_projects st shown Hshown) as Hin.
    apply list_elem_of_lookup in Hin as [k Hk].
    apply (list_elem_of_lookup_2 _ k).
    unfold App.handleSaveTask. rewrite Hnew. simpl.
    by apply inActiveProject_frame.
Qed.

Lemma new_task_lands_in_activeProjectId_witness :
  App.activeProject (sample_app "u3" "p2" None)
  = Some (mkProject "p1" "Website Redesign" three_tasks [] ["u1"; "u2"; "u3"])
  ∧ App.projects (App.handleSaveTask "t9" new_task (sample_app "u3" "p2" None)) !! 1
    = Some (mkProject "p2" "Mobile App Launch" [App.withId "t9" new_task] []
              ["u1"; "u2"]).
Proof.
  split; [reflexivity|].
  apply (new_task_lands_in_activeProjectId "t9" new_task
           (sample_app "u3" "p2" None)
           (mkProject "p1" "Website Redesign" three_tasks [] ["u1"; "u2"; "u3"])
           (mkProject "p2" "Mobile App Launch" [] [] ["u1"; "u2"]) 1);
    [reflexivity | discriminate | reflexivity | reflexivity | reflexivity].
Defined.

(** ** Board *)

Lemma columnTasks_elem_of (tasks : list Task) (status : string) (t : Task) :
  t ∈ KanbanView.columnTasks tasks status
  ↔ t ∈ tasks ∧ task_status t = status.
Proof.
  unfold KanbanView.columnTasks. rewrite filter_elem_of.
  by rewrite String.eqb_eq.
Qed.

(** Spreading a list over columns with distinct keys loses and repeats
    nothing that has one of the keys. *)
Lemma columns_Permutation (statuses : list string) (tasks : list Task) :
  NoDup statuses →
  concat (map (KanbanView.columnTasks tasks) statuses)
  ≡ₚ List.filter (λ t, JS.array_includes statuses (task_status t)) tasks.
Proof.
  intros Hnd. induction Hnd as [|s statuses Hfresh Hnd IH]; simpl.
  - induction tasks; simpl; auto.
  - rewrite IH. clear IH. unfold KanbanView.columnTasks.
    induction tasks as [|t tasks IHt]; simpl; [done|].
    destruct (String.eqb_spec (task_status t) s) as [Hs|Hs].
    + assert (Hnot : JS.array_includes statuses (task_status t) = false).
      { apply not_true_is_false. rewrite array_includes_elem_of. by rewrite Hs. }
      rewrite Hnot. simpl. by rewrite IHt.
    + destruct (JS.array_includes statuses (task_status t)); simpl.
      * rewrite <- Permutation_middle. by rewrite IHt.
      * exact IHt.
Qed.

(** X7. The board shows a task in the column of a status exactly when
    the task has that status; over all columns it shows every task whose
    status is one of [TASK_STATUSES] once, and no task twice. So a task
    whose status is not in [TASK_STATUSES] is on no column, and when all
    statuses are, the cards of the board are the tasks. *)
Theorem board_partitions_tasks (tasks : list Task) :
  (∀ (status : string) (t : Task),
     t ∈ KanbanView.columnTasks tasks status
     ↔ t ∈ tasks ∧ task_status t = status)
  ∧ concat (map snd (KanbanView.board tasks))
    ≡ₚ List.filter (λ t, JS.array_includes TASK_STATUSES (task_status t)) tasks
  ∧ (Forall (λ t, task_status t ∈ TASK_STATUSES) tasks →
     concat (map snd (KanbanView.board tasks)) ≡ₚ tasks).
Proof.
  assert (Hcards : concat (map snd (KanbanView.board tasks))
                   ≡ₚ List.filter
                        (λ t, JS.array_includes TASK_STATUSES (task_status t))
                        tasks).
  { unfold KanbanView.board. rewrite map_map.
    apply (columns_Permutation TASK_STATUSES tasks).
    apply (bool_decide_unpack (NoDup TASK_STATUSES)). vm_compute. exact I. }
  split; [intros status t; apply columnTasks_elem_of|].
  split; [exact Hcards|]. intros Hall. rewrite Hcards.
  clear Hcards. induction Hall as [|t tasks Ht Hall IH]; [done|].
  apply array_includes_elem_of in Ht.
  change (List.filter ?f (t :: tasks))
    with (if f t then t :: List.filter f tasks else List.filter f tasks).
  cbv beta. rewrite Ht. by rewrite IH.
Qed.

Lemma board_partitions_tasks_witness :
  concat (map snd (KanbanView.board three_tasks)) ≡ₚ three_tasks.
Proof.
  destruct (board_partitions_tasks three_tasks) as (_ & _ & Hall).
  apply Hall. unfold three_tasks. repeat apply List.Forall_cons.
  4: apply List.Forall_nil.
  all: apply (bool_decide_unpack _); vm_compute; exact I.
Defined.

Lemma handleTaskStatusChange_at (taskId status : string) (st : App.State)
    (i : nat) (p : Project) :
  App.projects st !! i = Some p → project_id p = App.activeProjectId st →
  App.projects (App.handleTaskStatusChange taskId status st) !! i
  = Some (App.withTasks
            (map (λ t, if String.eqb (task_id t) taskId
                       then App.withStatus status t else t)
                 (project_tasks p)) p).
Proof.
  intros Hi Hid. unfold App.handleTaskStatusChange. simpl.
  by apply (inActiveProject_active
              (λ q, App.withTasks
                      (map (λ t, if String.eqb (task_id t) taskId
                                 then App.withStatus status t else t)
                           (project_tasks q)) q)).
Qed.

(** X8. Dropping a dragged card on a column of the board gives the card
    the column's status: in the project carrying [activeProjectId] the
    card is then in that column, no card with its id is in any other
    column, every other task is as it was, and the drag reference is
    cleared. A drop with nothing dragged changes nothing. *)
Theorem drop_moves_card (taskId status : string) (st : App.State)
    (i : nat) (p : Project) (t : Task) :
  taskId ≠ "" →
  App.projects st !! i = Some p → project_id p = App.activeProjectId st →
  t ∈ project_tasks p → task_id t = taskId →
  ∃ p' : Project,
    KanbanView.drop (Some taskId) status st
    = (App.handleTaskStatusChange taskId status st, None)
    ∧ App.projects (App.handleTaskStatusChange taskId status st) !! i = Some p'
    ∧ App.withStatus status t ∈ KanbanView.columnTasks (project_tasks p') status
    ∧ (∀ (other : string) (u : Task), other ≠ status →
         u ∈ KanbanView.columnTasks (project_tasks p') other → task_id u ≠ taskId)
    ∧ (∀ u : Task, u ∈ project_tasks p → task_id u ≠ taskId →
         u ∈ project_tasks p')
    ∧ length (project_tasks p') = length (project_tasks p)
    ∧ KanbanView.drop None status st = (st, None).
Proof.
  intros Hne Hi Hid Ht Htid.
  eexists. split.
  { unfold KanbanView.drop, KanbanView.handleDrop.
    apply truthy_nonempty in Hne. by rewrite Hne. }
  split; [by apply handleTaskStatusChange_at|]. simpl.
  split; [|split; [|split; [|split]]].
  - apply columnTasks_elem_of. split; [|done].
    apply list_elem_of_fmap. exists t. split; [|done].
    by rewrite Htid, String.eqb_refl.
  - intros other u Hother Hu. apply columnTasks_elem_of in Hu as [Hu Hstatus].
    apply list_elem_of_fmap in Hu as (v & -> & Hv).
    destruct (String.eqb_spec (task_id v) taskId) as [Heq|Hneq]; [|done].
    simpl in Hstatus. congruence.
  - intros u Hu Hneq. apply list_elem_of_fmap. exists u. split; [|done].
    by destruct (String.eqb_spec (task_id u) taskId).
  - apply length_map.
  - reflexivity.
Qed.

Lemma drop_moves_card_witness :
  ∃ p' : Project,
    KanbanView.drop (Some "t2") "Done" (sample_app "u1" "p1" None)
    = (App.handleTaskStatusChange "t2" "Done" (sample_app "u1" "p1" None), None)
    ∧ App.projects
        (App.handleTaskStatusChange "t2" "Done" (sample_app "u1" "p1" None)) !! 0
      = Some p'
    ∧ App.withStatus "Done" edited_task
      ∈ KanbanView.columnTasks (project_tasks p') "Done".
Proof.
  destruct (drop_moves_card "t2" "Done" (sample_app "u1" "p1" None) 0
              (mkProject "p1" "Website Redesign" three_tasks [] ["u1"; "u2"; "u3"])
              edited_task)
    as (p' & Hdrop & Hp' & Hcolumn & _).
  - discriminate.
  - reflexivity.
  - reflexivity.
  - simpl. unfold three_tasks.
    apply list_elem_of_further, list_elem_of_here.
  - reflexivity.
  - by exists p'.
Defined.

(** ** Bulk update *)

Lemma applyUpdates_status (status : string) (t : Task) :
  applyUpdates t (statusUpdate status) = App.withStatus status t.
Proof. by destruct t. Qed.

Lemma handleBulkUpdateTasks_at (taskIds : list string) (updates : TaskUpdates)
    (st : App.State) (i : nat) (p : Project) :
  App.projects st !! i = Some p → project_id p = App.activeProjectId st →
  App.projects (App.handleBulkUpdateTasks taskIds updates st) !! i
  = Some (App.withTasks
            (map (λ t, if JS.array_includes taskIds (task_id t)
                       then applyUpdates t updates else t)
                 (project_tasks p)) p).
Proof.
  intros Hi Hid. unfold App.handleBulkUpdateTasks. simpl.
  by apply (inActiveProject_active
              (λ q, App.withTasks
                      (map (λ t, if JS.array_includes taskIds (task_id t)
                                 then applyUpdates t updates else t)
                           (project_tasks q)) q)).
Qed.

(** X9. A bulk status change keeps the tasks of the active project in
    place: the task at a position gets the new status when its id is one
    of the given ids and is otherwise as it was, so the ids and their
    order do not change. With a single id it does what
    [handleTaskStatusChange] does for that id. *)
Theorem handleBulkUpdateTasks_status (taskIds : list string) (status : string)
    (st : App.State) :
  (∀ (i : nat) (p : Project),
     App.projects st !! i = Some p → project_id p = App.activeProjectId st →
     ∃ p' : Project,
       App.projects (App.handleBulkUpdateTasks taskIds (statusUpdate status) st) !! i
       = Some p'
       ∧ map task_id (project_tasks p') = map task_id (project_tasks p)
       ∧ ∀ (j : nat) (t : Task), project_tasks p !! j = Some t →
           project_tasks p' !! j
           = Some (if bool_decide (task_id t ∈ taskIds)
                   then App.withStatus status t else t))
  ∧ ∀ taskId : string,
      App.projects (App.handleBulkUpdateTasks [taskId] (statusUpdate status) st)
      = App.projects (App.handleTaskStatusChange taskId status st).
Proof.
  split.
  - intros i p Hi Hid. eexists. split; [by apply handleBulkUpdateTasks_at|].
    simpl. split.
    + rewrite map_map. apply map_ext. intros t.
      destruct (JS.array_includes taskIds (task_id t)); [|done].
      by rewrite applyUpdates_status.
    + intros j t Hj. rewrite list_lookup_fmap, Hj. simpl. f_equal.
      rewrite applyUpdates_status.
      destruct (JS.array_includes taskIds (task_id t)) eqn:Hinc.
      * apply array_includes_elem_of in Hinc. by rewrite bool_decide_true.
      * rewrite bool_decide_false; [done|]. intros Hin.
        apply array_includes_elem_of in Hin. congruence.
  - intros taskId. unfold App.handleBulkUpdateTasks, App.handleTaskStatusChange.
    simpl. unfold App.inActiveProject. apply map_ext. intros p.
    destruct (String.eqb (project_id p) (App.activeProjectId st)); [|done].
    f_equal. apply map_ext. intros t. simpl.
    rewrite orb_false_r, applyUpdates_status, String.eqb_sym. done.
Qed.

Lemma handleBulkUpdateTasks_status_witness :
  ∃ p' : Project,
    App.projects
      (App.handleBulkUpdateTasks ["t1"; "t3"] (statusUpdate "On Hold")
         (sample_app "u1" "p1" None)) !! 0
    = Some p'
    ∧ map task_id (project_tasks p') = ["t1"; "t2"; "t3"]
    ∧ map task_status (project_tasks p') = ["On Hold"; "Doing"; "On Hold"].
Proof.
  destruct (handleBulkUpdateTasks_status ["t1"; "t3"] "On Hold"
              (sample_app "u1" "p1" None)) as [Hat _].
  destruct (Hat 0 (mkProject "p1" "Website Redesign" three_tasks []
                     ["u1"; "u2"; "u3"]) eq_refl eq_refl)
    as (p' & Hp' & Hids & _).
  exists p'. split; [exact Hp'|]. split; [exact Hids|].
  vm_compute in Hp'. injection Hp' as <-. reflexivity.
Defined.

(** X10. The bulk action bar of the task list sends the update for every
    selected id, shown or hidden by the filters, and clears the
    selection: in the active project a task gets the update exactly when
    its id was selected, and every other task is as it was. *)
Theorem bulk_action_reaches_every_selected_task (updates : TaskUpdates)
    (view : TaskListView.State) (st : App.State) (i : nat) (p : Project) :
  App.projects st !! i = Some p → project_id p = App.activeProjectId st →
  let call := (TaskListView.bulkUpdate updates view).1 in
  let view' := (TaskListView.bulkUpdate updates view).2 in
  TaskListView.selectedIds view' = ∅
  ∧ TaskListView.activeFilters view' = TaskListView.activeFilters view
  ∧ ∃ p' : Project,
      App.projects (App.handleBulkUpdateTasks call.1 call.2 st) !! i = Some p'
      ∧ ∀ (j : nat) (t : Task), project_tasks p !! j = Some t →
          project_tasks p' !! j
          = Some (if bool_decide (task_id t ∈ TaskListView.selectedIds view)
                  then applyUpdates t updates else t).
Proof.
  intros Hi Hid call view'. subst call view'. simpl.
  split; [done|]. split; [done|].
  eexists. split; [by apply handleBulkUpdateTasks_at|]. simpl.
  intros j t Hj. rewrite list_lookup_fmap, Hj. simpl. f_equal.
  destruct (JS.array_includes _ (task_id t)) eqn:Hinc.
  - apply array_includes_elem_of, elem_of_elements in Hinc.
    by rewrite bool_decide_true.
  - rewrite bool_decide_false; [done|]. intros Hin.
    apply elem_of_elements, array_includes_elem_of in Hin. congruence.
Qed.

Lemma bulk_action_reaches_every_selected_task_witness :
  TaskListView.filteredTasks JS.toLowerCase_ascii three_tasks (TaskListView.activeFilters filtered_view)
  = [edited_task]
  ∧ ∃ p' : Project,
      App.projects
        (App.handleBulkUpdateTasks
           (TaskListView.bulkUpdate (priorityUpdate "Low") filtered_view).1.1
           (priorityUpdate "Low") (sample_app "u1" "p1" None)) !! 0
      = Some p'
      ∧ task_priority <$> project_tasks p' !! 2 = Some "Low".
Proof.
  split; [vm_compute; reflexivity|].
  destruct (bulk_action_reaches_every_selected_task (priorityUpdate "Low")
              filtered_view (sample_app "u1" "p1" None) 0
              (mkProject "p1" "Website Redesign" three_tasks []
                 ["u1"; "u2"; "u3"]) eq_refl eq_refl)
    as (_ & _ & p' & Hp' & Hpos).
  exists p'. split; [exact Hp'|].
  rewrite (Hpos 2 (sample_task "t3" "Launch" "To Do" "High" "2024-01-10"
                     "2024-01-10" TypeMilestone) eq_refl).
  rewrite bool_decide_true; [reflexivity|].
  apply elem_of_union. right. by apply elem_of_singleton.
Defined.

(** ** Issues *)

Lemma withClosedDate_same (i : Issue) :
  App.withClosedDate (issue_closedDate i) i = i.
Proof. by destruct i. Qed.

Lemma processIssue_consistent (today : string) (issue : Issue) :
  today ≠ "" → closedDate_consistent (App.processIssue today issue).
Proof.
  intros Htoday. apply truthy_nonempty in Htoday.
  unfold App.processIssue, closedDate_consistent.
  destruct (String.eqb_spec (issue_status issue) "Resolved") as [Hr|Hr];
    destruct (String.eqb_spec (issue_status issue) "Closed") as [Hc|Hc];
    destruct (String.eqb_spec (issue_status issue) "Open") as [Ho|Ho];
    destruct (String.eqb_spec (issue_status issue) "In Progress") as [Hp|Hp];
    try congruence;
    destruct (JS.truthy (JS.String_or_empty (issue_closedDate issue))) eqn:Hd;
    simpl; rewrite ?Hd;
    (split; [intros [?|?]; first [congruence | reflexivity]
            | intros [?|?]; first [congruence | by rewrite ?Htoday]]).
Qed.

(** X11. The closed date [handleSaveIssue] gives the issue it saves:
    none when the issue is Open or In Progress; when it is Resolved or
    Closed, the date the form holds, or today's date if the form holds
    none. Nothing but the closed date is changed, an issue that already
    obeys the rule is saved as it is, and the result obeys the rule. *)
Theorem processIssue_closedDate (today : string) (issue : Issue) :
  today ≠ "" →
  let saved := App.processIssue today issue in
  saved = App.withClosedDate (issue_closedDate saved) issue
  ∧ (issue_status issue = "Open" ∨ issue_status issue = "In Progress" →
     issue_closedDate saved = None)
  ∧ (issue_status issue = "Resolved" ∨ issue_status issue = "Closed" →
     issue_closedDate saved
     = Some (if JS.truthy (JS.String_or_empty (issue_closedDate issue))
             then JS.String_or_empty (issue_closedDate issue) else today))
  ∧ closedDate_consistent saved
  ∧ (closedDate_consistent issue → saved = issue)
  ∧ App.processIssue today saved = saved.
Proof.
  intros Htoday saved.
  assert (Hfix : ∀ i : Issue, closedDate_consistent i →
                   App.processIssue today i = i).
  { intros i [Hopen Hdone]. unfold App.processIssue.
    destruct (String.eqb_spec (issue_status i) "Resolved") as [Hr|Hr];
      destruct (String.eqb_spec (issue_status i) "Closed") as [Hc|Hc];
      destruct (String.eqb_spec (issue_status i) "Open") as [Ho|Ho];
      destruct (String.eqb_spec (issue_status i) "In Progress") as [Hp|Hp];
      try congruence; simpl;
      rewrite ?Hdone by tauto; simpl; try reflexivity;
      (rewrite <- Hopen by tauto; apply withClosedDate_same). }
  pose proof (processIssue_consistent today issue Htoday) as Hcons.
  assert (Hsame : saved = App.withClosedDate (issue_closedDate saved) issue).
  { subst saved. unfold App.processIssue.
    destruct (_ && _); [by destruct issue|].
    destruct (_ || _); [by destruct issue|].
    symmetry. apply withClosedDate_same. }
  split; [exact Hsame|split; [|split; [|split; [exact Hcons|split]]]].
  - intros Hopen. apply Hcons. fold saved. rewrite Hsame. exact Hopen.
  - intros Hdone. subst saved. unfold App.processIssue.
    assert (Hd : String.eqb (issue_status issue) "Resolved"
                 || String.eqb (issue_status issue) "Closed" = true).
    { destruct Hdone as [-> | ->]; reflexivity. }
    rewrite Hd. simpl.
    destruct (JS.truthy (JS.String_or_empty (issue_closedDate issue))) eqn:Ht;
      simpl; [|reflexivity].
    assert (Ho : String.eqb (issue_status issue) "Open"
                 || String.eqb (issue_status issue) "In Progress" = false).
    { destruct Hdone as [-> | ->]; reflexivity. }
    rewrite Ho. unfold JS.String_or_empty in *.
    destruct (issue_closedDate issue) as [d|]; [|discriminate].
    by destruct (JS.truthy d).
  - apply Hfix.
  - by apply Hfix.
Qed.

Lemma processIssue_closedDate_witness :
  issue_closedDate (App.processIssue "2024-03-05" (sample_issue "i1" "Resolved" None))
  = Some "2024-03-05"
  ∧ issue_closedDate
      (App.processIssue "2024-03-05"
         (sample_issue "i1" "In Progress" (Some "2024-03-04")))
    = None.
Proof.
  split.
  - destruct (processIssue_closedDate "2024-03-05"
                (sample_issue "i1" "Resolved" None)) as (_ & _ & Hdone & _);
      [discriminate|].
    rewrite Hdone; [reflexivity | by left].
  - destruct (processIssue_closedDate "2024-03-05"
                (sample_issue "i1" "In Progress" (Some "2024-03-04")))
      as (_ & Hopen & _); [discriminate|].
    apply Hopen. by right.
Defined.

Lemma inActiveProject_elem_of (change : Project → Project) (st : App.State)
    (q : Project) :
  q ∈ App.inActiveProject change st →
  ∃ p : Project, p ∈ App.projects st ∧ (q = p ∨ q = change p).
Proof.
  unfold App.inActiveProject. intros Hq.
  apply list_elem_of_fmap in Hq as (p & -> & Hp). exists p. split; [done|].
  destruct (String.eqb _ _); [by right | by left].
Qed.

(** X12. Saving an issue keeps the closed-date rule: when every issue of
    every project obeys it before [handleSaveIssue], every issue of
    every project obeys it afterwards, whatever the form held; the tasks
    of all projects are as they were, and the form is closed. *)
Theorem handleSaveIssue_keeps_closedDate_rule (newId today : string)
    (issue : Issue) (st : App.State) :
  today ≠ "" →
  (∀ p : Project, p ∈ App.projects st →
     Forall closedDate_consistent (project_issues p)) →
  let st' := App.handleSaveIssue newId today issue st in
  (∀ p : Project, p ∈ App.projects st' →
     Forall closedDate_consistent (project_issues p))
  ∧ map project_tasks (App.projects st') = map project_tasks (App.projects st)
  ∧ App.isIssueModalOpen st' = false
  ∧ App.editingIssue st' = None.
Proof.
  intros Htoday Hinv st'. subst st'.
  pose proof (processIssue_consistent today issue Htoday) as Hcons.
  unfold App.handleSaveIssue. simpl.
  split; [|split; [|done]].
  - intros q Hq.
    destruct (App.isEditing _);
      apply inActiveProject_elem_of in Hq as (p & Hp & [-> | ->]);
      try (by apply Hinv); simpl.
    + apply Forall_fmap. eapply Forall_impl; [by apply Hinv|].
      intros i Hi. simpl. by destruct (String.eqb _ _).
    + apply Forall_app. split; [by apply Hinv|].
      apply Forall_singleton. unfold closedDate_consistent in *. exact Hcons.
  - destruct (App.isEditing _); unfold App.inActiveProject;
      rewrite map_map; apply map_ext; intros p;
      by destruct (String.eqb _ _).
Qed.

Lemma handleSaveIssue_keeps_closedDate_rule_witness :
  Forall (λ p, Forall closedDate_consistent (project_issues p))
    (App.projects
       (App.handleSaveIssue "i9" "2024-03-05" (sample_issue "new" "Closed" None)
          (sample_app "u1" "p1" None))).
Proof.
  destruct (handleSaveIssue_keeps_closedDate_rule "i9" "2024-03-05"
              (sample_issue "new" "Closed" None) (sample_app "u1" "p1" None))
    as [Hrule _]; [discriminate| |by apply Forall_forall].
  intros p Hp. simpl in Hp.
  apply elem_of_cons in Hp as [->|Hp]; [apply Forall_nil_2|].
  apply elem_of_cons in Hp as [->|Hp]; [apply Forall_nil_2|].
  by apply not_elem_of_nil in Hp.
Defined.

(** X13. The project id the application starts with: the saved id when
    a project carries it, otherwise the id of the first project, and the
    empty text when there is no project. The result is always the id of
    an existing project or the empty text. *)
Theorem initialActiveProjectId_names_a_project (savedId : option string)
    (ps : list Project) :
  let id := App.initialActiveProjectId savedId ps in
  (id = "" ∨ id ∈ map project_id ps)
  ∧ (∀ saved : string, savedId = Some saved → saved ∈ map project_id ps →
       id = saved)
  ∧ ((∀ saved : string, savedId = Some saved → saved ∉ map project_id ps) →
     id = default "" (project_id <$> head ps)).
Proof.
  intros id. subst id. unfold App.initialActiveProjectId.
  assert (Hfirst : ∀ first : string,
            first = match ps with
                    | p :: _ => if JS.truthy (project_id p) then project_id p else ""
                    | [] => ""
                    end →
            (first = "" ∨ first ∈ map project_id ps)
            ∧ first = default "" (project_id <$> head ps)).
  { intros first ->. destruct ps as [|p ps]; simpl; [by split; [left|]|].
    unfold JS.truthy. destruct (String.eqb_spec (project_id p) "") as [->|Hne];
      simpl; split; try done; [by left | right; apply list_elem_of_here]. }
  destruct savedId as [saved|].
  - destruct (List.find _ ps) as [found|] eqn:Hfind.
    + apply find_some_elem_of in Hfind as [Hin Heq].
      apply String.eqb_eq in Heq.
      assert (Hsaved : saved ∈ map project_id ps).
      { rewrite <- Heq. apply list_elem_of_fmap. by exists found. }
      split; [by right|]. split; [by intros ? [= <-]|].
      intros Hnot. by destruct (Hnot saved eq_refl).
    + destruct (Hfirst _ eq_refl) as [Hor Hdef].
      split; [exact Hor|]. split; [|by intros _].
      intros saved' [= <-] Hin. apply list_elem_of_fmap in Hin as (p & Hp & Hin).
      apply list_elem_of_In in Hin.
      pose proof (find_none _ _ Hfind p Hin) as Hno. simpl in Hno.
      rewrite <- Hp, String.eqb_refl in Hno. discriminate.
  - destruct (Hfirst _ eq_refl) as [Hor Hdef].
    split; [exact Hor|]. split; [by intros ? [=]|by intros _].
Qed.

Lemma initialActiveProjectId_names_a_project_witness :
  App.initialActiveProjectId (Some "p2") sample_projects = "p2"
  ∧ App.initialActiveProjectId (Some "deleted") sample_projects = "p1".
Proof.
  split.
  - destruct (initialActiveProjectId_names_a_project (Some "p2") sample_projects)
      as (_ & Hsaved & _).
    apply Hsaved; [reflexivity|]. simpl.
    apply list_elem_of_further, list_elem_of_here.
  - destruct (initialActiveProjectId_names_a_project (Some "deleted")
                sample_projects) as (_ & _ & Hfallback).
    apply Hfallback. intros saved [= <-] Hin. simpl in Hin.
    apply elem_of_cons in Hin as [?|Hin]; [discriminate|].
    apply elem_of_cons in Hin as [?|Hin]; [discriminate|].
    by apply not_elem_of_nil in Hin.
Defined.

(** ** The project list *)

Lemma NoDup_map_filter {A : Type} (f : A → string) (g : A → bool) (l : list A) :
  NoDup (map f l) → NoDup (map f (List.filter g l)).
Proof.
  induction l as [|x l IH]; simpl; [done|]. intros Hnd.
  apply NoDup_cons in Hnd as [Hx Hnd]. destruct (g x); simpl; [|by apply IH].
  apply NoDup_cons. split; [|by apply IH]. intros Hin. apply Hx.
  apply list_elem_of_fmap in Hin as (y & -> & Hy).
  apply filter_elem_of in Hy as [Hy _]. apply list_elem_of_fmap. by exists y.
Qed.

Lemma handleUpdateProject_ids (id name : string) (members : list string)
    (st : App.State) :
  map project_id (App.projects (App.handleUpdateProject id name members st))
  = map project_id (App.projects st).
Proof.
  unfold App.handleUpdateProject. simpl. rewrite map_map. apply map_ext.
  intros p. by destruct (String.eqb (project_id p) id).
Qed.

Lemma map_not_nil {A B : Type} (f : A → B) (l : list A) :
  map f l = map f [] → l = [].
Proof. by destruct l. Qed.

Lemma well_formed_of_ids (st st' : App.State) :
  map project_id (App.projects st') = map project_id (App.projects st) →
  App.activeProjectId st' = App.activeProjectId st →
  well_formed st → well_formed st'.
Proof.
  unfold well_formed. intros Hids Hactive (Hne & Hnd & Hin).
  rewrite Hids, Hactive. split; [|by split].
  intros Hnil. apply Hne. rewrite Hnil in Hids. symmetry in Hids.
  by apply map_not_nil in Hids.
Qed.

Lemma handle_well_formed (ev : App.Event) (st st' : App.State) :
  App.deliverable ev st → App.handle ev st = Some st' →
  well_formed st → well_formed st'.
Proof.
  intros Hev Hhandle Hwf.
  destruct ev as [p|id|newId name members|id name members|id|t|newId task
                 |taskId newStatus|taskIds updates|newId today issue];
    simpl in Hev, Hhandle.
  - injection Hhandle as <-. destruct Hwf as (Hne & Hnd & _).
    split; [done|]. split; [done|]. simpl.
    apply visibleProjects_elem_of in Hev as [Hin _].
    apply list_elem_of_fmap. by exists p.
  - injection Hhandle as <-. exact Hwf.
  - injection Hhandle as <-. destruct Hwf as (Hne & Hnd & _).
    unfold well_formed. simpl. rewrite map_app. simpl.
    split; [by destruct (App.projects st)|]. split.
    + apply NoDup_app. split; [done|]. split; [|apply NoDup_singleton].
      intros x Hx Hx'. apply list_elem_of_singleton in Hx' as ->. contradiction.
    + apply elem_of_app. right. apply list_elem_of_here.
  - injection Hhandle as <-.
    apply (well_formed_of_ids st); [apply handleUpdateProject_ids|done|done].
  - unfold App.handleDeleteProject in Hhandle.
    destruct (length (App.projects st) <=? 1); [by injection Hhandle as <-|].
    destruct (List.filter _ _) as [|first remaining] eqn:Hfilter; [done|].
    injection Hhandle as <-. destruct Hwf as (Hne & Hnd & _).
    assert (Hnd' : NoDup (map project_id (first :: remaining))).
    { rewrite <- Hfilter. by apply NoDup_map_filter. }
    unfold well_formed. simpl. split; [done|]. split; [exact Hnd'|].
    apply list_elem_of_here.
  - injection Hhandle as <-. exact Hwf.
  - injection Hhandle as <-. apply (well_formed_of_ids st); [|done|done].
    unfold App.handleSaveTask. simpl.
    destruct (App.isEditing _); by apply inActiveProject_frame.
  - injection Hhandle as <-. apply (well_formed_of_ids st); [|done|done].
    by apply inActiveProject_frame.
  - injection Hhandle as <-. apply (well_formed_of_ids st); [|done|done].
    by apply inActiveProject_frame.
  - injection Hhandle as <-. apply (well_formed_of_ids st); [|done|done].
    unfold App.handleSaveIssue. simpl.
    destruct (App.isEditing _); by apply inActiveProject_frame.
Qed.

(** X14. From a state that has a project, distinct project ids and an
    [activeProjectId] naming a project, the sidebar, the project form
    and the task and issue handlers only lead to such states, as long
    as generated project ids are new. In every such state deleting a
    project returns normally, and a project carries [activeProjectId]. *)
Theorem reachable_well_formed (init st : App.State) :
  well_formed init → App.reachable init st →
  well_formed st
  ∧ (∀ id : string, is_Some (App.handleDeleteProject id st))
  ∧ ∃ (i : nat) (p : Project),
      App.projects st !! i = Some p ∧ project_id p = App.activeProjectId st.
Proof.
  intros Hinit Hreach.
  assert (Hwf : well_formed st).
  { induction Hreach as [|ev st st' Hreach IH Hev Hhandle]; [done|].
    by apply (handle_well_formed ev st). }
  split; [exact Hwf|]. destruct Hwf as (Hne & Hnd & Hin). split.
  - intros id. unfold App.handleDeleteProject.
    destruct (length (App.projects st) <=? 1) eqn:Hlen; [by eexists|].
    apply Nat.leb_gt in Hlen.
    pose proof (filter_not_nil_of_two_distinct id _ Hnd Hlen) as Hfilter.
    destruct (List.filter _ _); [done|by eexists].
  - apply list_elem_of_fmap in Hin as (p & Hid & Hp).
    apply list_elem_of_lookup in Hp as [i Hi]. by exists i, p.
Qed.

Lemma reachable_well_formed_witness :
  well_formed (App.handleCreateProject "p3" "Launch" ["u1"]
                 (sample_app "u1" "p1" None)).
Proof.
  destruct (reachable_well_formed (sample_app "u1" "p1" None)
              (App.handleCreateProject "p3" "Launch" ["u1"]
                 (sample_app "u1" "p1" None))) as [Hwf _]; [| |exact Hwf].
  - split; [discriminate|]. split.
    + apply (bool_decide_unpack (NoDup (map project_id sample_projects))).
      vm_compute. exact I.
    + apply list_elem_of_here.
  - apply (App.reachable_handle _ (App.CreateProject "p3" "Launch" ["u1"])
             (sample_app "u1" "p1" None)); [apply App.reachable_init| |done].
    simpl. intros Hin.
    apply elem_of_cons in Hin as [?|Hin]; [discriminate|].
    apply elem_of_cons in Hin as [?|Hin]; [discriminate|].
    by apply not_elem_of_nil in Hin.
Defined.

(** ** The project form *)

Lemma find_app_fresh_l (id : string) (l r : list Project) :
  id ∉ map project_id l →
  List.find (λ p, String.eqb (project_id p) id) (l ++ r)
  = List.find (λ p, String.eqb (project_id p) id) r.
Proof.
  induction l as [|q l IH]; simpl; [done|]. intros Hfresh.
  apply not_elem_of_cons in Hfresh as [Hne Hfresh].
  destruct (String.eqb_spec (project_id q) id); [congruence|]. by apply IH.
Qed.

Lemma filter_ids_fresh (id : string) (g : Project → bool) (l : list Project) :
  id ∉ map project_id l → id ∉ map project_id (List.filter g l).
Proof.
  intros Hfresh Hin. apply Hfresh.
  apply list_elem_of_fmap in Hin as (p & -> & Hp).
  apply filter_elem_of in Hp as [Hp _]. apply list_elem_of_fmap. by exists p.
Qed.

Lemma handleCreateProject_activeProject (newId name : string)
    (members : list string) (st : App.State) (u : User) :
  newId ∉ map project_id (App.projects st) → App.currentUser st = Some u →
  App.activeProject (App.handleCreateProject newId name members st)
  = if App.isPrivileged u || JS.array_includes members (user_id u)
    then Some (mkProject newId name [] [] members)
    else head (App.visibleProjects st).
Proof.
  intros Hfresh Hu. unfold App.activeProject, App.visibleProjects.
  change (App.currentUser (App.handleCreateProject newId name members st))
    with (App.currentUser st).
  rewrite Hu. simpl.
  destruct (App.isPrivileged u); simpl.
  - rewrite find_app_fresh_l by done. simpl. by rewrite String.eqb_refl.
  - rewrite List.filter_app. simpl.
    destruct (JS.array_includes members (user_id u)).
    + rewrite find_app_fresh_l by by apply filter_ids_fresh.
      simpl. by rewrite String.eqb_refl.
    + rewrite find_app_fresh_l by by apply filter_ids_fresh.
      simpl. by rewrite app_nil_r.
Qed.

Lemma ProjectForm_selected_subseteq (ws : list User) (f : ProjectForm.State) :
  ProjectForm.reachable None ws f →
  ProjectForm.selectedMembers f ⊆ list_to_set (map user_id ws).
Proof.
  induction 1 as [|ev f Hreach IH Hev]; [done|].
  destruct ev as [value|id|]; simpl in *; [done| |].
  - destruct (bool_decide _).
    { intros x Hx. apply elem_of_difference in Hx as [Hx _]. by apply IH. }
    apply union_subseteq. split; [done|].
    apply singleton_subseteq_l, elem_of_list_to_set. exact Hev.
  - unfold ProjectForm.toggleAll.
    destruct (_ =? _); simpl; [apply empty_subseteq | done].
Qed.

(** X15. Creating a project through the form: the new-project button
    exists exactly when the current user's role is Admin or Owner (a
    Member or a Viewer has no button), and clicking it opens the form
    on no project and changes nothing else; the form starts with every
    workspace member ticked and can only tick workspace members; when
    the name is not blank, submitting appends the project with the
    ticked members and no tasks, and the page then shows the new
    project. *)
Theorem project_form_creates_shown_project (trim : string → string)
    (newId : string) (st st1 : App.State) (f : ProjectForm.State) :
  (is_Some (App.newProjectClick st)
   ↔ ∃ u : User, App.currentUser st = Some u
                 ∧ (user_role u = "Admin" ∨ user_role u = "Owner"))
  ∧ (∀ u : User, App.currentUser st = Some u →
       user_role u = "Member" ∨ user_role u = "Viewer" →
       App.newProjectClick st = None)
  ∧ (App.newProjectClick st = Some st1 →
     App.isProjectModalOpen st1 = true ∧ App.projectToEdit st1 = None
     ∧ App.projects st1 = App.projects st
     ∧ App.workspaceMembers st1 = App.workspaceMembers st
     ∧ App.currentUserId st1 = App.currentUserId st
     ∧ App.activeProjectId st1 = App.activeProjectId st)
  ∧ (App.newProjectClick st = Some st1 →
     ProjectForm.reachable (App.projectToEdit st1) (App.workspaceMembers st1) f →
     newId ∉ map project_id (App.projects st) →
     JS.truthy (trim (ProjectForm.name f)) = true →
     ProjectForm.selectedMembers
       (ProjectForm.initialState (App.projectToEdit st1)
          (App.workspaceMembers st1))
     = list_to_set (map user_id (App.workspaceMembers st))
     ∧ ∃ members : list string,
         ProjectForm.submit trim f = Some (ProjectForm.name f, members)
         ∧ (∀ id : string, id ∈ members ↔ id ∈ ProjectForm.selectedMembers f)
         ∧ (∀ id : string, id ∈ members →
              id ∈ map user_id (App.workspaceMembers st))
         ∧ let created := mkProject newId (ProjectForm.name f) [] [] members in
           let st2 :=
             App.onSubmitProject newId (ProjectForm.name f) members st1 in
           App.projects st2 = App.projects st ++ [created]
           ∧ App.activeProject st2 = Some created
           ∧ App.isProjectModalOpen st2 = false).
Proof.
  assert (Hrole : ∀ u : User,
            App.isPrivileged u = true
            ↔ user_role u = "Admin" ∨ user_role u = "Owner").
  { intros u. unfold App.isPrivileged. rewrite orb_true_iff.
    by rewrite !String.eqb_eq. }
  split; [|split; [|split]].
  { unfold App.newProjectClick.
    destruct (App.currentUser st) as [u|] eqn:Hu.
    - destruct (App.isPrivileged u) eqn:Hpriv.
      + split; [|by eexists]. intros _. exists u. split; [done|].
        by apply Hrole.
      + split; [by intros [? ?]|]. intros (u' & [= <-] & Hu').
        apply Hrole in Hu'. congruence.
    - split; [by intros [? ?]|]. by intros (u' & ? & _). }
  { intros u Hu Hlow. unfold App.newProjectClick. rewrite Hu.
    destruct (App.isPrivileged u) eqn:Hpriv; [|done].
    apply Hrole in Hpriv.
    destruct Hlow as [Hlow|Hlow], Hpriv as [Hpriv|Hpriv]; congruence. }
  { intros Hclick. unfold App.newProjectClick in Hclick.
    destruct (App.currentUser st) as [u|]; [|done].
    destruct (App.isPrivileged u); [|done].
    by injection Hclick as <-. }
  intros Hclick Hreach Hfresh Hname.
  unfold App.newProjectClick in Hclick.
  destruct (App.currentUser st) as [u|] eqn:Hu; [|done].
  destruct (App.isPrivileged u) eqn:Hpriv; [|done].
  injection Hclick as <-. simpl in *.
  split; [done|].
  exists (elements (ProjectForm.selectedMembers f)).
  split; [unfold ProjectForm.submit; by rewrite Hname|].
  split; [intros id; apply elem_of_elements|].
  split.
  { intros id Hid. apply elem_of_elements in Hid.
    apply ProjectForm_selected_subseteq in Hreach.
    apply Hreach in Hid. by apply elem_of_list_to_set in Hid. }
  unfold App.onSubmitProject. simpl. split; [done|]. split; [|done].
  erewrite (handleCreateProject_activeProject newId _ _ _ u).
  - by rewrite Hpriv.
  - exact Hfresh.
  - exact Hu.
Qed.

Lemma project_form_creates_shown_project_witness :
  ∃ (st1 : App.State) (members : list string),
    App.newProjectClick (sample_app "u1" "p1" None) = Some st1
    ∧ App.activeProject (App.onSubmitProject "p3" "Launch" members st1)
      = Some (mkProject "p3" "Launch" [] [] members).
Proof.
  exists (default (sample_app "u1" "p1" None)
            (App.newProjectClick (sample_app "u1" "p1" None))).
  destruct (project_form_creates_shown_project trim_trimmed "p3"
              (sample_app "u1" "p1" None)
              (default (sample_app "u1" "p1" None)
                 (App.newProjectClick (sample_app "u1" "p1" None)))
              (ProjectForm.setName "Launch"
                 (ProjectForm.initialState None sample_users)))
    as (_ & _ & _ & Hform).
  destruct (Hform eq_refl)
    as (_ & members & _ & _ & _ & _ & Hshown & _).
  - apply (ProjectForm.reachable_handle None sample_users
             (ProjectForm.SetName "Launch")); [|exact I].
    apply ProjectForm.reachable_mount.
  - simpl. intros Hin.
    apply elem_of_cons in Hin as [?|Hin]; [discriminate|].
    apply elem_of_cons in Hin as [?|Hin]; [discriminate|].
    by apply not_elem_of_nil in Hin.
  - reflexivity.
  - exists members. split; [reflexivity|]. exact Hshown.
Defined.

(** X16. In the form of a new project over members with distinct ids,
    the ticked ids are always ids of workspace members, so the count
    test of [toggleAll] is the test that everyone is ticked: it unticks
    everyone when everyone is ticked and ticks everyone otherwise.
    Clicking a member twice restores the form. *)
Theorem project_form_toggles (ws : list User) (f : ProjectForm.State) :
  NoDup (map user_id ws) → ProjectForm.reachable None ws f →
  let everyone : gset string := list_to_set (map user_id ws) in
  ProjectForm.selectedMembers f ⊆ everyone
  ∧ (ProjectForm.selectedMembers f = everyone →
     ProjectForm.selectedMembers (ProjectForm.toggleAll ws f) = ∅)
  ∧ (ProjectForm.selectedMembers f ≠ everyone →
     ProjectForm.selectedMembers (ProjectForm.toggleAll ws f) = everyone)
  ∧ ∀ id : string,
      ProjectForm.toggleMember id (ProjectForm.toggleMember id f) = f.
Proof.
  intros Hnd Hreach everyone.
  pose proof (ProjectForm_selected_subseteq ws f Hreach) as Hsub.
  pose proof (size_test_is_all_selected (map user_id ws)
                (ProjectForm.selectedMembers f) Hnd Hsub) as Hsize.
  rewrite length_map in Hsize.
  split; [exact Hsub|]. unfold ProjectForm.toggleAll. split; [|split].
  - intros Hall. apply Hsize in Hall. apply Nat.eqb_eq in Hall.
    by rewrite Hall.
  - intros Hnot.
    destruct (_ =? _) eqn:Heq; [|done].
    apply Nat.eqb_eq, Hsize in Heq. contradiction.
  - intros id. destruct f as [name selected].
    unfold ProjectForm.toggleMember. simpl. f_equal.
    destruct (decide (id ∈ selected)) as [Hin|Hnotin].
    + rewrite (bool_decide_true _ Hin).
      rewrite bool_decide_false.
      2: { intros Hx. apply elem_of_difference in Hx as [_ Hx]. apply Hx.
           by apply elem_of_singleton. }
      apply set_eq. intros x. rewrite elem_of_union, elem_of_difference,
        elem_of_singleton.
      destruct (decide (x = id)) as [->|]; tauto.
    + rewrite (bool_decide_false _ Hnotin).
      rewrite bool_decide_true.
      2: { apply elem_of_union. right. by apply elem_of_singleton. }
      apply set_eq. intros x. rewrite elem_of_difference, elem_of_union,
        elem_of_singleton.
      split; [tauto|]. intros Hx. split; [by left|]. by intros ->.
Qed.

Lemma project_form_toggles_witness :
  ProjectForm.selectedMembers
    (ProjectForm.toggleAll sample_users
       (ProjectForm.initialState None sample_users))
  = ∅.
Proof.
  destruct (project_form_toggles sample_users
              (ProjectForm.initialState None sample_users))
    as (_ & Hall & _).
  - apply (bool_decide_unpack (NoDup (map user_id sample_users))).
    vm_compute. exact I.
  - apply ProjectForm.reachable_mount.
  - by apply Hall.
Defined.

(** ** The task form *)

Lemma TaskForm_reachable_id (initialData formData : Task) :
  TaskForm.reachable initialData formData →
  task_id formData = task_id initialData.
Proof.
  induction 1 as [|ev formData Hreach IH Hev]; [done|].
  by destruct ev.
Qed.

(** X17. While the task form is open, a milestone's start date is its
    due date: if that holds of the task the form was opened on (it does
    for a task that is not a milestone), it holds of the form data after
    any changes, and the form never changes the task's id. *)
Theorem task_form_keeps_milestone_synced (initialData formData : Task) :
  milestone_synced initialData → TaskForm.reachable initialData formData →
  milestone_synced formData ∧ task_id formData = task_id initialData.
Proof.
  intros Hinit Hreach. split; [|by apply TaskForm_reachable_id].
  induction Hreach as [|ev formData Hreach IH Hev]; [done|].
  unfold milestone_synced in *.
  destruct ev as [v|newType|v|v|v|v|v|v|v]; simpl in *; try exact IH.
  - by destruct newType.
  - intros Hm. by rewrite Hm.
  - intros Hm. congruence.
Qed.

Lemma task_form_keeps_milestone_synced_witness :
  task_startDate
    (TaskForm.changeDueDate "2024-02-09"
       (TaskForm.changeType TypeMilestone new_task))
  = "2024-02-09".
Proof.
  destruct (task_form_keeps_milestone_synced new_task
              (TaskForm.changeDueDate "2024-02-09"
                 (TaskForm.changeType TypeMilestone new_task)))
    as [Hsynced _].
  - intros Hm. discriminate Hm.
  - apply (TaskForm.reachable_handle new_task (TaskForm.ChangeDueDate "2024-02-09"));
      [|exact I].
    apply (TaskForm.reachable_handle new_task (TaskForm.ChangeType TypeMilestone));
      [|exact I].
    apply TaskForm.reachable_mount.
  - by rewrite Hsynced.
Defined.

Lemma map_replace_by_id (tasks : list Task) (j : nat) (t saved : Task) :
  NoDup (map task_id tasks) → tasks !! j = Some t → task_id saved = task_id t →
  map (λ u, if String.eqb (task_id u) (task_id saved) then saved else u) tasks
  = <[j := saved]> tasks.
Proof.
  intros Hnd Hj Hid. rewrite Hid. clear Hid. revert j Hj.
  induction tasks as [|u tasks IH]; intros j Hj; [done|].
  simpl in Hnd. apply NoDup_cons in Hnd as [Hfresh Hnd].
  destruct j as [|j]; simpl in *.
  - injection Hj as ->. rewrite String.eqb_refl. f_equal.
    clear IH Hnd. induction tasks as [|v tasks IH]; [done|]. simpl in *.
    apply not_elem_of_cons in Hfresh as [Hne Hfresh].
    destruct (String.eqb_spec (task_id v) (task_id t)); [congruence|].
    f_equal. by apply IH.
  - destruct (String.eqb_spec (task_id u) (task_id t)) as [Heq|_].
    + exfalso. apply Hfresh. rewrite Heq. apply list_elem_of_fmap.
      exists t. split; [done|]. by eapply list_elem_of_lookup_2.
    + f_equal. by apply IH.
Qed.

(** X18. Editing a task from a view: opening the form on a task of the
    active project (distinct task ids, id other than [new]), changing
    the form in any way and saving puts the form data at the position of
    that task, under the same id, and leaves every other task and every
    other position as it was. *)
Theorem edit_flow_replaces_in_place (newId : string) (st : App.State)
    (i j : nat) (p : Project) (t formData : Task) :
  App.projects st !! i = Some p → project_id p = App.activeProjectId st →
  NoDup (map task_id (project_tasks p)) → project_tasks p !! j = Some t →
  task_id t ≠ "new" → TaskForm.reachable t formData →
  let st' := App.handleSaveTask newId formData (App.onEditTask t st) in
  App.projects st' !! i
  = Some (App.withTasks (<[j := formData]> (project_tasks p)) p)
  ∧ task_id formData = task_id t
  ∧ App.isTaskModalOpen st' = false
  ∧ App.editingTask st' = None.
Proof.
  intros Hi Hid Hnd Hj Hnew Hreach st'. subst st'.
  pose proof (TaskForm_reachable_id t formData Hreach) as Hsame.
  split; [|by split]. unfold App.handleSaveTask. simpl.
  destruct (String.eqb_spec (task_id t) "new") as [|_]; [done|]. simpl.
  rewrite <- (map_replace_by_id (project_tasks p) j t formData Hnd Hj Hsame).
  by apply (inActiveProject_active
              (λ q, App.withTasks
                      (map (λ u, if String.eqb (task_id u) (task_id formData)
                                 then formData else u)
                           (project_tasks q)) q)
              (App.onEditTask t st)).
Qed.

Lemma edit_flow_replaces_in_place_witness :
  App.projects
    (App.handleSaveTask "unused" (TaskForm.withTitle "Develop REST API" edited_task)
       (App.onEditTask edited_task (sample_app "u1" "p1" None))) !! 0
  = Some (mkProject "p1" "Website Redesign"
            (<[1 := TaskForm.withTitle "Develop REST API" edited_task]> three_tasks)
            [] ["u1"; "u2"; "u3"]).
Proof.
  destruct (edit_flow_replaces_in_place "unused" (sample_app "u1" "p1" None) 0 1
              (mkProject "p1" "Website Redesign" three_tasks [] ["u1"; "u2"; "u3"])
              edited_task (TaskForm.withTitle "Develop REST API" edited_task))
    as [Hsaved _].
  - reflexivity.
  - reflexivity.
  - apply (bool_decide_unpack (NoDup (map task_id three_tasks))).
    vm_compute. exact I.
  - reflexivity.
  - discriminate.
  - apply (TaskForm.reachable_handle edited_task
             (TaskForm.ChangeTitle "Develop REST API")); [|exact I].
    apply TaskForm.reachable_mount.
  - exact Hsaved.
Defined.

(** ** The workspace form *)

Lemma role_option_not_owner (role : string) :
  role ∈ WorkspaceForm.ROLE_OPTIONS → String.eqb role "Owner" = false.
Proof.
  unfold WorkspaceForm.ROLE_OPTIONS. intros Hin.
  apply elem_of_cons in Hin as [->|Hin]; [done|].
  apply elem_of_cons in Hin as [->|Hin]; [done|].
  apply elem_of_cons in Hin as [->|Hin]; [done|].
  by apply not_elem_of_nil in Hin.
Qed.

Lemma same_id_same_member (ms : list User) (m m' : User) :
  NoDup (map user_id ms) → m ∈ ms → m' ∈ ms → user_id m = user_id m' → m = m'.
Proof.
  induction ms as [|x ms IH]; intros Hnd Hm Hm' Hid.
  - by apply not_elem_of_nil in Hm.
  - simpl in Hnd. apply NoDup_cons in Hnd as [Hx Hnd].
    apply elem_of_cons in Hm as [->|Hm]; apply elem_of_cons in Hm' as [->|Hm'].
    + done.
    + exfalso. apply Hx. rewrite Hid. apply list_elem_of_fmap. by exists m'.
    + exfalso. apply Hx. rewrite <- Hid. apply list_elem_of_fmap. by exists m.
    + by apply IH.
Qed.

Lemma filter_owner_map (h : User → User) (ms : list User) :
  (∀ m : User, m ∈ ms →
     if is_owner m then h m = m else is_owner (h m) = false) →
  List.filter is_owner (map h ms) = List.filter is_owner ms.
Proof.
  induction ms as [|m ms IH]; intros Hh; [done|]. simpl.
  pose proof (Hh m (list_elem_of_here _ _)) as Hm.
  rewrite IH by (intros m' Hm'; apply Hh; by apply list_elem_of_further).
  destruct (is_owner m) eqn:Howner.
  - by rewrite Hm, Howner.
  - by rewrite Hm.
Qed.

Lemma filter_owner_filter (g : User → bool) (ms : list User) :
  (∀ m : User, m ∈ ms → is_owner m = true → g m = true) →
  List.filter is_owner (List.filter g ms) = List.filter is_owner ms.
Proof.
  induction ms as [|m ms IH]; intros Hg; [done|]. simpl.
  pose proof (Hg m (list_elem_of_here _ _)) as Hm.
  assert (IH' : List.filter is_owner (List.filter g ms) = List.filter is_owner ms).
  { apply IH. intros m' Hm'. apply Hg. by apply list_elem_of_further. }
  destruct (g m) eqn:Hgm; simpl; rewrite IH'; [done|].
  destruct (is_owner m); [|done]. by discriminate Hm.
Qed.

(** X19. The workspace form can neither remove nor demote an Owner, nor
    make one: over members with distinct ids, and with generated ids
    that are new, the Owners of the form data are at every moment the
    Owners the form was opened with, and the member ids stay distinct. *)
Theorem workspace_form_keeps_owners (trim : string → string)
    (initialData : WorkspaceForm.FormData) (st : WorkspaceForm.State) :
  NoDup (map user_id (WorkspaceForm.members initialData)) →
  WorkspaceForm.reachable trim initialData st →
  List.filter is_owner (WorkspaceForm.members (WorkspaceForm.formData st))
  = List.filter is_owner (WorkspaceForm.members initialData)
  ∧ NoDup (map user_id (WorkspaceForm.members (WorkspaceForm.formData st)))
  ∧ WorkspaceForm.newRole (WorkspaceForm.newMember st)
    ∈ WorkspaceForm.ROLE_OPTIONS.
Proof.
  intros Hinit Hreach.
  assert (Hmember : "Member" ∈ WorkspaceForm.ROLE_OPTIONS).
  { apply list_elem_of_further, list_elem_of_here. }
  induction Hreach as [|ev st Hreach (Howners & Hnd & Hrole) Hev];
    [by split|].
  destruct ev as [value|value|value|role|newId avatarColor|id|id newRole];
    simpl in *; try (by split).
  - unfold WorkspaceForm.handleAddMember.
    destruct (JS.truthy _); [|by split]. simpl.
    split; [|split; [|done]].
    + rewrite List.filter_app. simpl. unfold is_owner at 2. simpl.
      rewrite (role_option_not_owner _ Hrole). by rewrite app_nil_r.
    + rewrite map_app. simpl. apply NoDup_app. split; [done|].
      split; [|apply NoDup_singleton].
      intros x Hx Hx'. apply list_elem_of_singleton in Hx' as ->. contradiction.
  - destruct Hev as (m & Hm & Hid & Hnot).
    split; [|split; [|done]].
    + rewrite <- Howners. apply filter_owner_filter.
      intros m' Hm' Howner. apply negb_true_iff.
      destruct (String.eqb_spec (user_id m') id) as [Heq|]; [|done].
      exfalso. apply Hnot.
      rewrite (same_id_same_member _ m m' Hnd Hm Hm') by congruence.
      by apply String.eqb_eq.
    + by apply NoDup_map_filter.
  - destruct Hev as (Hnew & m & Hm & Hid & Hnot).
    split; [|split; [|done]].
    + rewrite <- Howners. apply filter_owner_map.
      intros m' Hm'.
      destruct (String.eqb_spec (user_id m') id) as [Heq|Hne].
      * assert (m' = m) as -> by (apply (same_id_same_member _ _ _ Hnd Hm' Hm); congruence).
        destruct (is_owner m) eqn:Howner.
        -- exfalso. apply Hnot. by apply String.eqb_eq.
        -- unfold is_owner. simpl. by apply role_option_not_owner.
      * by destruct (is_owner m').
    + rewrite map_map.
      erewrite map_ext; [exact Hnd|]. intros m'. simpl.
      by destruct (String.eqb (user_id m') id).
Qed.

Lemma workspace_form_keeps_owners_witness :
  List.filter is_owner
    (WorkspaceForm.members
       (WorkspaceForm.formData
          (WorkspaceForm.handleRemoveMember "u2"
             (WorkspaceForm.handleRoleChange "u3" "Admin"
                (WorkspaceForm.initialState
                   (WorkspaceForm.mkFormData "Acme" "Layout" sample_users))))))
  = [ mkUser "u1" "John Doe" "Owner" "bg-blue-500" None ].
Proof.
  destruct (workspace_form_keeps_owners trim_trimmed
              (WorkspaceForm.mkFormData "Acme" "Layout" sample_users)
              (WorkspaceForm.handleRemoveMember "u2"
                 (WorkspaceForm.handleRoleChange "u3" "Admin"
                    (WorkspaceForm.initialState
                       (WorkspaceForm.mkFormData "Acme" "Layout" sample_users)))))
    as [Howners _].
  - apply (bool_decide_unpack (NoDup (map user_id sample_users))).
    vm_compute. exact I.
  - apply (WorkspaceForm.reachable_handle trim_trimmed _
             (WorkspaceForm.RemoveMember "u2")).
    + apply (WorkspaceForm.reachable_handle trim_trimmed _
               (WorkspaceForm.RoleChange "u3" "Admin")).
      * apply WorkspaceForm.reachable_mount.
      * split; [apply list_elem_of_here|].
        exists (mkUser "u3" "Bob Johnson" "Member" "bg-emerald-500" None).
        split; [|by split].
        simpl. do 2 apply list_elem_of_further. apply list_elem_of_here.
    + exists (mkUser "u2" "Alice Smith" "Admin" "bg-purple-500" None).
      split; [|by split].
      simpl. apply list_elem_of_further, list_elem_of_here.
  - exact Howners.
Defined.

(* ===================================================================== *)
(** * Further properties: the task list *)
(* ===================================================================== *)

(** ** Columns *)

Section ReachableColumns.

Variable toLowerCase : string → string.







End ReachableColumns.



(** ** Resizing *)

Lemma moves_follow_the_last (r : Grid.Resizing) (xs : list Z)
    (st : TaskListView.State) :
  TaskListView.resizing st = Some r →
  let st' := foldl (λ s x, TaskListView.handleMouseMove x s) st xs in
  TaskListView.resizing st' = Some r
  ∧ TaskListView.columnWidths st'
    = match last xs with
      | Some xn =>
          <[Grid.key r :=
              JS.Math_max 80 (JS.plus (Grid.startWidth r) (xn - Grid.startX r))]>
            (TaskListView.columnWidths st)
      | None => TaskListView.columnWidths st
      end.
Proof.
  revert st. induction xs as [|x xs IH]; intros st Hr; [by split|].
  simpl. destruct (IH (TaskListView.handleMouseMove x st) Hr) as [Hr' Hw].
  split; [exact Hr'|]. rewrite Hw. clear IH Hr' Hw.
  destruct xs as [|x' xs]; [simpl; by rewrite Hr|].
  change (last (x :: x' :: xs)) with (last (x' :: xs)).
  destruct (last (x' :: xs)) as [xn|] eqn:Hlast;
    [|by apply last_None in Hlast].
  simpl. rewrite Hr. simpl. apply insert_insert_eq.
Qed.

(** X21. A whole resize gesture: pressing the handle of a column at
    [x0], moving the pointer any number of times and releasing leaves
    the column at [max(80, width + (xn - x0))] for the last position
    [xn] alone, whatever path the pointer took, and every other column
    as it was; with no move the widths are unchanged. After the release
    pointer moves change nothing. *)
Theorem resize_gesture (k : string) (x0 w : Z) (xs : list Z)
    (st st1 : TaskListView.State) :
  TaskListView.columnWidths st !! k = Some (JS.Num w) →
  TaskListView.startResize k x0 st = st1 →
  let released :=
    TaskListView.handleMouseUp
      (foldl (λ s x, TaskListView.handleMouseMove x s) st1 xs) in
  TaskListView.columnWidths released
  = match last xs with
    | Some xn =>
        <[k := JS.Num (Z.max 80 (w + (xn - x0)))]> (TaskListView.columnWidths st)
    | None => TaskListView.columnWidths st
    end
  ∧ TaskListView.resizing released = None
  ∧ ∀ x : Z, TaskListView.handleMouseMove x released = released.
Proof.
  intros Hw <- released. subst released.
  pose proof (moves_follow_the_last
                (Grid.mkResizing k x0 (Some (JS.Num w))) xs
                (TaskListView.startResize k x0 st)) as Hmoves.
  destruct Hmoves as [_ Hwidths].
  { unfold TaskListView.startResize, Grid.startResize. simpl. by rewrite Hw. }
  simpl in Hwidths. simpl. split; [exact Hwidths|]. done.
Qed.

Lemma resize_gesture_witness :
  TaskListView.columnWidths
    (TaskListView.handleMouseUp
       (foldl (λ s x, TaskListView.handleMouseMove x s)
          (TaskListView.startResize "title" 500
             (sample_state TaskListView.defaultColumnOrder None ∅))
          [900; 100; 530]%Z))
  = <["title" := JS.Num 280]> sample_widths.
Proof.
  destruct (resize_gesture "title" 500 250 [900; 100; 530]%Z
              (sample_state TaskListView.defaultColumnOrder None ∅)
              (TaskListView.startResize "title" 500
                 (sample_state TaskListView.defaultColumnOrder None ∅)))
    as [Hwidths _]; [reflexivity | reflexivity |exact Hwidths].
Defined.

(** X28. What a pointer move stores while a resize is in progress, by
    the width the drag started from: from a number [w] it stores
    [max(80, w + (clientX - startX))], never less than 80, so that a
    requested width of 10 is stored as 80; from [null] it stores
    [max(80, clientX - startX)]; from a missing width or [NaN] it
    stores [NaN]. The width of every other column, like every other
    state cell, is what it was, and widths of at least 80 stay so when
    the drag started from a number. *)
Theorem resize_move_by_start_width (clientX : Z)
    (st : TaskListView.State) (r : Grid.Resizing) :
  TaskListView.resizing st = Some r →
  let st' := TaskListView.handleMouseMove clientX st in
  let diff := (clientX - Grid.startX r)%Z in
  (∀ w : Z, Grid.startWidth r = Some (JS.Num w) →
     TaskListView.columnWidths st' !! Grid.key r
     = Some (JS.Num (Z.max 80 (w + diff)))
     ∧ (80 ≤ Z.max 80 (w + diff))%Z
     ∧ ((w + diff)%Z = 10%Z →
        TaskListView.columnWidths st' !! Grid.key r = Some (JS.Num 80))
     ∧ ((∀ (k : string) (v : JS.Value),
           TaskListView.columnWidths st !! k = Some v → at_least_80 v) →
        ∀ (k : string) (v : JS.Value),
          TaskListView.columnWidths st' !! k = Some v → at_least_80 v))
  ∧ (Grid.startWidth r = Some JS.Null →
     TaskListView.columnWidths st' !! Grid.key r = Some (JS.Num (Z.max 80 diff)))
  ∧ (Grid.startWidth r = None ∨ Grid.startWidth r = Some JS.NaN →
     TaskListView.columnWidths st' !! Grid.key r = Some JS.NaN)
  ∧ (∀ k : string, k ≠ Grid.key r →
       TaskListView.columnWidths st' !! k = TaskListView.columnWidths st !! k)
  ∧ TaskListView.columnOrder st' = TaskListView.columnOrder st
  ∧ TaskListView.selectedIds st' = TaskListView.selectedIds st
  ∧ TaskListView.resizing st' = TaskListView.resizing st.
Proof.
  intros Hr st' diff. subst st' diff.
  split; [|split; [|split; [|split; [|done]]]].
  - intros w Hw.
    destruct (handleMouseMove_clamps clientX w st r Hr Hw)
      as (Hstored & _ & Hfloor).
    split; [exact Hstored|]. split; [lia|]. split; [|exact Hfloor].
    intros Hten. by rewrite Hstored, Hten.
  - intros Hnull. unfold TaskListView.handleMouseMove, Grid.handleMouseMove.
    simpl. rewrite Hr, Hnull. simpl. apply lookup_insert_eq.
  - intros Hmissing. unfold TaskListView.handleMouseMove, Grid.handleMouseMove.
    simpl. rewrite Hr. destruct Hmissing as [-> | ->]; apply lookup_insert_eq.
  - intros k Hk. unfold TaskListView.handleMouseMove, Grid.handleMouseMove.
    simpl. rewrite Hr. by apply lookup_insert_ne.
Qed.

Lemma resize_move_by_start_width_witness :
  TaskListView.columnWidths
    (TaskListView.handleMouseMove 60
       (TaskListView.mkState ∅ sample_widths ["title"; "status"; "priority"]
          (Some (Grid.mkResizing "title" 300 (Some (JS.Num 250)))) None ∅ None))
    !! "title" = Some (JS.Num 80).
Proof.
  destruct (resize_move_by_start_width 60
              (TaskListView.mkState ∅ sample_widths ["title"; "status"; "priority"]
                 (Some (Grid.mkResizing "title" 300 (Some (JS.Num 250)))) None
                 ∅ None)
              (Grid.mkResizing "title" 300 (Some (JS.Num 250))) eq_refl)
    as (Hnumber & _).
  destruct (Hnumber 250%Z eq_refl) as (_ & _ & Hfloor & _).
  apply Hfloor. reflexivity.
Defined.



(** ** Filters and selection *)

Lemma filter_narrower_sublist {A : Type} (f g : A → bool) (l : list A) :
  (∀ x : A, f x = true → g x = true) →
  List.filter f l `sublist_of` List.filter g l.
Proof.
  intros Hfg. induction l as [|x l IH]; simpl; [done|].
  destruct (f x) eqn:Hf.
  - rewrite (Hfg x Hf). by apply sublist_skip.
  - destruct (g x); [by apply sublist_cons | done].
Qed.

Lemma filter_sublist {A : Type} (f : A → bool) (l : list A) :
  List.filter f l `sublist_of` l.
Proof.
  induction l as [|x l IH]; simpl; [done|].
  destruct (f x); [by apply sublist_skip | by apply sublist_cons].
Qed.

(** X22. The rows the task list shows are rows it was given, in the
    order given. Setting the filter of a column can only take rows away
    from what the other filters leave, and clearing the filter of a
    column that had none before it was set brings the filters, and so
    the rows, back. *)
Theorem filters_only_narrow (toLowerCase : string → string)
    (tasks : list Task) (k value : string) (st : TaskListView.State) :
  let rows s :=
    TaskListView.filteredTasks toLowerCase tasks (TaskListView.activeFilters s) in
  rows st `sublist_of` tasks
  ∧ rows (TaskListView.changeFilter k value st)
    `sublist_of` rows (TaskListView.clearFilter k st)
  ∧ (TaskListView.activeFilters st !! k = None →
     rows (TaskListView.clearFilter k (TaskListView.changeFilter k value st))
     = rows st
     ∧ rows (TaskListView.changeFilter k value st) `sublist_of` rows st).
Proof.
  intros rows. subst rows. simpl.
  assert (Hnarrow : TaskListView.filteredTasks toLowerCase tasks
                      (<[k := value]> (TaskListView.activeFilters st))
                    `sublist_of`
                    TaskListView.filteredTasks toLowerCase tasks
                      (delete k (TaskListView.activeFilters st))).
  { apply filter_narrower_sublist. intros task.
    rewrite !every_entries. intros H key v Hkv.
    apply lookup_delete_Some in Hkv as [Hne Hkv].
    apply H. by rewrite lookup_insert_ne. }
  split; [apply filter_sublist|]. split; [exact Hnarrow|].
  intros Hnone. rewrite delete_insert_eq.
  rewrite (delete_id _ _ Hnone) in *. by split.
Qed.

Lemma filters_only_narrow_witness :
  TaskListView.filteredTasks JS.toLowerCase_ascii three_tasks
    (TaskListView.activeFilters
       (TaskListView.changeFilter "title" "api"
          (sample_state TaskListView.defaultColumnOrder None ∅)))
  `sublist_of` three_tasks.
Proof.
  destruct (filters_only_narrow JS.toLowerCase_ascii three_tasks "title" "api"
              (sample_state TaskListView.defaultColumnOrder None ∅))
    as (_ & _ & Hfresh).
  destruct (Hfresh eq_refl) as [_ Hsub].
  rewrite filteredTasks_no_filter in Hsub. exact Hsub.
Defined.

(** X23. Clicking the checkbox of a row changes the selection at that
    row's id and nowhere else, by one id up or down, and clicking it a
    second time restores the state. *)
Theorem toggleSelection_flips_one (id : string) (st : TaskListView.State) :
  let st' := TaskListView.toggleSelection id st in
  (id ∈ TaskListView.selectedIds st' ↔ id ∉ TaskListView.selectedIds st)
  ∧ (∀ other : string, other ≠ id →
       other ∈ TaskListView.selectedIds st' ↔ other ∈ TaskListView.selectedIds st)
  ∧ size (TaskListView.selectedIds st')
    = (if bool_decide (id ∈ TaskListView.selectedIds st)
       then size (TaskListView.selectedIds st) - 1
       else size (TaskListView.selectedIds st) + 1)
  ∧ TaskListView.toggleSelection id st' = st.
Proof.
  intros st'. subst st'. destruct st as [sel widths order res drag filters open].
  unfold TaskListView.toggleSelection. simpl.
  destruct (decide (id ∈ sel)) as [Hin|Hnotin].
  - rewrite (bool_decide_true _ Hin).
    assert (Hout : id ∉ sel ∖ {[id]}).
    { intros Hx. apply elem_of_difference in Hx as [_ Hx]. apply Hx.
      by apply elem_of_singleton. }
    rewrite (bool_decide_false _ Hout).
    split; [tauto|]. split; [|split].
    + intros other Hne. rewrite elem_of_difference, elem_of_singleton. tauto.
    + rewrite size_difference by by apply singleton_subseteq_l.
      by rewrite size_singleton.
    + f_equal. apply set_eq. intros x.
      rewrite elem_of_union, elem_of_difference, elem_of_singleton.
      destruct (decide (x = id)) as [->|]; tauto.
  - rewrite (bool_decide_false _ Hnotin).
    assert (Hnow : id ∈ sel ∪ {[id]}).
    { apply elem_of_union. right. by apply elem_of_singleton. }
    rewrite (bool_decide_true _ Hnow).
    split; [tauto|]. split; [|split].
    + intros other Hne. rewrite elem_of_union, elem_of_singleton. tauto.
    + rewrite size_union by (apply disjoint_singleton_r; exact Hnotin).
      by rewrite size_singleton.
    + f_equal. apply set_eq. intros x.
      rewrite elem_of_difference, elem_of_union, elem_of_singleton.
      split; [tauto|]. intros Hx. split; [by left|]. by intros ->.
Qed.

Lemma toggleSelection_flips_one_witness :
  "t2" ∈ TaskListView.selectedIds
           (TaskListView.toggleSelection "t1"
              (sample_state TaskListView.defaultColumnOrder None {[ "t2" ]})).
Proof.
  destruct (toggleSelection_flips_one "t1"
              (sample_state TaskListView.defaultColumnOrder None {[ "t2" ]}))
    as (_ & Hother & _).
  apply Hother; [discriminate|].
  change ("t2" ∈ ({[ "t2" ]} : gset string)). by apply elem_of_singleton.
Defined.

(* ===================================================================== *)
(** * Further properties: the Gantt chart *)
(* ===================================================================== *)

Section GanttRows.

Variable Date_getTime : string → option Z.

Lemma in_start_order_cons (t : Task) (rows : list Task) :
  Forall (starts_no_later Date_getTime t) rows →
  in_start_order Date_getTime rows →
  in_start_order Date_getTime (t :: rows).
Proof.
  intros Hall Hrows i j a b Hij Hi Hj.
  destruct j as [|j]; [lia|]. simpl in Hj.
  destruct i as [|i]; simpl in Hi.
  - injection Hi as <-. rewrite Forall_forall in Hall. apply Hall.
    by eapply list_elem_of_lookup_2.
  - apply (Hrows i j); [lia|done|done].
Qed.

Lemma in_start_order_inv (t : Task) (rows : list Task) :
  in_start_order Date_getTime (t :: rows) →
  Forall (starts_no_later Date_getTime t) rows
  ∧ in_start_order Date_getTime rows.
Proof.
  intros Hrows. split.
  - apply Forall_forall. intros u Hu.
    apply list_elem_of_lookup in Hu as [j Hj].
    apply (Hrows 0 (S j)); [lia|done|done].
  - intros i j a b Hij Hi Hj. apply (Hrows (S i) (S j)); [lia|done|done].
Qed.

Lemma starts_no_later_trans (a b c : Task) :
  starts_no_later Date_getTime a b → starts_no_later Date_getTime b c →
  starts_no_later Date_getTime a c.
Proof.
  unfold starts_no_later.
  destruct (Date_getTime (task_startDate a)); [|done].
  destruct (Date_getTime (task_startDate b)); [|done].
  destruct (Date_getTime (task_startDate c)); [|done]. lia.
Qed.

Lemma insertSorted_in_start_order (t : Task) (sorted : list Task) :
  is_Some (Date_getTime (task_startDate t)) →
  Forall (λ u, is_Some (Date_getTime (task_startDate u))) sorted →
  in_start_order Date_getTime sorted →
  in_start_order Date_getTime (GanttView.insertSorted Date_getTime t sorted).
Proof.
  intros [tt Ht]. induction sorted as [|u rest IH]; intros Hvalid Hsorted.
  - simpl. intros i j a b Hij Hi Hj. destruct j; [lia|]. by destruct i.
  - apply Forall_cons in Hvalid as [[tu Hu] Hvalid].
    apply in_start_order_inv in Hsorted as [Hall Hrest]. simpl.
    unfold GanttView.compareStart. rewrite Ht, Hu.
    destruct (Z.leb_spec (tt - tu) 0) as [Hle|Hgt].
    + assert (Htu : starts_no_later Date_getTime t u).
      { unfold starts_no_later. rewrite Ht, Hu. lia. }
      apply in_start_order_cons.
      * apply Forall_cons. split; [exact Htu|].
        eapply Forall_impl; [exact Hall|]. intros v Hv.
        by apply (starts_no_later_trans t u v).
      * by apply in_start_order_cons.
    + apply in_start_order_cons; [|by apply IH].
      apply Forall_forall. intros v Hv.
      rewrite insertSorted_Permutation in Hv.
      apply elem_of_cons in Hv as [->|Hv].
      * unfold starts_no_later. rewrite Ht, Hu. lia.
      * rewrite Forall_forall in Hall. by apply Hall.
Qed.

Lemma sortedTasks_in_start_order (tasks : list Task) :
  Forall (λ u, is_Some (Date_getTime (task_startDate u))) tasks →
  in_start_order Date_getTime (GanttView.sortedTasks Date_getTime tasks).
Proof.
  induction tasks as [|t tasks IH]; intros Hvalid.
  - intros i j a b Hij Hi Hj. by destruct i.
  - apply Forall_cons in Hvalid as [Ht Hvalid].
    unfold GanttView.sortedTasks. simpl.
    apply insertSorted_in_start_order; [done| |by apply IH].
    apply Forall_forall. intros u Hu.
    rewrite Forall_forall in Hvalid. apply Hvalid.
    by rewrite <- (sortedTasks_Permutation Date_getTime tasks).
Qed.

(** X24. When every start date is valid the rows of the chart are the
    tasks in start order; with distinct ids, a task that starts before
    another is drawn on a row above it, each row 48 pixels high with
    its centre line 24 pixels down. *)
Theorem earlier_start_is_drawn_higher (tasks : list Task) (a b : Task)
    (ta tb : Z) (startDate : option Z) (pixelsPerDay : Q) :
  Forall (λ u, is_Some (Date_getTime (task_startDate u))) tasks →
  NoDup (map task_id tasks) → a ∈ tasks → b ∈ tasks →
  Date_getTime (task_startDate a) = Some ta →
  Date_getTime (task_startDate b) = Some tb → (ta < tb)%Z →
  in_start_order Date_getTime (GanttView.sortedTasks Date_getTime tasks)
  ∧ GanttView.sortedTasks Date_getTime tasks ≡ₚ tasks
  ∧ ∃ (rowa rowb : nat) (pa pb : GanttView.Position),
      GanttView.taskPositions Date_getTime tasks startDate pixelsPerDay
        !! task_id a = Some pa
      ∧ GanttView.taskPositions Date_getTime tasks startDate pixelsPerDay
          !! task_id b = Some pb
      ∧ GanttView.y pa = (Z.of_nat rowa * 48 + 24)%Z
      ∧ GanttView.y pb = (Z.of_nat rowb * 48 + 24)%Z
      ∧ rowa < rowb.
Proof.
  intros Hvalid Hnd Ha Hb Hta Htb Hlt.
  pose proof (sortedTasks_in_start_order tasks Hvalid) as Hsorted.
  split; [exact Hsorted|]. split; [apply sortedTasks_Permutation|].
  destruct (taskPositions_lookup Date_getTime tasks startDate pixelsPerDay a
              Hnd Ha) as (rowa & Hrowa & Hpa).
  destruct (taskPositions_lookup Date_getTime tasks startDate pixelsPerDay b
              Hnd Hb) as (rowb & Hrowb & Hpb).
  exists rowa, rowb. eexists _, _.
  split; [exact Hpa|]. split; [exact Hpb|].
  split; [reflexivity|]. split; [reflexivity|].
  destruct (Nat.lt_trichotomy rowa rowb) as [Hrows|[Hrows|Hrows]]; [done| |].
  - subst rowb. rewrite Hrowa in Hrowb. injection Hrowb as <-.
    rewrite Hta in Htb. injection Htb as <-. lia.
  - pose proof (Hsorted rowb rowa b a Hrows Hrowb Hrowa) as Hba.
    unfold starts_no_later in Hba. rewrite Hta, Htb in Hba. lia.
Qed.

Lemma setPositions_is_Some (startDate : option Z) (ppd : Q) (sorted : list Task)
    (index : nat) (positions : gmap string GanttView.Position) (id : string) :
  id ∈ map task_id sorted ∨ is_Some (positions !! id) →
  is_Some (GanttView.setPositions Date_getTime startDate ppd sorted index
             positions !! id).
Proof.
  revert index positions.
  induction sorted as [|t rest IH]; intros index positions Hid; simpl.
  - destruct Hid as [Hin|Hsome]; [by apply not_elem_of_nil in Hin | done].
  - apply IH. destruct Hid as [Hin|Hsome].
    + simpl in Hin. apply elem_of_cons in Hin as [->|Hin]; [|by left].
      right. rewrite lookup_insert_eq. by eexists.
    + destruct (decide (task_id t = id)) as [<-|Hne].
      * right. rewrite lookup_insert_eq. by eexists.
      * right. by rewrite lookup_insert_ne.
Qed.

Lemma collectRows_spec (positions : gmap string GanttView.Position)
    (sorted : list Task) :
  (∀ t : Task, t ∈ sorted → is_Some (positions !! task_id t)) →
  match GanttView.collectRows positions sorted with
  | Some rows =>
      length rows = length sorted ∧ Forall is_Some rows
      ∧ Forall (λ t, task_status t ∈ TASK_STATUSES) sorted
  | None => Exists (λ t, task_status t ∉ TASK_STATUSES) sorted
  end.
Proof.
  induction sorted as [|t rest IH]; intros Hsome; [by repeat split|].
  destruct (Hsome t) as [pos Hpos]; [apply list_elem_of_here|].
  assert (IH' := IH (λ u Hu, Hsome u (list_elem_of_further _ _ _ Hu))).
  clear IH. simpl. unfold GanttView.renderTask. rewrite Hpos.
  destruct (GanttView.colorClass (task_status t)) as [color|] eqn:Hcolor.
  - assert (Hstatus : task_status t ∈ TASK_STATUSES).
    { apply colorClass_TASK_STATUSES. by eexists. }
    destruct (GanttView.collectRows positions rest) as [rows|]; simpl.
    + destruct IH' as (Hlen & Hrows & Hall).
      split; [by rewrite Hlen|]. split; by apply Forall_cons.
    + by apply Exists_cons_tl.
  - apply Exists_cons_hd. intros Hstatus.
    apply colorClass_TASK_STATUSES in Hstatus as [? ?]. congruence.
Qed.

(** X25. The chart is drawn exactly when the status of every task is
    one of the five statuses; a single task with another status makes
    its row throw, and with it the whole chart. When the chart is drawn
    it skips no row: it draws one row per task, also when ids repeat or
    dates are invalid. A milestone with one of the five statuses gets
    its diamond; with distinct ids, such a task whose start or due date
    is invalid gets a row with no bar. *)
Theorem chart_draws_every_row (tasks : list Task) (startDate : option Z)
    (pixelsPerDay : Q) :
  let positions :=
    GanttView.taskPositions Date_getTime tasks startDate pixelsPerDay in
  let rendered :=
    GanttView.renderRows Date_getTime tasks startDate pixelsPerDay in
  (is_Some rendered ↔ Forall (λ t, task_status t ∈ TASK_STATUSES) tasks)
  ∧ (∀ rows : list (option GanttView.Element), rendered = Some rows →
       length rows = length tasks ∧ Forall is_Some rows)
  ∧ (∀ t : Task, t ∈ tasks → task_status t ∉ TASK_STATUSES →
       GanttView.renderTask positions t = GanttView.Throws
       ∧ rendered = None)
  ∧ (∀ t : Task, t ∈ tasks → task_status t ∈ TASK_STATUSES →
       task_type t = TypeMilestone →
       ∃ left : GanttView.number,
         GanttView.renderTask positions t
         = GanttView.Row (GanttView.Diamond left GanttView.MILESTONE_SIZE))
  ∧ (NoDup (map task_id tasks) →
     ∀ t : Task, t ∈ tasks → task_status t ∈ TASK_STATUSES →
       task_type t = TypeTask →
       Date_getTime (task_startDate t) = None
       ∨ Date_getTime (task_dueDate t) = None →
       GanttView.renderTask positions t = GanttView.Row GanttView.NoElement).
Proof.
  intros positions rendered.
  assert (Hsome : ∀ t : Task, t ∈ tasks → is_Some (positions !! task_id t)).
  { intros t Ht. apply setPositions_is_Some. left.
    apply list_elem_of_fmap. exists t. split; [done|].
    by rewrite sortedTasks_Permutation. }
  pose proof (sortedTasks_Permutation Date_getTime tasks) as Hperm.
  pose proof (collectRows_spec positions
                (GanttView.sortedTasks Date_getTime tasks)) as Hrows.
  assert (Hsorted : ∀ t : Task,
            t ∈ GanttView.sortedTasks Date_getTime tasks →
            is_Some (positions !! task_id t)).
  { intros t Ht. apply Hsome. by rewrite <- Hperm. }
  specialize (Hrows Hsorted). clear Hsorted. subst rendered.
  change (GanttView.renderRows Date_getTime tasks startDate pixelsPerDay)
    with (GanttView.collectRows positions
            (GanttView.sortedTasks Date_getTime tasks)).
  revert Hrows.
  generalize (GanttView.collectRows positions
                (GanttView.sortedTasks Date_getTime tasks)).
  intros rendered Hrows.
  assert (Hthrows : ∀ t : Task, t ∈ tasks → task_status t ∉ TASK_STATUSES →
            rendered = None).
  { intros t Ht Hstatus. destruct rendered as [rows|]; [|done].
    destruct Hrows as (_ & _ & Hall). rewrite Hperm in Hall.
    rewrite Forall_forall in Hall. by destruct (Hstatus (Hall t Ht)). }
  split; [|split; [|split; [|split]]].
  - destruct rendered as [rows|].
    + destruct Hrows as (_ & _ & Hall). rewrite Hperm in Hall.
      split; [done | by eexists].
    + rewrite Hperm in Hrows. split; [by intros [? ?]|]. intros Hall.
      apply Exists_exists in Hrows as (t & Ht & Hstatus).
      rewrite Forall_forall in Hall. by destruct (Hstatus (Hall t Ht)).
  - intros rows Hrendered. rewrite Hrendered in Hrows.
    destruct Hrows as (Hlen & Hall & _). by rewrite Hlen, Hperm.
  - intros t Ht Hstatus. split; [|by apply (Hthrows t)].
    destruct (Hsome t Ht) as [pos Hpos].
    unfold GanttView.renderTask. rewrite Hpos.
    destruct (GanttView.colorClass (task_status t)) eqn:Hcolor; [|done].
    destruct Hstatus. apply colorClass_TASK_STATUSES. by eexists.
  - intros t Ht Hstatus Htype. destruct (Hsome t Ht) as [pos Hpos].
    apply colorClass_TASK_STATUSES in Hstatus as [color Hcolor].
    unfold GanttView.renderTask. rewrite Hpos, Hcolor, Htype. by eexists.
  - intros Hnd t Ht Hstatus Htype Hinvalid.
    destruct (taskPositions_lookup Date_getTime tasks startDate pixelsPerDay t
                Hnd Ht) as (row & _ & Hpos).
    apply colorClass_TASK_STATUSES in Hstatus as [color Hcolor].
    unfold GanttView.renderTask. fold positions in Hpos.
    rewrite Hpos, Hcolor, Htype. simpl.
    destruct Hinvalid as [Hnone|Hnone]; rewrite Hnone; simpl; [|done].
    by destruct (Date_getTime (task_dueDate t)).
Qed.

End GanttRows.

Lemma earlier_start_is_drawn_higher_witness :
  ∃ (rowa rowb : nat) (pa pb : GanttView.Position),
    GanttView.taskPositions JS.Date_getTime_iso three_tasks None 40 !! "t1"
    = Some pa
    ∧ GanttView.taskPositions JS.Date_getTime_iso three_tasks None 40 !! "t3"
      = Some pb
    ∧ GanttView.y pa = (Z.of_nat rowa * 48 + 24)%Z
    ∧ GanttView.y pb = (Z.of_nat rowb * 48 + 24)%Z
    ∧ rowa < rowb.
Proof.
  destruct (earlier_start_is_drawn_higher JS.Date_getTime_iso three_tasks
              (sample_task "t1" "Design Mockups" "Done" "High" "2024-01-01"
                 "2024-01-04" TypeTask)
              (sample_task "t3" "Launch" "To Do" "High" "2024-01-10"
                 "2024-01-10" TypeMilestone)
              1704067200000 1704844800000 None 40) as (_ & _ & Hrows).
  - unfold three_tasks. repeat apply List.Forall_cons.
    4: apply List.Forall_nil.
    all: vm_compute; by eexists.
  - apply (bool_decide_unpack (NoDup (map task_id three_tasks))).
    vm_compute. exact I.
  - apply list_elem_of_here.
  - do 2 apply list_elem_of_further. apply list_elem_of_here.
  - vm_compute. reflexivity.
  - vm_compute. reflexivity.
  - lia.
  - exact Hrows.
Defined.

Lemma chart_draws_every_row_witness :
  GanttView.renderTask
    (GanttView.taskPositions JS.Date_getTime_iso undated_tasks None 40)
    (sample_task "t5" "Retrospective" "To Do" "Low" "" "2024-01-12" TypeTask)
  = GanttView.Row GanttView.NoElement.
Proof.
  destruct (chart_draws_every_row JS.Date_getTime_iso undated_tasks None 40)
    as (_ & _ & _ & _ & Hundated).
  apply Hundated.
  - apply (bool_decide_unpack (NoDup (map task_id undated_tasks))).
    vm_compute. exact I.
  - unfold undated_tasks, gantt_tasks, three_tasks. simpl.
    do 4 apply list_elem_of_further. apply list_elem_of_here.
  - unfold TASK_STATUSES. simpl. apply list_elem_of_here.
  - reflexivity.
  - left. vm_compute. reflexivity.
Defined.

(** X26. At every zoom factor the toolbar can reach, a task with one
    of the five statuses and valid dates whose due date is not before
    its start is drawn as a bar in the colour of its status, at least 2
    and at most 100 pixels wide per day it covers, a day being
    86400000 milliseconds; no zoom makes such a bar disappear. *)
Theorem bars_at_every_zoom (Date_getTime : string → option Z)
    (tasks : list Task) (task : Task) (rangeStart tStart tEnd : Z)
    (pixelsPerDay : Q) :
  GanttView.reachable pixelsPerDay →
  NoDup (map task_id tasks) → task ∈ tasks → task_type task = TypeTask →
  task_status task ∈ TASK_STATUSES →
  Date_getTime (task_startDate task) = Some tStart →
  Date_getTime (task_dueDate task) = Some tEnd → (tStart ≤ tEnd)%Z →
  ∃ (left barWidth : Q) (color : string),
    GanttView.colorClass (task_status task) = Some color
    ∧ GanttView.renderTask
        (GanttView.taskPositions Date_getTime tasks (Some rangeStart)
           pixelsPerDay) task
      = GanttView.Row (GanttView.Bar (Some left) (Some barWidth) color)
    ∧ (2 * (days_between tStart tEnd + 1) <= barWidth)%Q
    ∧ (barWidth <= 100 * (days_between tStart tEnd + 1))%Q
    ∧ (2 <= barWidth)%Q
    ∧ ((tEnd - tStart)%Z = 86400000%Z → barWidth == 2 * pixelsPerDay)%Q.
Proof.
  intros Hzoom Hnd Hin Htype Hstatus Hs He Hle.
  apply zoom_factor_bounds in Hzoom as [Hlo Hhi].
  destruct (taskPositions_lookup Date_getTime tasks (Some rangeStart)
              pixelsPerDay task Hnd Hin) as (row & _ & Hpos).
  rewrite (position_valid_dates _ _ _ _ _ _ _ Hs He) in Hpos.
  pose proof (days_between_nonneg _ _ Hle) as Hd.
  apply colorClass_TASK_STATUSES in Hstatus as [color Hcolor].
  eexists _, _, color. split; [exact Hcolor|]. split.
  - unfold GanttView.renderTask. rewrite Hpos, Hcolor, Htype. simpl.
    destruct (Qle_bool _ 0) eqn:Hb; [|reflexivity].
    apply Qle_bool_iff in Hb. nra.
  - split; [nra|]. split; [nra|]. split; [nra|].
    intros Hday. replace tEnd with (tStart + 86400000)%Z by lia.
    rewrite (days_between_next_day tStart). ring.
Qed.

Lemma bars_at_every_zoom_witness :
  ∃ left barWidth : Q,
    GanttView.renderTask
      (GanttView.taskPositions JS.Date_getTime_iso gantt_tasks
         (Some 1703635200000%Z)
         (GanttView.setPixelsPerDay GanttView.ZoomOut
            (GanttView.setPixelsPerDay GanttView.PresetMonthly
               GanttView.initialPixelsPerDay)))
      (sample_task "t4" "Release notes" "To Do" "Low" "2024-01-10"
         "2024-01-10" TypeTask)
    = GanttView.Row (GanttView.Bar (Some left) (Some barWidth) "bg-slate-100")
    ∧ (2 <= barWidth)%Q.
Proof.
  destruct (bars_at_every_zoom JS.Date_getTime_iso gantt_tasks
              (sample_task "t4" "Release notes" "To Do" "Low" "2024-01-10"
                 "2024-01-10" TypeTask)
              1703635200000 1704844800000 1704844800000
              (GanttView.setPixelsPerDay GanttView.ZoomOut
                 (GanttView.setPixelsPerDay GanttView.PresetMonthly
                    GanttView.initialPixelsPerDay)))
    as (left & barWidth & color & Hcolor & Hbar & _ & _ & Hwide & _).
  - apply (GanttView.reachable_step GanttView.ZoomOut); [|exact I].
    apply (GanttView.reachable_step GanttView.PresetMonthly); [|exact I].
    apply GanttView.reachable_initial.
  - apply (bool_decide_unpack (NoDup (map task_id gantt_tasks))).
    vm_compute. exact I.
  - unfold gantt_tasks, three_tasks. simpl.
    do 3 apply list_elem_of_further. apply list_elem_of_here.
  - reflexivity.
  - unfold TASK_STATUSES. simpl. apply list_elem_of_here.
  - vm_compute. reflexivity.
  - vm_compute. reflexivity.
  - lia.
  - exists left, barWidth. split; [|exact Hwide].
    vm_compute in Hcolor. injection Hcolor as <-. exact Hbar.
Defined.

(* ===================================================================== *)
(** * Further properties: the issue log *)
(* ===================================================================== *)

(** X27. The issue log reloads what it saved: after a reload the order
    is that of the state that was saved, whatever keys it holds, and
    the widths are those that were saved, exactly so when none of them
    is [NaN] and with [null] in the place of [NaN] otherwise, with no
    filter and no drag in progress. Dropping a dragged column of the
    order on another column permutes the order and ends the drag. *)
Theorem issue_log_reload_and_drop (st : IssueLogView.State)
    (localStorage : gmap string string) (dragged targetKey : string) :
  IssueLogView.initialState (IssueLogView.persist st localStorage)
  = IssueLogView.mkState (reloaded <$> IssueLogView.columnWidths st)
      (IssueLogView.columnOrder st) None None ∅ None
  ∧ ((∀ k : string, IssueLogView.columnWidths st !! k ≠ Some JS.NaN) →
     IssueLogView.initialState (IssueLogView.persist st localStorage)
     = IssueLogView.mkState (IssueLogView.columnWidths st)
         (IssueLogView.columnOrder st) None None ∅ None)
  ∧ (IssueLogView.draggedColumn st = Some dragged →
     dragged ∈ IssueLogView.columnOrder st →
     dragged ≠ "" → dragged ≠ targetKey →
     IssueLogView.columnOrder (IssueLogView.handleColumnDrop targetKey st)
     ≡ₚ IssueLogView.columnOrder st
     ∧ IssueLogView.draggedColumn (IssueLogView.handleColumnDrop targetKey st)
       = None
     ∧ IssueLogView.columnWidths (IssueLogView.handleColumnDrop targetKey st)
       = IssueLogView.columnWidths st).
Proof.
  assert (Hload : IssueLogView.initialState (IssueLogView.persist st localStorage)
                  = IssueLogView.mkState (reloaded <$> IssueLogView.columnWidths st)
                      (IssueLogView.columnOrder st) None None ∅ None).
  { unfold IssueLogView.initialState.
    by destruct (IssueLogView_layout_round_trip st localStorage) as [-> ->]. }
  split; [exact Hload|]. split.
  - intros HNaN. by rewrite Hload, (reloaded_id _ HNaN).
  - intros Hd Hin Hne Hdiff. unfold IssueLogView.handleColumnDrop. rewrite Hd.
    destruct (Grid.handleColumnDrop (Some dragged) targetKey
                (IssueLogView.columnOrder st)) as [newOrder|] eqn:Hdrop.
    + simpl. split; [|by split].
      by apply (handleColumnDrop_Permutation _ _ dragged targetKey).
    + exfalso. unfold Grid.handleColumnDrop in Hdrop.
      apply truthy_nonempty in Hne. rewrite Hne in Hdrop. simpl in Hdrop.
      by destruct (String.eqb_spec dragged targetKey).
Qed.

Lemma issue_log_reload_and_drop_witness :
  IssueLogView.columnOrder
    (IssueLogView.handleColumnDrop "title"
       (IssueLogView.mkState ∅ [ "title"; "status"; "priority" ] None
          (Some "priority") ∅ None))
  ≡ₚ [ "title"; "status"; "priority" ].
Proof.
  destruct (issue_log_reload_and_drop
              (IssueLogView.mkState ∅ [ "title"; "status"; "priority" ] None
                 (Some "priority") ∅ None) ∅ "priority" "title")
    as (_ & _ & Hdrop).
  destruct Hdrop as [Hperm _]; [reflexivity| |discriminate|discriminate|exact Hperm].
  simpl. do 2 apply list_elem_of_further. apply list_elem_of_here.
Defined.
